(** * Trailbook communication service: relationship store, message log,
      task consumers and connection eligibility

    A shallow embedding of the NestJS services of the repository:

    - [src/modules/communication/connection-request.service.ts]
    - [src/modules/communication/message.service.ts]
    - [src/modules/communication/consumers/*.consumer.ts]
    - [src/modules/trail-connection/trail-connection.service.ts]
    - the Mongoose schemas under [src/models].

    A MongoDB collection is a list of documents in insertion order; every
    service method is a function from the collections it reads to its
    result and the collections it leaves behind.  An exception thrown by a
    method is the left injection of its result. *)

From Stdlib Require Import List String Ascii ZArith NArith Bool Lia Permutation Sorted.
From stdpp Require Import base list strings gmap.
Import ListNotations.

Local Open Scope string_scope.
Local Open Scope list_scope.
Local Open Scope Z_scope.

(** ** ObjectId strings

    [Types.ObjectId.isValid] accepts the 24 character hexadecimal form,
    [new Types.ObjectId(s)] parses it (either letter case) and
    [String(objectId)] prints the lower case hexadecimal form. *)

Definition isHexDigit (c : ascii) : bool :=
  let n := N_of_ascii c in
  (((48 <=? n) && (n <=? 57)) || ((97 <=? n) && (n <=? 102))
   || ((65 <=? n) && (n <=? 70)))%N.

Definition toLowerCase (c : ascii) : ascii :=
  let n := N_of_ascii c in
  if ((65 <=? n) && (n <=? 90))%N then ascii_of_N (n + 32) else c.

Fixpoint stringAll (p : ascii -> bool) (s : string) : bool :=
  match s with
  | EmptyString => true
  | String c s' => p c && stringAll p s'
  end.

Fixpoint stringMap (f : ascii -> ascii) (s : string) : string :=
  match s with
  | EmptyString => EmptyString
  | String c s' => String (f c) (stringMap f s')
  end.

Inductive ObjectId : Type := Oid (hex : string).

Definition toHexString (o : ObjectId) : string := let (h) := o in h.

Definition isValid (s : string) : bool :=
  Nat.eqb (String.length s) 24 && stringAll isHexDigit s.

(** [new Types.ObjectId(s)] *)
Definition newObjectId (s : string) : ObjectId := Oid (stringMap toLowerCase s).

Definition oid_eqb (a b : ObjectId) : bool :=
  String.eqb (toHexString a) (toHexString b).

(** ** Exceptions of [@nestjs/common] thrown by the services *)

Inductive HttpException : Type :=
  | BadRequestException (message : string)
  | NotFoundException (message : string)
  | ForbiddenException (message : string).

(** A storage failure ([MongoServerError], [ValidationError]): a plain
    [Error] carrying a message, which every service converts in its
    [catch] block. *)
Inductive StorageError : Type := MongoError (message : string).

Definition errorMessage (e : StorageError) : string := let (m) := e in m.

Definition duplicateKey : StorageError := MongoError "E11000 duplicate key error".

(** ** Relationship store: [ConnectionRequestService] *)

Module ConnReq.

Inductive ConnectionRequestStatus : Type := PENDING | ACCEPTED | REJECTED.

Definition statusString (s : ConnectionRequestStatus) : string :=
  match s with
  | PENDING => "pending"
  | ACCEPTED => "accepted"
  | REJECTED => "rejected"
  end.

Definition status_eqb (a b : ConnectionRequestStatus) : bool :=
  match a, b with
  | PENDING, PENDING | ACCEPTED, ACCEPTED | REJECTED, REJECTED => true
  | _, _ => false
  end.

Record ConnectionRequest : Type := mkRequest {
  _id : ObjectId;
  requesterId : ObjectId;
  recipientId : ObjectId;
  status : ConnectionRequestStatus;
  createdAt : Z;
  updatedAt : Z
}.

Definition Collection : Type := list ConnectionRequest.

(** The filter [{ $or: [{requesterId: a, recipientId: b},
    {requesterId: b, recipientId: a}], status: s }]. *)
Definition pairQuery (a b : ObjectId) (s : ConnectionRequestStatus)
    (r : ConnectionRequest) : bool :=
  ((oid_eqb (requesterId r) a && oid_eqb (recipientId r) b)
   || (oid_eqb (requesterId r) b && oid_eqb (recipientId r) a))
  && status_eqb (status r) s.

Definition findOne (q : ConnectionRequest -> bool) (c : Collection)
    : option ConnectionRequest := List.find q c.

Definition findById (id : ObjectId) (c : Collection) : option ConnectionRequest :=
  List.find (fun r => oid_eqb (_id r) id) c.

(** The partial unique index of the schema:
    [{ requesterId: 1, recipientId: 1, status: 1 }], unique, restricted by
    [partialFilterExpression] to the documents whose status is pending. *)
Definition indexClash (d r : ConnectionRequest) : bool :=
  status_eqb (status d) PENDING && status_eqb (status r) PENDING
  && oid_eqb (requesterId r) (requesterId d)
  && oid_eqb (recipientId r) (recipientId d).

(** [Model.create]: the document is appended unless its [_id] is taken or
    the partial unique index rejects it. *)
Definition create (d : ConnectionRequest) (c : Collection)
    : StorageError + Collection :=
  if existsb (fun r => oid_eqb (_id r) (_id d)) c then inl duplicateKey
  else if existsb (indexClash d) c then inl duplicateKey
  else inr (c ++ [d]).

(** [document.save()] of a document read earlier: the stored document of
    that [_id] is replaced, [updatedAt] being refreshed. *)
Fixpoint save (now : Z) (d : ConnectionRequest) (c : Collection) : Collection :=
  match c with
  | [] => []
  | r :: c' =>
      if oid_eqb (_id r) (_id d)
      then mkRequest (_id d) (requesterId d) (recipientId d) (status d)
             (createdAt d) now :: c'
      else r :: save now d c'
  end.

(** The document [save] leaves in the store. *)
Definition touch (now : Z) (d : ConnectionRequest) : ConnectionRequest :=
  mkRequest (_id d) (requesterId d) (recipientId d) (status d) (createdAt d) now.

(** At most one pending request is stored for every unordered pair. *)
Definition pendingUnique (c : Collection) : Prop :=
  forall a b, (length (List.filter (pairQuery a b PENDING) c) <= 1)%nat.

(** What the partial unique index of the schema guarantees: no two stored
    pending requests have the same requester and the same recipient. *)
Definition indexHolds (c : Collection) : Prop :=
  forall i j r1 r2, c !! i = Some r1 -> c !! j = Some r2 -> i <> j ->
    indexClash r1 r2 = false.

(** *** [sendRequest] *)

Record SendCall : Type := mkSend {
  callRequester : string;
  callRecipient : string;
  callNewId : ObjectId;     (* the [_id] the driver generates *)
  callNow : Z               (* the clock when the document is written *)
}.

Definition pendingDocument (k : SendCall) : ConnectionRequest :=
  mkRequest (callNewId k) (newObjectId (callRequester k))
            (newObjectId (callRecipient k)) PENDING (callNow k) (callNow k).

Definition sendRequest (k : SendCall) (c : Collection)
    : (HttpException + ObjectId) * Collection :=
  let requesterId := callRequester k in
  let recipientId := callRecipient k in
  if negb (isValid requesterId) || negb (isValid recipientId)
  then (inl (BadRequestException "Invalid userId"), c)
  else if String.eqb requesterId recipientId
  then (inl (BadRequestException "Cannot send request to yourself"), c)
  else
    let requesterObjectId := newObjectId requesterId in
    let recipientObjectId := newObjectId recipientId in
    match findOne (pairQuery requesterObjectId recipientObjectId ACCEPTED) c with
    | Some _ => (inl (BadRequestException "Already connected"), c)
    | None =>
        match findOne (pairQuery requesterObjectId recipientObjectId PENDING) c with
        | Some pendingRequest =>
            if String.eqb (toHexString (ConnReq.requesterId pendingRequest)) requesterId
            then (inl (BadRequestException "Request already sent"), c)
            else (inl (BadRequestException
                    "You have a pending request from this user"), c)
        | None =>
            match create (pendingDocument k) c with
            | inr c' => (inr (callNewId k), c')
            | inl e =>
                (inl (BadRequestException
                   ("Failed to send request: " +:+ errorMessage e)), c)
            end
        end
    end.

(** *** [sendRequest], one storage round trip at a time

    The method awaits three storage calls ([findOne], [findOne],
    [create]); another request handler may run between any two of them.
    [SendPc] is the point a call has reached. *)

Inductive SendPc : Type :=
  | AtAccepted                               (* before [findOne] accepted *)
  | AtPending                                (* before [findOne] pending *)
  | AtCreate                                 (* before [create] *)
  | Finished (r : HttpException + ObjectId). (* returned or thrown *)

Definition sendStep (k : SendCall) (pc : SendPc) (c : Collection)
    : SendPc * Collection :=
  let requesterObjectId := newObjectId (callRequester k) in
  let recipientObjectId := newObjectId (callRecipient k) in
  match pc with
  | AtAccepted =>
      if negb (isValid (callRequester k)) || negb (isValid (callRecipient k))
      then (Finished (inl (BadRequestException "Invalid userId")), c)
      else if String.eqb (callRequester k) (callRecipient k)
      then (Finished (inl (BadRequestException "Cannot send request to yourself")), c)
      else match findOne (pairQuery requesterObjectId recipientObjectId ACCEPTED) c with
           | Some _ => (Finished (inl (BadRequestException "Already connected")), c)
           | None => (AtPending, c)
           end
  | AtPending =>
      match findOne (pairQuery requesterObjectId recipientObjectId PENDING) c with
      | Some pendingRequest =>
          if String.eqb (toHexString (requesterId pendingRequest)) (callRequester k)
          then (Finished (inl (BadRequestException "Request already sent")), c)
          else (Finished (inl (BadRequestException
                  "You have a pending request from this user")), c)
      | None => (AtCreate, c)
      end
  | AtCreate =>
      match create (pendingDocument k) c with
      | inr c' => (Finished (inr (callNewId k)), c')
      | inl e =>
          (Finished (inl (BadRequestException
             ("Failed to send request: " +:+ errorMessage e))), c)
      end
  | Finished r => (Finished r, c)
  end.

(** Request handlers in flight, and a schedule naming which handler
    performs its next storage call. *)
Definition Pool : Type := list (SendCall * SendPc).

Definition schedStep (i : nat) (st : Pool * Collection) : Pool * Collection :=
  let '(pool, c) := st in
  match pool !! i with
  | Some (k, pc) =>
      let '(pc', c') := sendStep k pc c in (<[i := (k, pc')]> pool, c')
  | None => st
  end.

Definition runSchedule (sched : list nat) (st : Pool * Collection)
    : Pool * Collection :=
  fold_left (fun s i => schedStep i s) sched st.

Definition spawn (calls : list SendCall) : Pool :=
  List.map (fun k => (k, AtAccepted)) calls.

(** *** [acceptRequest] / [rejectRequest] *)

Definition acceptRequest (now : Z) (userId requestId : string) (c : Collection)
    : (HttpException + ObjectId) * Collection :=
  if negb (isValid userId) || negb (isValid requestId)
  then (inl (BadRequestException "Invalid userId or requestId"), c)
  else
    match findById (newObjectId requestId) c with
    | None => (inl (NotFoundException "Request not found"), c)
    | Some request =>
        if negb (String.eqb (toHexString (recipientId request)) userId)
        then (inl (BadRequestException "You are not the recipient of this request"), c)
        else if negb (status_eqb (status request) PENDING)
        then (inl (BadRequestException
                ("Request is already " +:+ statusString (status request))), c)
        else
          (inr (_id request),
           save now (mkRequest (_id request) (requesterId request)
                       (recipientId request) ACCEPTED (createdAt request)
                       (updatedAt request)) c)
    end.

Definition rejectRequest (now : Z) (userId requestId : string) (c : Collection)
    : (HttpException + ObjectId) * Collection :=
  if negb (isValid userId) || negb (isValid requestId)
  then (inl (BadRequestException "Invalid userId or requestId"), c)
  else
    match findById (newObjectId requestId) c with
    | None => (inl (NotFoundException "Request not found"), c)
    | Some request =>
        if negb (String.eqb (toHexString (recipientId request)) userId)
        then (inl (BadRequestException "You are not the recipient of this request"), c)
        else if negb (status_eqb (status request) PENDING)
        then (inl (BadRequestException
                ("Request is already " +:+ statusString (status request))), c)
        else
          (inr (_id request),
           save now (mkRequest (_id request) (requesterId request)
                       (recipientId request) REJECTED (createdAt request)
                       (updatedAt request)) c)
    end.

(** The two decisions of the recipient, [PUT accept/:requestId] and
    [PUT reject/:requestId]. *)
Inductive Decision : Type := accept | reject.

Definition respond (d : Decision) :=
  match d with accept => acceptRequest | reject => rejectRequest end.

Definition decided (d : Decision) : ConnectionRequestStatus :=
  match d with accept => ACCEPTED | reject => REJECTED end.

(** *** [areConnected] *)

Definition areConnected (userId1 userId2 : string) (c : Collection) : bool :=
  if negb (isValid userId1) || negb (isValid userId2) then false
  else
    match findOne (pairQuery (newObjectId userId1) (newObjectId userId2) ACCEPTED) c with
    | Some _ => true
    | None => false
    end.

End ConnReq.

(** ** Message log: [MessageService] *)

Module Msg.

Record Message : Type := mkMessage {
  _id : ObjectId;
  senderId : ObjectId;
  receiverId : ObjectId;
  content : string;
  hasFile : bool;
  fileKey : option string;
  fileUrl : option string;
  fileName : option string;
  fileType : option string;
  fileSize : option Z;
  isFileUploaded : bool;
  isRead : bool;
  readAt : option Z;
  createdAt : Z;
  updatedAt : Z
}.

Definition Collection : Type := list Message.

Record FileData : Type := mkFileData {
  fdFileKey : string;
  fdFileName : string;
  fdContentType : string;
  fdSize : Z
}.

Definition isSome {A} (o : option A) : bool :=
  match o with Some _ => true | None => false end.

(** [Model.create]: the schema requires [content], and Mongoose's
    [required] validator rejects the empty string; [_id] is unique. *)
Definition create (d : Message) (c : Collection) : StorageError + Collection :=
  if String.eqb (content d) ""
  then inl (MongoError
         "Message validation failed: content: Path `content` is required.")
  else if existsb (fun m => oid_eqb (_id m) (_id d)) c then inl duplicateKey
  else inr (c ++ [d]).

Record SentMessage : Type := mkSent {
  sentMessageId : ObjectId;
  sentSenderId : string;
  sentReceiverId : string;
  sentContent : string;
  sentHasFile : bool;
  sentFileKey : option string;
  sentFileName : option string;
  sentFileType : option string;
  sentFileSize : option Z;
  sentCreatedAt : Z
}.

Definition sendMessage (conns : ConnReq.Collection) (newId : ObjectId) (now : Z)
    (senderId receiverId content : string) (fileData : option FileData)
    (c : Collection) : (HttpException + SentMessage) * Collection :=
  if negb (isValid senderId) || negb (isValid receiverId)
  then (inl (BadRequestException "Invalid userId"), c)
  else if String.eqb senderId receiverId
  then (inl (BadRequestException "Cannot send message to yourself"), c)
  else
    let areConnected := ConnReq.areConnected senderId receiverId conns in
    if negb areConnected
    then (inl (BadRequestException "Users must be connected to send messages"), c)
    else
      let senderObjectId := newObjectId senderId in
      let receiverObjectId := newObjectId receiverId in
      let message :=
        mkMessage newId senderObjectId receiverObjectId content
          (isSome fileData)
          (option_map fdFileKey fileData)
          None
          (option_map fdFileName fileData)
          (option_map fdContentType fileData)
          (option_map fdSize fileData)
          false false None now now in
      match create message c with
      | inr c' =>
          (inr (mkSent newId senderId receiverId content (isSome fileData)
                  (option_map fdFileKey fileData)
                  (option_map fdFileName fileData)
                  (option_map fdContentType fileData)
                  (option_map fdSize fileData) now), c')
      | inl e =>
          (inl (BadRequestException
             ("Failed to send message: " +:+ errorMessage e)), c)
      end.

(** *** [getMessages] *)

Inductive Direction : Type := before | after.

Definition findById (id : ObjectId) (c : Collection) : option Message :=
  List.find (fun m => oid_eqb (_id m) id) c.

(** [{ $or: [{senderId: u, receiverId: o}, {senderId: o, receiverId: u}] }] *)
Definition baseQuery (u o : ObjectId) (m : Message) : bool :=
  (oid_eqb (senderId m) u && oid_eqb (receiverId m) o)
  || (oid_eqb (senderId m) o && oid_eqb (receiverId m) u).

(** The [createdAt] condition the cursor adds to the query. *)
Definition cursorQuery (direction : Direction) (cursorCreatedAt : option Z)
    (m : Message) : bool :=
  match cursorCreatedAt with
  | None => true
  | Some t =>
      match direction with
      | before => createdAt m <? t
      | after => t <? createdAt m
      end
  end.

(** [.sort({ createdAt: -1 })] and [.sort({ createdAt: 1 })].  MongoDB
    leaves the order of equal keys open; here documents with equal keys
    stay in collection order. *)
Definition precedes (direction : Direction) (x y : Message) : bool :=
  match direction with
  | before => createdAt y <? createdAt x
  | after => createdAt x <? createdAt y
  end.

Fixpoint insertSorted (direction : Direction) (x : Message) (l : list Message)
    : list Message :=
  match l with
  | [] => [x]
  | y :: l' =>
      if precedes direction y x then y :: insertSorted direction x l'
      else x :: y :: l'
  end.

Definition sort (direction : Direction) (l : list Message) : list Message :=
  List.fold_right (insertSorted direction) [] l.

(** [updateMany({ _id: { $in: ids } }, { isRead: true, readAt: now })] *)
Definition markRead (now : Z) (m : Message) : Message :=
  mkMessage (_id m) (senderId m) (receiverId m) (content m) (hasFile m)
    (fileKey m) (fileUrl m) (fileName m) (fileType m) (fileSize m)
    (isFileUploaded m) true (Some now) (createdAt m) now.

Definition updateManyRead (ids : list ObjectId) (now : Z) (c : Collection)
    : Collection :=
  List.map (fun m =>
    if existsb (oid_eqb (_id m)) ids then markRead now m else m) c.

Record MessageView : Type := mkView {
  v_id : ObjectId;
  vSenderId : string;
  vReceiverId : string;
  vContent : string;
  vHasFile : bool;
  vFileKey : option string;
  vFileUrl : option string;
  vFileName : option string;
  vFileType : option string;
  vFileSize : option Z;
  vIsFileUploaded : bool;
  vIsRead : bool;
  vReadAt : option Z;
  vCreatedAt : Z
}.

Definition formatMessage (userId : string) (msg : Message) : MessageView :=
  mkView (_id msg) (toHexString (senderId msg)) (toHexString (receiverId msg))
    (content msg) (hasFile msg || false) (fileKey msg) (fileUrl msg)
    (fileName msg) (fileType msg) (fileSize msg) (isFileUploaded msg || false)
    (if String.eqb (toHexString (receiverId msg)) userId then isRead msg else true)
    (readAt msg) (createdAt msg).

Record Page : Type := mkPage {
  messages : list MessageView;
  nextCursor : option ObjectId;
  hasMore : bool;
  pageDirection : Direction
}.

(** A JavaScript string is truthy unless it is empty. *)
Definition truthy (cursor : option string) : option string :=
  match cursor with
  | Some s => if String.eqb s "" then None else Some s
  | None => None
  end.

(** [callTime] is the clock when the call starts and [elapsed] the time
    that has passed when [new Date()] is evaluated for [readAt]. *)
Definition getMessages (conns : ConnReq.Collection) (callTime : Z) (elapsed : N)
    (userId otherUserId : string) (cursor : option string) (limit : Z)
    (direction : Direction) (c : Collection)
    : (HttpException + Page) * Collection :=
  if negb (isValid userId) || negb (isValid otherUserId)
  then (inl (BadRequestException "Invalid userId"), c)
  else if (limit <? 1) || (100 <? limit)
  then (inl (BadRequestException "Limit must be between 1 and 100"), c)
  else if negb (ConnReq.areConnected userId otherUserId conns)
  then (inl (BadRequestException "Users must be connected to view messages"), c)
  else
    let userIdObjectId := newObjectId userId in
    let otherUserIdObjectId := newObjectId otherUserId in
    let resolved : HttpException + option Z :=
      match truthy cursor with
      | None => inr None
      | Some cur =>
          if negb (isValid cur) then inl (BadRequestException "Invalid cursor")
          else
            match findById (newObjectId cur) c with
            | None => inl (BadRequestException "Cursor message not found")
            | Some cursorMessage => inr (Some (createdAt cursorMessage))
            end
      end in
    match resolved with
    | inl e => (inl e, c)
    | inr cursorCreatedAt =>
        let found :=
          take (Z.to_nat (limit + 1))
            (sort direction
               (List.filter (fun m => baseQuery userIdObjectId otherUserIdObjectId m
                                      && cursorQuery direction cursorCreatedAt m) c)) in
        let hasMore := (limit <? Z.of_nat (length found)) in
        let messagesToReturn :=
          if hasMore then take (Z.to_nat limit) found else found in
        let sortedMessages :=
          match direction with
          | before => rev messagesToReturn
          | after => messagesToReturn
          end in
        let unreadMessageIds :=
          List.map _id
            (List.filter (fun msg =>
               String.eqb (toHexString (receiverId msg)) userId && negb (isRead msg))
               sortedMessages) in
        let c' :=
          if (0 <? length unreadMessageIds)%nat
          then updateManyRead unreadMessageIds (callTime + Z.of_N elapsed) c
          else c in
        let result := List.map (formatMessage userId) sortedMessages in
        let nextCursor :=
          match direction with
          | before => option_map v_id (head result)
          | after => option_map v_id (last result)
          end in
        (inr (mkPage result nextCursor hasMore direction), c')
    end.

(** The stages of [getMessages] by the names of its local variables. *)
Definition resolveCursor (cursor : option string) (c : Collection)
    : HttpException + option Z :=
  match truthy cursor with
  | None => inr None
  | Some cur =>
      if negb (isValid cur) then inl (BadRequestException "Invalid cursor")
      else
        match findById (newObjectId cur) c with
        | None => inl (BadRequestException "Cursor message not found")
        | Some cursorMessage => inr (Some (createdAt cursorMessage))
        end
  end.

Definition foundMessages (u o : ObjectId) (direction : Direction)
    (cursorCreatedAt : option Z) (limit : Z) (c : Collection) : list Message :=
  take (Z.to_nat (limit + 1))
    (sort direction
       (List.filter (fun m => baseQuery u o m
                              && cursorQuery direction cursorCreatedAt m) c)).

Definition sortedMessages (u o : ObjectId) (direction : Direction)
    (cursorCreatedAt : option Z) (limit : Z) (c : Collection) : list Message :=
  let found := foundMessages u o direction cursorCreatedAt limit c in
  let messagesToReturn :=
    if limit <? Z.of_nat (length found) then take (Z.to_nat limit) found
    else found in
  match direction with
  | before => rev messagesToReturn
  | after => messagesToReturn
  end.

Definition unreadMessageIds (userId : string) (shown : list Message)
    : list ObjectId :=
  List.map _id
    (List.filter (fun msg =>
       String.eqb (toHexString (receiverId msg)) userId && negb (isRead msg))
       shown).

Definition afterRead (userId : string) (shown : list Message) (now : Z)
    (c : Collection) : Collection :=
  if (0 <? length (unreadMessageIds userId shown))%nat
  then updateManyRead (unreadMessageIds userId shown) now c
  else c.

(** The messages of the pair, and what a well-formed log satisfies:
    [_id] is unique and prints as a canonical ObjectId string. *)
Definition pairMessages (userId otherUserId : string) (c : Collection)
    : list Message :=
  List.filter (baseQuery (newObjectId userId) (newObjectId otherUserId)) c.

Definition canonicalId (i : ObjectId) : Prop :=
  isValid (toHexString i) = true /\ newObjectId (toHexString i) = i.

Definition wellFormed (c : Collection) : Prop :=
  NoDup (List.map _id c) /\ Forall (fun m => canonicalId (_id m)) c.

(** Newest first, without and with ties excluded, and the order of a page
    as it is returned. *)
Definition newestFirst (l : list Message) : Prop :=
  StronglySorted (fun a b => createdAt b <= createdAt a) l.

Definition strictlyNewestFirst (l : list Message) : Prop :=
  StronglySorted (fun a b => createdAt b < createdAt a) l.

Definition chronological (p : list MessageView) : Prop :=
  StronglySorted (fun a b => vCreatedAt a < vCreatedAt b) p.

(** The conversation of the pair as the query sorts it, newest first. *)
Definition conversation (userId otherUserId : string) (c : Collection)
    : list Message :=
  sort before (pairMessages userId otherUserId c).

(** An update that leaves identity, endpoints and timestamp alone. *)
Definition keepsKey (g : Message -> Message) : Prop :=
  forall m, _id (g m) = _id m /\ createdAt (g m) = createdAt m
            /\ senderId (g m) = senderId m /\ receiverId (g m) = receiverId m.

(** Where a paging client stands: the messages [P] have been shown and
    the cursor is the last of them, or nothing has been shown yet. *)
Definition standsAt (cursor : option string) (P : list Message) : Prop :=
  (cursor = None /\ P = [])
  \/ (exists P' x, P = P' ++ [x] /\ cursor = Some (toHexString (_id x))).

(** A client that pages backwards: first call without a cursor, then the
    returned [nextCursor] each time, until a page comes back without
    one.  The pages are collected in the order they were fetched. *)
Fixpoint fetchAll (fuel : nat) (conns : ConnReq.Collection) (callTime : Z)
    (elapsed : N) (userId otherUserId : string) (cursor : option string)
    (limit : Z) (c : Collection) : option (list (list MessageView)) :=
  match fuel with
  | O => None
  | S fuel' =>
      match getMessages conns callTime elapsed userId otherUserId cursor limit
              before c with
      | (inl _, _) => None
      | (inr page, c') =>
          match nextCursor page with
          | None => Some [messages page]
          | Some next =>
              option_map (cons (messages page))
                (fetchAll fuel' conns callTime elapsed userId otherUserId
                   (Some (toHexString next)) limit c')
          end
      end
  end.

End Msg.

(** ** Task consumers: [FileUploadConsumer] and [NotificationConsumer] *)

Module Queue.

(** The message properties the consumers read and write: the
    [persistent] flag and the [headers] table. *)
Record Properties : Type := mkProperties {
  persistent : bool;
  headers : gmap string Z
}.

Record ConsumeMessage : Type := mkConsumeMessage {
  content : list Byte.byte;
  properties : Properties
}.

(** The broker as the consumer sees it: the named queues, the
    [setTimeout] callbacks not yet run (delay in milliseconds, target
    queue, message to publish) and the number of [processMessage] calls
    made so far. *)
Record Broker : Type := mkBroker {
  queues : gmap string (list ConsumeMessage);
  timers : list (Z * string * ConsumeMessage);
  attempts : nat
}.

Definition queueOf (name : string) (b : Broker) : list ConsumeMessage :=
  default [] (queues b !! name).

(** [channel.publish('', queue, content, options)] and
    [channel.sendToQueue(queue, content, options)] *)
Definition publish (queue : string) (m : ConsumeMessage) (b : Broker) : Broker :=
  mkBroker (<[queue := queueOf queue b ++ [m]]> (queues b)) (timers b) (attempts b).

Definition setTimeout (delay : Z) (queue : string) (m : ConsumeMessage)
    (b : Broker) : Broker :=
  mkBroker (queues b) (timers b ++ [(delay, queue, m)]) (attempts b).

Definition maxRetries : Z := 3.

(** [(msg.properties.headers?.['x-retry-count'] || 0)] *)
Definition retryCountOf (msg : ConsumeMessage) : Z :=
  default 0 (headers (properties msg) !! "x-retry-count").

Section Consumer.

Variable queue : string.
Variable dlq : string.

(** The callback given to [channel.consume]: [processed] tells whether
    [processMessage] returned ([true]) or threw ([false]).  The message
    handed to the callback has already left the queue; [channel.ack]
    settles it. *)
Definition onMessage (processed : bool) (msg : ConsumeMessage) (b : Broker)
    : Broker :=
  let b := mkBroker (queues b) (timers b) (S (attempts b)) in
  if processed then b
  else
    let retryCount := retryCountOf msg in
    if retryCount <? maxRetries then
      let retryDelay := 2 ^ retryCount * 1000 in
      setTimeout retryDelay queue
        (mkConsumeMessage (content msg)
           (mkProperties (persistent (properties msg))
              (<["x-retry-count" := retryCount + 1]> (headers (properties msg)))))
        b
    else
      publish dlq
        (mkConsumeMessage (content msg) (mkProperties true ∅)) b.

(** Every pending [setTimeout] callback runs and publishes its message. *)
Definition fireTimers (b : Broker) : Broker :=
  List.fold_left (fun acc t => let '(_, q, m) := t in publish q m acc)
    (timers b) (mkBroker (queues b) [] (attempts b)).

(** The consumer loop with prefetch 1: the head of the queue is delivered
    and handled; [outcomes] lists, delivery after delivery, whether
    [processMessage] succeeds.  The loop stops when the queue stays empty
    after the timers have run. *)
Fixpoint consume (outcomes : list bool) (b : Broker) : Broker :=
  match outcomes with
  | [] => b
  | processed :: outcomes' =>
      let b := fireTimers b in
      match queueOf queue b with
      | [] => b
      | msg :: rest =>
          consume outcomes'
            (onMessage processed msg
               (mkBroker (<[queue := rest]> (queues b)) (timers b) (attempts b)))
      end
  end.

End Consumer.

Definition fileUploadQueue : string := "chat.file.upload".
Definition fileUploadDlq : string := "chat.file.upload.dlq".
Definition notificationQueue : string := "chat.notification.send".
Definition notificationDlq : string := "chat.notification.send.dlq".

Inductive Consumer : Type := FileUploadConsumer | NotificationConsumer.

Definition queueName (k : Consumer) : string :=
  match k with
  | FileUploadConsumer => fileUploadQueue
  | NotificationConsumer => notificationQueue
  end.

Definition dlqName (k : Consumer) : string :=
  match k with
  | FileUploadConsumer => fileUploadDlq
  | NotificationConsumer => notificationDlq
  end.

Definition startConsuming (k : Consumer) (outcomes : list bool) (b : Broker)
    : Broker :=
  consume (queueName k) (dlqName k) outcomes b.

(** [RabbitMQService.publishFileUpload] / [publishNotification]:
    [sendToQueue(queue, buffer, { persistent: true })] on a broker whose
    four queues [setupQueues] has declared. *)
Definition declared : Broker :=
  mkBroker (<[fileUploadQueue := []]> (<[notificationQueue := []]>
             (<[fileUploadDlq := []]> (<[notificationDlq := []]> ∅)))) [] 0.

Definition publishTask (k : Consumer) (payload : list Byte.byte) (b : Broker)
    : Broker :=
  publish (queueName k) (mkConsumeMessage payload (mkProperties true ∅)) b.

End Queue.

(** ** Eligibility engine and deep connections: [TrailConnectionService] *)

Module Trail.

Record AlbumFavorite : Type := mkFavorite {
  favUserId : ObjectId;
  favAlbumId : ObjectId
}.

Record Album : Type := mkAlbum {
  album_id : ObjectId;
  albumTitle : string;
  albumCoverImage : option string;
  albumUserId : ObjectId;
  albumIsDeleted : bool;
  albumIsPublic : bool       (* read by [ReflectionService] only *)
}.

Record Media : Type := mkMedia {
  media_id : ObjectId;
  mediaAlbumId : ObjectId;
  mediaIsDeleted : bool
}.

(** [MediaReflection], the model [getMediaReflectionsByUser] queries.  Its
    schema has no anonymity field. *)
Record MediaReflection : Type := mkMediaReflection {
  reflection_id : ObjectId;
  mediaId : ObjectId;
  userId : ObjectId;
  reflectionTypeId : ObjectId;
  reflectionLabel : string;
  reflectionEmoji : option string
}.

Record TrailConnection : Type := mkConnection {
  _id : ObjectId;
  userA : ObjectId;
  userB : ObjectId;
  mutualAlbumIds : list ObjectId;
  reflectionCount : Z;
  isActive : bool;
  createdAt : Z;
  updatedAt : Z
}.

Record DB : Type := mkDB {
  favorites : list AlbumFavorite;
  albums : list Album;
  media : list Media;
  mediaReflections : list MediaReflection;
  connections : list TrailConnection
}.

(** [{ $in: ids }] *)
Definition inIds (ids : list ObjectId) (x : ObjectId) : bool :=
  existsb (oid_eqb x) ids.

Definition normalizeUserIds (userId1 userId2 : string) : ObjectId * ObjectId :=
  let id1 := newObjectId userId1 in
  let id2 := newObjectId userId2 in
  let id1Str := toHexString id1 in
  let id2Str := toHexString id2 in
  if String.ltb id1Str id2Str then (id1, id2) else (id2, id1).

Definition getMediaReflectionsByUser (db : DB) (userId_ targetUserId : string)
    : list MediaReflection :=
  if negb (isValid userId_) || negb (isValid targetUserId) then []
  else
    let userIdObjectId := newObjectId userId_ in
    let targetUserIdObjectId := newObjectId targetUserId in
    let targetAlbums :=
      List.filter (fun a => oid_eqb (albumUserId a) targetUserIdObjectId)
        (albums db) in
    let targetAlbumIds := List.map album_id targetAlbums in
    if Nat.eqb (length targetAlbumIds) 0 then []
    else
      let targetMedia :=
        List.filter (fun m => inIds targetAlbumIds (mediaAlbumId m)
                              && negb (mediaIsDeleted m)) (media db) in
      let targetMediaIds := List.map media_id targetMedia in
      if Nat.eqb (length targetMediaIds) 0 then []
      else
        List.filter (fun r => oid_eqb (userId r) userIdObjectId
                              && inIds targetMediaIds (mediaId r))
          (mediaReflections db).

Record AlbumSummary : Type := mkSummary {
  summary_id : ObjectId;
  summaryTitle : string;
  summaryCoverImage : option string
}.

Definition summarize (a : Album) : AlbumSummary :=
  mkSummary (album_id a) (albumTitle a) (albumCoverImage a).

Record Eligibility : Type := mkEligibility {
  eligible : bool;
  mutualAlbums : list AlbumSummary;
  eligReflectionCount : Z;
  reasons : list string
}.

Definition checkConnectionEligibility (db : DB) (userId1 userId2 : string)
    : HttpException + Eligibility :=
  if negb (isValid userId1) || negb (isValid userId2)
  then inl (BadRequestException "Invalid userId")
  else if String.eqb userId1 userId2
  then inr (mkEligibility false [] 0 ["Cannot connect with yourself"])
  else
    let userId1ObjectId := newObjectId userId1 in
    let userId2ObjectId := newObjectId userId2 in
    let user1Favorites :=
      List.filter (fun f => oid_eqb (favUserId f) userId1ObjectId) (favorites db) in
    let user1FavoriteAlbumIds := List.map favAlbumId user1Favorites in
    if Nat.eqb (length user1FavoriteAlbumIds) 0
    then inr (mkEligibility false [] 0 ["No mutual album favorites"])
    else
      let user2Favorites :=
        List.filter (fun f => oid_eqb (favUserId f) userId2ObjectId
                              && inIds user1FavoriteAlbumIds (favAlbumId f))
          (favorites db) in
      let mutualFavoriteAlbumIds := List.map favAlbumId user2Favorites in
      if Nat.eqb (length mutualFavoriteAlbumIds) 0
      then inr (mkEligibility false [] 0 ["No mutual album favorites"])
      else
        let mutualAlbums :=
          List.filter (fun a => inIds mutualFavoriteAlbumIds (album_id a)
                                && negb (albumIsDeleted a)) (albums db) in
        let user1OwnedAlbums :=
          List.filter (fun a => String.eqb (toHexString (albumUserId a)) userId1)
            mutualAlbums in
        let user2OwnedAlbums :=
          List.filter (fun a => String.eqb (toHexString (albumUserId a)) userId2)
            mutualAlbums in
        if Nat.eqb (length user1OwnedAlbums) 0 || Nat.eqb (length user2OwnedAlbums) 0
        then inr (mkEligibility false (List.map summarize mutualAlbums) 0
                    ["No mutual album favorites (both directions required)"])
        else
          let user1ReflectionsOnUser2 := getMediaReflectionsByUser db userId1 userId2 in
          let user2ReflectionsOnUser1 := getMediaReflectionsByUser db userId2 userId1 in
          let totalBidirectionalReflections :=
            Z.of_nat (length user1ReflectionsOnUser2)
            + Z.of_nat (length user2ReflectionsOnUser1) in
          if Nat.eqb (length user1ReflectionsOnUser2) 0
             || Nat.eqb (length user2ReflectionsOnUser1) 0
          then inr (mkEligibility false (List.map summarize mutualAlbums)
                      totalBidirectionalReflections
                      ["No bidirectional reflections found (both users must reflect on each other's media)"])
          else inr (mkEligibility true (List.map summarize mutualAlbums)
                      totalBidirectionalReflections []).

(** The [pre('save')] hook of [TrailConnectionSchema]. *)
Definition preSave (d : TrailConnection) : TrailConnection :=
  if String.ltb (toHexString (userB d)) (toHexString (userA d))
  then mkConnection (_id d) (userB d) (userA d) (mutualAlbumIds d)
         (reflectionCount d) (isActive d) (createdAt d) (updatedAt d)
  else d.

(** [Model.create]: the save hook runs, then the unique indexes on [_id]
    and on [{ userA: 1, userB: 1 }] are enforced. *)
Definition create (d : TrailConnection) (c : list TrailConnection)
    : StorageError + list TrailConnection :=
  let d := preSave d in
  if existsb (fun r => oid_eqb (_id r) (_id d)) c then inl duplicateKey
  else if existsb (fun r => oid_eqb (userA r) (userA d)
                            && oid_eqb (userB r) (userB d)) c
  then inl duplicateKey
  else inr (c ++ [d]).

Definition withConnections (db : DB) (c : list TrailConnection) : DB :=
  mkDB (favorites db) (albums db) (media db) (mediaReflections db) c.

(** [updateOne(filter, fields)]: the first document the filter matches is
    rewritten by [f] and its [updatedAt] refreshed. *)
Fixpoint updateOne (q : TrailConnection -> bool) (now : Z)
    (f : TrailConnection -> TrailConnection) (c : list TrailConnection)
    : list TrailConnection :=
  match c with
  | [] => []
  | r :: c' =>
      if q r
      then let r' := f r in
           mkConnection (_id r') (userA r') (userB r') (mutualAlbumIds r')
             (reflectionCount r') (isActive r') (createdAt r') now :: c'
      else r :: updateOne q now f c'
  end.

Definition matchedCount (q : TrailConnection -> bool) (c : list TrailConnection)
    : Z :=
  if existsb q c then 1 else 0.

Definition byId (id : ObjectId) (r : TrailConnection) : bool := oid_eqb (_id r) id.

Definition byPair (a b : ObjectId) (r : TrailConnection) : bool :=
  oid_eqb (userA r) a && oid_eqb (userB r) b.

Definition setEligibility (active : option bool) (e : Eligibility)
    (r : TrailConnection) : TrailConnection :=
  mkConnection (_id r) (userA r) (userB r)
    (List.map summary_id (mutualAlbums e)) (eligReflectionCount e)
    (default (isActive r) active) (createdAt r) (updatedAt r).

Definition setActive (active : bool) (r : TrailConnection) : TrailConnection :=
  mkConnection (_id r) (userA r) (userB r) (mutualAlbumIds r)
    (reflectionCount r) active (createdAt r) (updatedAt r).

Definition findOne (q : TrailConnection -> bool) (c : list TrailConnection)
    : option TrailConnection := List.find q c.

Record Created : Type := mkCreated {
  connected : bool;
  createdMessage : string;
  connectionId : option ObjectId
}.

Definition joinReasons (l : list string) : string := String.concat ", " l.

Definition createConnection (newId : ObjectId) (now : Z)
    (userId1 userId2 : string) (db : DB) : (HttpException + Created) * DB :=
  if negb (isValid userId1) || negb (isValid userId2)
  then (inl (BadRequestException "Invalid userId"), db)
  else if String.eqb userId1 userId2
  then (inl (BadRequestException "Cannot connect with yourself"), db)
  else
    match checkConnectionEligibility db userId1 userId2 with
    | inl e => (inl e, db)
    | inr eligibility =>
        if negb (eligible eligibility)
        then (inl (BadRequestException
                ("Connection not eligible: " +:+ joinReasons (reasons eligibility))),
              db)
        else
          let '(userA_, userB_) := normalizeUserIds userId1 userId2 in
          match findOne (byPair userA_ userB_) (connections db) with
          | Some existing =>
              if isActive existing
              then (inr (mkCreated true "Already connected" None), db)
              else
                (inr (mkCreated true "Connection reactivated" None),
                 withConnections db
                   (updateOne (byId (_id existing)) now
                      (setEligibility (Some true) eligibility) (connections db)))
          | None =>
              match create (mkConnection newId userA_ userB_
                              (List.map summary_id (mutualAlbums eligibility))
                              (eligReflectionCount eligibility) true now now)
                      (connections db) with
              | inr c' =>
                  (inr (mkCreated true "Connection created" (Some newId)),
                   withConnections db c')
              | inl e =>
                  (inl (BadRequestException
                     ("Failed to create connection: " +:+ errorMessage e)), db)
              end
          end
    end.

Record Removed : Type := mkRemoved { removed : bool; removedMessage : string }.

Definition removeConnection (now : Z) (userId1 userId2 : string) (db : DB)
    : (HttpException + Removed) * DB :=
  if negb (isValid userId1) || negb (isValid userId2)
  then (inl (BadRequestException "Invalid userId"), db)
  else
    let '(userA_, userB_) := normalizeUserIds userId1 userId2 in
    if matchedCount (byPair userA_ userB_) (connections db) =? 0
    then (inl (NotFoundException "Connection not found"), db)
    else
      (inr (mkRemoved true "Connection removed"),
       withConnections db
         (updateOne (byPair userA_ userB_) now (setActive false) (connections db))).

Record Updated : Type := mkUpdated {
  updated : bool;
  updatedMessage : option string;
  updatedError : option string
}.

(** [new Types.ObjectId] throws on a malformed id and
    [checkConnectionEligibility] on an invalid one; the method's [catch]
    turns either into [{ updated: false, error }]. *)
Definition updateConnectionEligibility (now : Z) (userId1 userId2 : string)
    (db : DB) : Updated * DB :=
  if negb (isValid userId1) || negb (isValid userId2)
  then (mkUpdated false None
          (Some "input must be a 24 character hex string, 12 byte Uint8Array, or an integer"),
        db)
  else
    let '(userA_, userB_) := normalizeUserIds userId1 userId2 in
    match findOne (fun r => byPair userA_ userB_ r && isActive r)
            (connections db) with
    | None => (mkUpdated false (Some "No active connection found") None, db)
    | Some connection =>
        match checkConnectionEligibility db userId1 userId2 with
        | inl _ => (mkUpdated false None (Some "Invalid userId"), db)
        | inr eligibility =>
            let c1 := updateOne (byId (_id connection)) now
                        (setEligibility None eligibility) (connections db) in
            if negb (eligible eligibility)
            then (mkUpdated true
                    (Some "Connection deactivated (no longer eligible)") None,
                  withConnections db
                    (updateOne (byId (_id connection)) now (setActive false) c1))
            else (mkUpdated true (Some "Connection updated") None,
                  withConnections db c1)
        end
    end.

(** *** The pair of a connection document *)

(** The favourite albums of a user and the albums both users favourited,
    as [checkConnectionEligibility] collects them. *)
Definition favoriteAlbumIds (db : DB) (u : ObjectId) : list ObjectId :=
  List.map favAlbumId
    (List.filter (fun f => oid_eqb (favUserId f) u) (favorites db)).

Definition mutualFavoriteAlbumIds (db : DB) (u1 u2 : ObjectId) : list ObjectId :=
  List.map favAlbumId
    (List.filter (fun f => oid_eqb (favUserId f) u2
                           && inIds (favoriteAlbumIds db u1) (favAlbumId f))
       (favorites db)).

(** [checkConnectionEligibility] from the point where the mutual albums
    have been fetched. *)
Definition verdict (db : DB) (userId1 userId2 : string) (mutualAlbums : list Album)
    : Eligibility :=
  let user1OwnedAlbums :=
    List.filter (fun a => String.eqb (toHexString (albumUserId a)) userId1)
      mutualAlbums in
  let user2OwnedAlbums :=
    List.filter (fun a => String.eqb (toHexString (albumUserId a)) userId2)
      mutualAlbums in
  if Nat.eqb (length user1OwnedAlbums) 0 || Nat.eqb (length user2OwnedAlbums) 0
  then mkEligibility false (List.map summarize mutualAlbums) 0
         ["No mutual album favorites (both directions required)"]
  else
    let user1ReflectionsOnUser2 := getMediaReflectionsByUser db userId1 userId2 in
    let user2ReflectionsOnUser1 := getMediaReflectionsByUser db userId2 userId1 in
    let totalBidirectionalReflections :=
      Z.of_nat (length user1ReflectionsOnUser2)
      + Z.of_nat (length user2ReflectionsOnUser1) in
    if Nat.eqb (length user1ReflectionsOnUser2) 0
       || Nat.eqb (length user2ReflectionsOnUser1) 0
    then mkEligibility false (List.map summarize mutualAlbums)
           totalBidirectionalReflections
           ["No bidirectional reflections found (both users must reflect on each other's media)"]
    else mkEligibility true (List.map summarize mutualAlbums)
           totalBidirectionalReflections [].

(** What identifies a connection document: its [_id] and its two users. *)
Definition skeleton (r : TrailConnection) : ObjectId * ObjectId * ObjectId :=
  (_id r, userA r, userB r).

(** The documents stored for the unordered pair {a, b}. *)
Definition pairDocs (a b : ObjectId) (c : list TrailConnection)
    : list TrailConnection :=
  List.filter (fun r => byPair a b r || byPair b a r) c.

(** What the save hook and the unique index on (userA, userB) maintain. *)
Definition ordered (r : TrailConnection) : Prop :=
  String.ltb (toHexString (userB r)) (toHexString (userA r)) = false.

Definition pairInvariant (c : list TrailConnection) : Prop :=
  Forall ordered c /\ NoDup (List.map (fun r => (userA r, userB r)) c).

(** The writes that reach the connection collection, and the edits other
    services make to favourites, albums, media and reflections. *)
Inductive Op : Type :=
  | Create (newId : ObjectId) (now : Z) (userId1 userId2 : string)
  | Reevaluate (now : Z) (userId1 userId2 : string)
  | Remove (now : Z) (userId1 userId2 : string)
  | EditEdges (f : list AlbumFavorite) (a : list Album) (m : list Media)
      (r : list MediaReflection).

Definition applyOp (op : Op) (db : DB) : DB :=
  match op with
  | Create newId now u1 u2 => snd (createConnection newId now u1 u2 db)
  | Reevaluate now u1 u2 => snd (updateConnectionEligibility now u1 u2 db)
  | Remove now u1 u2 => snd (removeConnection now u1 u2 db)
  | EditEdges f a m r => mkDB f a m r (connections db)
  end.

Definition runOps (ops : list Op) (db : DB) : DB :=
  List.fold_left (fun d op => applyOp op d) ops db.

End Trail.

(** ** Sample data used to exercise the definitions *)

Module Samples.

Definition alice : string := "aaaaaaaaaaaaaaaaaaaaaaaa".
Definition bob : string := "bbbbbbbbbbbbbbbbbbbbbbbb".
Definition carol : string := "cccccccccccccccccccccccc".

Definition id1 : ObjectId := Oid "000000000000000000000001".
Definition id2 : ObjectId := Oid "000000000000000000000002".
Definition id3 : ObjectId := Oid "000000000000000000000003".
Definition id4 : ObjectId := Oid "000000000000000000000004".

(** Alice has asked Bob; the request is pending. *)
Definition alicePending : ConnReq.Collection :=
  [ConnReq.mkRequest id1 (newObjectId alice) (newObjectId bob) ConnReq.PENDING 10 10].

(** Bob has accepted Alice's request. *)
Definition aliceAccepted : ConnReq.Collection :=
  [ConnReq.mkRequest id1 (newObjectId alice) (newObjectId bob) ConnReq.ACCEPTED 10 20].

(** Two handlers racing: Alice asks Bob while Bob asks Alice. *)
Definition aliceAsksBob : ConnReq.SendCall := ConnReq.mkSend alice bob id1 10.
Definition bobAsksAlice : ConnReq.SendCall := ConnReq.mkSend bob alice id2 11.
Definition aliceAsksBobAgain : ConnReq.SendCall := ConnReq.mkSend alice bob id2 11.

(** A short conversation: Alice wrote to Bob, Bob answered; nothing has
    been read yet. *)
Definition textMessage (id sender receiver : ObjectId) (text : string)
    (read : bool) (at_ : Z) : Msg.Message :=
  Msg.mkMessage id sender receiver text false None None None None None false
    read None at_ at_.

Definition sampleLog : Msg.Collection :=
  [textMessage id1 (newObjectId alice) (newObjectId bob) "hi" false 100;
   textMessage id2 (newObjectId bob) (newObjectId alice) "hello" false 200].

(** Two messages written in the same millisecond. *)
Definition sameInstantLog : Msg.Collection :=
  [textMessage id1 (newObjectId alice) (newObjectId bob) "one" false 100;
   textMessage id2 (newObjectId bob) (newObjectId alice) "two" false 100].

(** The bytes of the task payload [{}]. *)
Definition emptyTask : list Byte.byte := [Byte.x7b; Byte.x7d].

(** Bob owns an album he has since deleted; its one photo is not deleted
    and Alice has reflected on it. *)
Definition albumOfBob : ObjectId := Oid "0000000000000000000000a1".
Definition photoOfBob : ObjectId := Oid "0000000000000000000000b1".

Definition aliceReflection : Trail.MediaReflection :=
  Trail.mkMediaReflection id1 photoOfBob (newObjectId alice) id4 "moment" None.

Definition deletedAlbumDb : Trail.DB :=
  Trail.mkDB []
    [Trail.mkAlbum albumOfBob "Hills" None (newObjectId bob) true true]
    [Trail.mkMedia photoOfBob albumOfBob false]
    [aliceReflection]
    [].

(** Alice and Bob each own an album, each favourited the other's, and
    each reflected on a photo of the other. *)
Definition albumOfAlice : ObjectId := Oid "0000000000000000000000a2".
Definition photoOfAlice : ObjectId := Oid "0000000000000000000000b2".

Definition eligibleDb : Trail.DB :=
  Trail.mkDB
    [Trail.mkFavorite (newObjectId alice) albumOfBob;
     Trail.mkFavorite (newObjectId bob) albumOfAlice;
     Trail.mkFavorite (newObjectId alice) albumOfAlice;
     Trail.mkFavorite (newObjectId bob) albumOfBob]
    [Trail.mkAlbum albumOfBob "Hills" None (newObjectId bob) false true;
     Trail.mkAlbum albumOfAlice "Lakes" None (newObjectId alice) false true]
    [Trail.mkMedia photoOfBob albumOfBob false;
     Trail.mkMedia photoOfAlice albumOfAlice false]
    [aliceReflection;
     Trail.mkMediaReflection id2 photoOfAlice (newObjectId bob) id4 "story" None]
    [].

End Samples.

(** ** Relationship store: runs of calls *)

Module ConnReqRuns.
Import ConnReq.

(** The three writes of [ConnectionRequestService], each run to completion
    before the next starts. *)
Inductive Call : Type :=
  | CallSend (k : SendCall)
  | CallAccept (now : Z) (userId requestId : string)
  | CallReject (now : Z) (userId requestId : string).

Definition perform (call : Call) (c : Collection) : Collection :=
  match call with
  | CallSend k => snd (sendRequest k c)
  | CallAccept now userId requestId => snd (acceptRequest now userId requestId c)
  | CallReject now userId requestId => snd (rejectRequest now userId requestId c)
  end.

Definition performAll (calls : list Call) (c : Collection) : Collection :=
  List.fold_left (fun acc call => perform call acc) calls c.

(** Every stored user reference prints as a canonical ObjectId string. *)
Definition canonicalUsers (c : Collection) : Prop :=
  Forall (fun r => Msg.canonicalId (requesterId r)
                   /\ Msg.canonicalId (recipientId r)) c.

End ConnReqRuns.

(** ** Relationship store: the listings of [ConnectionRequestService] *)

Module ConnReqLists.
Import ConnReq.

(** The fields of [UserProfile] the listings select. *)
Record UserProfile : Type := mkProfile {
  profileUserId : ObjectId;
  fullName : option string;
  bio : option string;
  profilePicture : option string;
  location : option string
}.

(** The object the listings store in [profileMap] and return as [user]. *)
Record ProfileView : Type := mkProfileView {
  pvUserId : string;
  pvFullName : option string;
  pvBio : option string;
  pvProfilePicture : option string;
  pvLocation : option string
}.

(** [.sort({ updatedAt: -1 })] / [.sort({ createdAt: -1 })]; documents
    with equal keys stay in collection order. *)
Fixpoint insertNewest (key : ConnectionRequest -> Z) (x : ConnectionRequest)
    (l : list ConnectionRequest) : list ConnectionRequest :=
  match l with
  | [] => [x]
  | y :: l' =>
      if key x <? key y then y :: insertNewest key x l' else x :: y :: l'
  end.

Definition sortNewest (key : ConnectionRequest -> Z) (l : list ConnectionRequest)
    : list ConnectionRequest :=
  List.fold_right (insertNewest key) [] l.

(** [{ $or: [{ requesterId: u }, { recipientId: u }], status: s }] *)
Definition involves (u : ObjectId) (s : ConnectionRequestStatus)
    (r : ConnectionRequest) : bool :=
  (oid_eqb (requesterId r) u || oid_eqb (recipientId r) u)
  && status_eqb (status r) s.

(** [requesterStr === userId ? req.recipientId : req.requesterId] *)
Definition otherParty (userId : string) (r : ConnectionRequest) : ObjectId :=
  if String.eqb (toHexString (requesterId r)) userId
  then recipientId r else requesterId r.

(** The profile query: both [$in] lists are cast to ObjectIds by the
    schema type of [userId]. *)
Definition findProfiles (ids : list ObjectId) (profiles : list UserProfile)
    : list UserProfile :=
  let objectIds := List.map (fun id => newObjectId (toHexString id)) ids in
  let strings := List.map toHexString ids in
  List.filter (fun p =>
      existsb (oid_eqb (profileUserId p)) objectIds
      || existsb (oid_eqb (profileUserId p)) (List.map newObjectId strings))
    profiles.

(** [profileMap]: a later profile of the same key replaces an earlier one. *)
Definition buildProfileMap (userProfiles : list UserProfile)
    : gmap string ProfileView :=
  List.fold_left (fun m profile =>
      let profileUserIdStr := toHexString (profileUserId profile) in
      <[profileUserIdStr :=
          mkProfileView profileUserIdStr (fullName profile) (bio profile)
            (profilePicture profile) (location profile)]> m)
    userProfiles ∅.

Record Connected : Type := mkConnected {
  connRequestId : ObjectId;
  connUserId : string;
  connUser : option ProfileView;
  connectedAt : Z
}.

Definition getConnectedPeople (profiles : list UserProfile) (userId : string)
    (c : Collection) : HttpException + list Connected :=
  if negb (isValid userId) then inl (BadRequestException "Invalid userId")
  else
    let userIdObjectId := newObjectId userId in
    let connections :=
      sortNewest updatedAt (List.filter (involves userIdObjectId ACCEPTED) c) in
    let connectedUserIds := List.map (otherParty userId) connections in
    let profileMap := buildProfileMap (findProfiles connectedUserIds profiles) in
    inr (List.map (fun conn =>
           let otherUserIdStr := toHexString (otherParty userId conn) in
           mkConnected (_id conn) otherUserIdStr (profileMap !! otherUserIdStr)
             (updatedAt conn))
         connections).

Record Rejected : Type := mkRejected {
  rejRequestId : ObjectId;
  rejUserId : string;
  rejUser : option ProfileView;
  rejectedAt : Z;
  wasRequester : bool
}.

Definition getRejectedPeople (profiles : list UserProfile) (userId : string)
    (c : Collection) : HttpException + list Rejected :=
  if negb (isValid userId) then inl (BadRequestException "Invalid userId")
  else
    let userIdObjectId := newObjectId userId in
    let rejectedRequests :=
      sortNewest updatedAt (List.filter (involves userIdObjectId REJECTED) c) in
    let rejectedUserIds := List.map (otherParty userId) rejectedRequests in
    let profileMap := buildProfileMap (findProfiles rejectedUserIds profiles) in
    inr (List.map (fun req =>
           let otherUserIdStr := toHexString (otherParty userId req) in
           mkRejected (_id req) otherUserIdStr (profileMap !! otherUserIdStr)
             (updatedAt req)
             (String.eqb (toHexString (requesterId req)) userId))
         rejectedRequests).

Record Pending : Type := mkPending {
  pendRequestId : ObjectId;
  pendUserId : string;
  pendUser : option ProfileView;
  requestedAt : Z;
  isReceived : bool
}.

Definition getPendingRequests (profiles : list UserProfile) (userId : string)
    (c : Collection) : HttpException + list Pending :=
  if negb (isValid userId) then inl (BadRequestException "Invalid userId")
  else
    let userIdObjectId := newObjectId userId in
    let pendingRequests :=
      sortNewest createdAt (List.filter (involves userIdObjectId PENDING) c) in
    let otherUserIds := List.map (otherParty userId) pendingRequests in
    let profileMap := buildProfileMap (findProfiles otherUserIds profiles) in
    inr (List.map (fun req =>
           let otherUserIdStr := toHexString (otherParty userId req) in
           mkPending (_id req) otherUserIdStr (profileMap !! otherUserIdStr)
             (createdAt req)
             (String.eqb (toHexString (recipientId req)) userId))
         pendingRequests).

(** A user id as the token carries it: a canonical ObjectId string. *)
Definition canonicalString (s : string) : Prop :=
  isValid s = true /\ toHexString (newObjectId s) = s.

End ConnReqLists.

(** ** Message log: [getUnreadCount] and [getConversations] *)

Module MsgViews.
Import Msg ConnReqLists.

(** [countDocuments({ receiverId: userIdObjectId, isRead: false })] *)
Definition receivedUnread (u : ObjectId) (m : Message) : bool :=
  oid_eqb (receiverId m) u && negb (isRead m).

Definition getUnreadCount (userId : string) (c : Collection)
    : HttpException + nat :=
  if negb (isValid userId) then inl (BadRequestException "Invalid userId")
  else
    let userIdObjectId := newObjectId userId in
    inr (length (List.filter (receivedUnread userIdObjectId) c)).

Record LatestMessage : Type := mkLatest {
  latest_id : ObjectId;
  latestContent : string;
  latestSenderId : string;
  latestReceiverId : string;
  latestHasFile : bool;
  latestFileName : option string;
  latestFileType : option string;
  latestCreatedAt : Z
}.

Record ConversationView : Type := mkConversation {
  convUserId : string;
  convUser : option ProfileView;
  latestMessage : option LatestMessage;
  unreadCount : nat
}.

(** [Set.prototype.add]: a set keeps its members in insertion order. *)
Definition setAdd (s : string) (members : list string) : list string :=
  if existsb (String.eqb s) members then members else members ++ [s].

(** The id the [forEach] adds for one message. *)
Definition counterpart (userId : string) (msg : Message) : string :=
  let senderStr := toHexString (senderId msg) in
  let receiverStr := toHexString (receiverId msg) in
  if String.eqb senderStr userId then receiverStr else senderStr.

Definition collectOtherUserIds (userId : string) (found : list Message)
    : list string :=
  List.fold_left (fun otherUserIds msg => setAdd (counterpart userId msg) otherUserIds)
    found [].

(** [{ $or: [{ senderId: u }, { receiverId: u }] }] *)
Definition sentOrReceived (u : ObjectId) (m : Message) : bool :=
  oid_eqb (senderId m) u || oid_eqb (receiverId m) u.

(** The profile query over the collected id strings; the string list of
    the second [$in] is cast to ObjectIds by the schema type. *)
Definition findProfilesOf (otherUserIds : list string)
    (profiles : list UserProfile) : list UserProfile :=
  let otherUserObjectIds := List.map newObjectId otherUserIds in
  let otherUserStrings := otherUserIds in
  List.filter (fun p =>
      existsb (oid_eqb (profileUserId p)) otherUserObjectIds
      || existsb (oid_eqb (profileUserId p)) (List.map newObjectId otherUserStrings))
    profiles.

(** The filter that picks one conversation out of the user's messages. *)
Definition inConversation (userId otherUserId : string) (msg : Message) : bool :=
  (String.eqb (toHexString (senderId msg)) userId
   && String.eqb (toHexString (receiverId msg)) otherUserId)
  || (String.eqb (toHexString (senderId msg)) otherUserId
      && String.eqb (toHexString (receiverId msg)) userId).

Definition latestView (m : Message) : LatestMessage :=
  mkLatest (_id m) (content m) (toHexString (senderId m))
    (toHexString (receiverId m)) (hasFile m || false) (fileName m) (fileType m)
    (createdAt m).

(** The comparator of [conversations.sort]; [createdAt] is a [Date] and
    so never falsy. *)
Definition compareConversations (a b : ConversationView) : Z :=
  match latestMessage a with
  | None => 1
  | Some la =>
      match latestMessage b with
      | None => -1
      | Some lb => latestCreatedAt lb - latestCreatedAt la
      end
  end.

(** [Array.prototype.sort] is stable: an entry moves behind another only
    when the comparator puts it strictly after. *)
Fixpoint insertConversation (x : ConversationView) (l : list ConversationView)
    : list ConversationView :=
  match l with
  | [] => [x]
  | y :: l' =>
      if 0 <? compareConversations x y then y :: insertConversation x l'
      else x :: y :: l'
  end.

Definition sortConversations (l : list ConversationView) : list ConversationView :=
  List.fold_right insertConversation [] l.

Definition getConversations (profiles : list UserProfile) (userId : string)
    (c : Collection) : HttpException + list ConversationView :=
  if negb (isValid userId) then inl (BadRequestException "Invalid userId")
  else
    let userIdObjectId := newObjectId userId in
    let found := sort before (List.filter (sentOrReceived userIdObjectId) c) in
    let otherUserIds := collectOtherUserIds userId found in
    let profileMap := buildProfileMap (findProfilesOf otherUserIds profiles) in
    let conversations :=
      List.map (fun otherUserId =>
          let conversationMessages :=
            List.filter (inConversation userId otherUserId) found in
          let unreadCount :=
            length (List.filter (fun msg =>
                      String.eqb (toHexString (receiverId msg)) userId
                      && negb (isRead msg)) conversationMessages) in
          mkConversation otherUserId (profileMap !! otherUserId)
            (option_map latestView (head conversationMessages)) unreadCount)
        otherUserIds in
    inr (sortConversations conversations).

(** Most recent conversation first, by the time of the latest message. *)
Definition newestConversationFirst (l : list ConversationView) : Prop :=
  StronglySorted (fun a b =>
      match latestMessage a, latestMessage b with
      | Some la, Some lb => latestCreatedAt lb <= latestCreatedAt la
      | _, _ => False
      end) l.

End MsgViews.

(** ** Deep connections: [getConnectionDetails] and [getConnections] *)

Module TrailViews.
Import Trail.

Record ConnectionInfo : Type := mkInfo {
  info_id : ObjectId;
  infoMutualAlbums : list AlbumSummary;
  infoReflectionCount : Z;
  infoConnectedAt : Z
}.

Record Details : Type := mkDetails {
  detailsConnection : ConnectionInfo;
  detailsEligible : bool
}.

Definition getConnectionDetails (db : DB) (userId1 userId2 : string)
    : HttpException + Details :=
  if negb (isValid userId1) || negb (isValid userId2)
  then inl (BadRequestException "Invalid userId")
  else
    let '(userA_, userB_) := normalizeUserIds userId1 userId2 in
    match findOne (fun r => byPair userA_ userB_ r && isActive r)
            (connections db) with
    | None => inl (NotFoundException "Connection not found")
    | Some connection =>
        match checkConnectionEligibility db userId1 userId2 with
        | inl e => inl e
        | inr eligibility =>
            inr (mkDetails
                   (mkInfo (_id connection) (mutualAlbums eligibility)
                      (eligReflectionCount eligibility) (createdAt connection))
                   (eligible eligibility))
        end
    end.

(** The profile object [getConnections] attaches: no [userId] in it. *)
Record ProfileCard : Type := mkCard {
  cardFullName : option string;
  cardBio : option string;
  cardProfilePicture : option string;
  cardLocation : option string
}.

Record ConnectionView : Type := mkConnectionView {
  cv_id : ObjectId;
  cvUserId : string;
  cvUser : option ProfileCard;
  cvMutualAlbums : list AlbumSummary;
  cvReflectionCount : Z;
  cvConnectedAt : Z
}.

(** [.sort({ createdAt: -1 })]; equal keys stay in collection order. *)
Fixpoint insertNewest (x : TrailConnection) (l : list TrailConnection)
    : list TrailConnection :=
  match l with
  | [] => [x]
  | y :: l' =>
      if createdAt x <? createdAt y then y :: insertNewest x l'
      else x :: y :: l'
  end.

Definition sortNewest (l : list TrailConnection) : list TrailConnection :=
  List.fold_right insertNewest [] l.

(** [{ $or: [{ userA: u }, { userB: u }], isActive: true }] *)
Definition activeOf (u : ObjectId) (r : TrailConnection) : bool :=
  (oid_eqb (userA r) u || oid_eqb (userB r) u) && isActive r.

(** [userAStr === userId ? conn.userB : conn.userA] *)
Definition otherUser (userId : string) (conn : TrailConnection) : ObjectId :=
  if String.eqb (toHexString (userA conn)) userId then userB conn else userA conn.

Definition buildCardMap (userProfiles : list ConnReqLists.UserProfile)
    : gmap string ProfileCard :=
  List.fold_left (fun m profile =>
      <[toHexString (ConnReqLists.profileUserId profile) :=
          mkCard (ConnReqLists.fullName profile) (ConnReqLists.bio profile)
            (ConnReqLists.profilePicture profile) (ConnReqLists.location profile)]> m)
    userProfiles ∅.

Definition buildAlbumMap (found : list Album) : gmap string AlbumSummary :=
  List.fold_left (fun m album =>
      <[toHexString (album_id album) := summarize album]> m) found ∅.

Definition getConnections (profiles : list ConnReqLists.UserProfile)
    (userId : string) (db : DB) : HttpException + list ConnectionView :=
  if negb (isValid userId) then inl (BadRequestException "Invalid userId")
  else
    let userIdObjectId := newObjectId userId in
    let found :=
      sortNewest (List.filter (activeOf userIdObjectId) (connections db)) in
    let connectedUserIds := List.map (otherUser userId) found in
    let userProfiles :=
      if (0 <? length connectedUserIds)%nat
      then ConnReqLists.findProfiles connectedUserIds profiles
      else [] in
    let profileMap := buildCardMap userProfiles in
    let allAlbumIds := List.concat (List.map mutualAlbumIds found) in
    let albumMap :=
      buildAlbumMap (List.filter (fun a => inIds allAlbumIds (album_id a))
                       (albums db)) in
    inr (List.map (fun conn =>
           let otherUserIdStr := toHexString (otherUser userId conn) in
           mkConnectionView (_id conn) otherUserIdStr (profileMap !! otherUserIdStr)
             (omap (fun id => albumMap !! toHexString id) (mutualAlbumIds conn))
             (reflectionCount conn) (createdAt conn))
         found).

(** [u] has a stored favourite of the album [albumId]. *)
Definition favourited (db : DB) (u albumId : ObjectId) : Prop :=
  exists f, In f (favorites db) /\ favUserId f = u /\ favAlbumId f = albumId.

(** An album that counts for the eligibility of the pair: stored, not
    deleted, owned by the user [owner] and favourited by both users. *)
Definition sharedAlbumOf (db : DB) (u1 u2 owner : ObjectId) (a : Album)
    : Prop :=
  In a (albums db) /\ albumIsDeleted a = false
  /\ albumUserId a = owner
  /\ favourited db u1 (album_id a)
  /\ favourited db u2 (album_id a).

(** A document as [updateOne] leaves it: rewritten, [updatedAt] refreshed. *)
Definition touched (now : Z) (r : TrailConnection) : TrailConnection :=
  mkConnection (_id r) (userA r) (userB r) (mutualAlbumIds r)
    (reflectionCount r) (isActive r) (createdAt r) now.

(** The stored document of a pair after its eligibility has been
    re-evaluated at time [now]. *)
Definition reevaluated (now : Z) (e : Eligibility) (r : TrailConnection)
    : TrailConnection :=
  mkConnection (_id r) (userA r) (userB r)
    (List.map summary_id (mutualAlbums e)) (eligReflectionCount e)
    (eligible e) (createdAt r) now.

End TrailViews.

(** ** Reflections with a reason: [ReflectionService] *)

Module Reflections.

Inductive ReflectionReason : Type := COMPOSITION | MOMENT | EMOTION | STORY.

(** [Reflection], the model [ReflectionService] reads and writes: the one
    reflection schema with an anonymity flag.  [TrailConnectionService]
    holds no handle on this collection. *)
Record Reflection : Type := mkReflection {
  _id : ObjectId;
  mediaId : ObjectId;
  userId : ObjectId;
  reason : ReflectionReason;
  note : option string;
  isAnonymous : bool;
  createdAt : Z;
  updatedAt : Z
}.

(** What the service works on: the album and media collections, which are
    the ones [TrailConnectionService] reads, its own collection, and the
    counters it keeps in Redis. *)
Record Store : Type := mkStore {
  trail : Trail.DB;
  reflections : list Reflection;
  counters : gmap string Z
}.

(** [RedisService.incr(key, ttl)]: [INCR], and [EXPIRE] when the counter
    starts.  [expired] tells whether the key has run out since it was
    set, in which case Redis has dropped it. *)
Definition incr (key : string) (expired : bool) (redis : gmap string Z)
    : Z * gmap string Z :=
  let old := if expired then 0 else default 0 (redis !! key) in
  (old + 1, <[key := old + 1]> redis).

Definition RATE_LIMIT_KEY_PREFIX : string := "reflection:rate_limit:".
Definition MAX_REFLECTIONS_PER_HOUR : Z := 50.

(** The [ValidationError] of a note over the schema's [maxlength]. *)
Definition noteTooLong (n : string) : StorageError :=
  MongoError ("Reflection validation failed: note: Path `note` (`" +:+ n
              +:+ "`) is longer than the maximum allowed length (50).").

(** [Model.create]: the schema validates the note (at most 50
    characters; the two lengths agree on ASCII notes), then the unique
    indexes on [_id] and on [{ userId: 1, mediaId: 1 }] are enforced. *)
Definition create (d : Reflection) (c : list Reflection)
    : StorageError + list Reflection :=
  match note d with
  | Some n =>
      if (50 <? String.length n)%nat then inl (noteTooLong n)
      else if existsb (fun r => oid_eqb (_id r) (_id d)) c then inl duplicateKey
      else if existsb (fun r => oid_eqb (userId r) (userId d)
                                && oid_eqb (mediaId r) (mediaId d)) c
      then inl duplicateKey
      else inr (c ++ [d])
  | None =>
      if existsb (fun r => oid_eqb (_id r) (_id d)) c then inl duplicateKey
      else if existsb (fun r => oid_eqb (userId r) (userId d)
                                && oid_eqb (mediaId r) (mediaId d)) c
      then inl duplicateKey
      else inr (c ++ [d])
  end.

(** [updateOne({ _id }, { reason, note, isAnonymous })] on the first
    document with that id; Mongoose drops the [note] key when its value
    is [undefined], and runs no validator on an update. *)
Fixpoint updateOne (id : ObjectId) (reason' : ReflectionReason)
    (note' : option string) (isAnonymous' : bool) (now : Z)
    (c : list Reflection) : list Reflection :=
  match c with
  | [] => []
  | r :: c' =>
      if oid_eqb (_id r) id
      then mkReflection (_id r) (mediaId r) (userId r) reason'
             (match note' with Some n => Some n | None => note r end)
             isAnonymous' (createdAt r) now :: c'
      else r :: updateOne id reason' note' isAnonymous' now c'
  end.

(** [deleteOne(filter)]: the first matching document goes. *)
Fixpoint deleteOne (filter : Reflection -> bool) (c : list Reflection)
    : Z * list Reflection :=
  match c with
  | [] => (0, [])
  | r :: c' =>
      if filter r then (1, c')
      else let (deletedCount, c'') := deleteOne filter c' in
           (deletedCount, r :: c'')
  end.

Record AddCall : Type := mkAddCall {
  addMediaId : string;
  addUserId : string;
  addReason : ReflectionReason;
  addNote : option string;
  addIsAnonymous : bool;     (* defaults to [false] *)
  addNewId : ObjectId;       (* the [_id] the driver generates *)
  addNow : Z;                (* the clock *)
  addKeyExpired : bool       (* the rate-limit key has run out *)
}.

Record Reflected : Type := mkReflected {
  reflected : bool;
  reflectedMessage : string
}.

Definition addReflection (k : AddCall) (s : Store)
    : (HttpException + Reflected) * Store :=
  let mediaId := addMediaId k in
  let userId := addUserId k in
  if negb (isValid mediaId)
  then (inl (BadRequestException "Invalid mediaId"), s)
  else if negb (isValid userId)
  then (inl (BadRequestException "Invalid userId"), s)
  else
    let mediaIdObjectId := newObjectId mediaId in
    let userIdObjectId := newObjectId userId in
    let rateLimitKey := RATE_LIMIT_KEY_PREFIX +:+ userId in
    let (currentCount, counters') :=
      incr rateLimitKey (addKeyExpired k) (counters s) in
    let s := mkStore (trail s) (reflections s) counters' in
    if MAX_REFLECTIONS_PER_HOUR <? currentCount
    then (inl (BadRequestException
            "Too many reflections. Please wait before reflecting on more content."),
          s)
    else
      match List.find (fun m => oid_eqb (Trail.media_id m) mediaIdObjectId
                                && negb (Trail.mediaIsDeleted m))
              (Trail.media (trail s)) with
      | None => (inl (NotFoundException "Media not found"), s)
      | Some media =>
          match List.find (fun a => oid_eqb (Trail.album_id a)
                                      (Trail.mediaAlbumId media))
                  (Trail.albums (trail s)) with
          | None => (inl (NotFoundException "Album not found"), s)
          | Some album =>
              let isOwnMedia :=
                String.eqb (toHexString (Trail.albumUserId album)) userId in
              if negb isOwnMedia && negb (Trail.albumIsPublic album)
              then (inl (ForbiddenException
                      "You can only reflect on public media or your own media"),
                    s)
              else
                match List.find (fun r => oid_eqb (Reflections.userId r) userIdObjectId
                                          && oid_eqb (Reflections.mediaId r)
                                               mediaIdObjectId)
                        (reflections s) with
                | Some existing =>
                    (inr (mkReflected true "Reflection updated"),
                     mkStore (trail s)
                       (updateOne (_id existing) (addReason k)
                          (Msg.truthy (addNote k)) (addIsAnonymous k)
                          (addNow k) (reflections s))
                       (counters s))
                | None =>
                    match create
                            (mkReflection (addNewId k) mediaIdObjectId
                               userIdObjectId (addReason k)
                               (Msg.truthy (addNote k)) (addIsAnonymous k)
                               (addNow k) (addNow k))
                            (reflections s) with
                    | inr c' =>
                        (inr (mkReflected true "Reflection added"),
                         mkStore (trail s) c' (counters s))
                    | inl e =>
                        (inl (BadRequestException
                           ("Failed to add reflection: " +:+ errorMessage e)), s)
                    end
                end
          end
      end.

Record Removed : Type := mkRemoved {
  removed : bool;
  removedMessage : string
}.

Definition removeReflection (mediaId userId : string) (s : Store)
    : (HttpException + Removed) * Store :=
  if negb (isValid mediaId)
  then (inl (BadRequestException "Invalid mediaId"), s)
  else if negb (isValid userId)
  then (inl (BadRequestException "Invalid userId"), s)
  else
    let mediaIdObjectId := newObjectId mediaId in
    let userIdObjectId := newObjectId userId in
    let (deletedCount, c') :=
      deleteOne (fun r => oid_eqb (Reflections.userId r) userIdObjectId
                          && oid_eqb (Reflections.mediaId r) mediaIdObjectId)
        (reflections s) in
    if deletedCount =? 0
    then (inr (mkRemoved false "Reflection not found"), s)
    else (inr (mkRemoved true "Reflection removed"),
          mkStore (trail s) c' (counters s)).

(** The calls that write to the store, and a sequence of them. *)
Inductive Op : Type :=
  | Add (k : AddCall)
  | Remove (mediaId userId : string).

Definition perform (op : Op) (s : Store) : Store :=
  match op with
  | Add k => snd (addReflection k s)
  | Remove mediaId userId => snd (removeReflection mediaId userId s)
  end.

Definition run (ops : list Op) (s : Store) : Store :=
  List.fold_left (fun s op => perform op s) ops s.

End Reflections.

(** ** File-upload consumer: [processMessage] and the loop around it *)

Module Upload.
Import Msg.

(** [FileUploadMessage], the task [publishFileUpload] serializes. *)
Record FileUploadMessage : Type := mkFileUploadMessage {
  taskMessageId : string;
  taskFileKey : string;
  taskFileName : string;
  taskContentType : string;
  taskSize : Z;
  taskSenderId : string;
  taskReceiverId : string
}.

(** The two settings [processMessage] reads from [ConfigService]. *)
Record Config : Type := mkConfig {
  AWS_S3_BUCKET : option string;
  AWS_REGION : option string
}.

(** A JavaScript [Error] with its message. *)
Inductive Thrown : Type := Error (message : string).

(** [message.save()]: the stored document with this [_id] is replaced. *)
Fixpoint save (d : Message) (c : Collection) : Collection :=
  match c with
  | [] => []
  | m :: c' => if oid_eqb (_id m) (_id d) then d :: c' else m :: save d c'
  end.

Definition publicUrl (config : Config) (fileKey : string) (bucket : string)
    : string :=
  "https://" +:+ bucket +:+ ".s3."
  +:+ default "us-east-1" (truthy (AWS_REGION config))
  +:+ ".amazonaws.com/" +:+ fileKey.

(** [findById] casts its argument to an ObjectId and rejects with a
    CastError when the cast fails (its text is abridged here); [save]
    refreshes [updatedAt]. *)
Definition processMessage (config : Config) (now : Z)
    (messageData : FileUploadMessage) (c : Collection)
    : (Thrown + unit) * Collection :=
  let messageId := taskMessageId messageData in
  let fileKey := taskFileKey messageData in
  if negb (isValid messageId)
  then (inl (Error ("Cast to ObjectId failed for value " +:+ messageId)), c)
  else
    match findById (newObjectId messageId) c with
    | None => (inl (Error ("Message not found: " +:+ messageId)), c)
    | Some message =>
        if isFileUploaded message && isSome (truthy (fileUrl message))
        then (inr tt, c)
        else
          match truthy (AWS_S3_BUCKET config) with
          | None => (inl (Error "AWS_S3_BUCKET not configured"), c)
          | Some bucket =>
              let fileUrl_ := publicUrl config fileKey bucket in
              (inr tt,
               save (mkMessage (_id message) (senderId message)
                       (receiverId message) (content message) (hasFile message)
                       (Msg.fileKey message) (Some fileUrl_) (fileName message)
                       (fileType message) (fileSize message) true
                       (isRead message) (readAt message) (createdAt message)
                       now) c)
          end
    end.

Definition succeeded {E A} (r : E + A) : bool :=
  match r with inr _ => true | inl _ => false end.

Section Loop.

(** [JSON.parse(msg.content.toString())] read as a [FileUploadMessage];
    [None] when the bytes are no such task and the parser throws (the
    text of its SyntaxError is abridged below). *)
Variable parse : list Byte.byte -> option FileUploadMessage.
Variable config : Config.

Definition processDelivery (now : Z) (msg : Queue.ConsumeMessage)
    (c : Collection) : (Thrown + unit) * Collection :=
  match parse (Queue.content msg) with
  | None => (inl (Error "Unexpected token in JSON"), c)
  | Some messageData => processMessage config now messageData c
  end.

(** The consumer loop of [FileUploadConsumer] over broker and message
    log: one delivery per clock reading, the outcome of [processMessage]
    deciding between ack, retry and dead letter. *)
Fixpoint run (clock : list Z) (b : Queue.Broker) (c : Collection)
    : Queue.Broker * Collection :=
  match clock with
  | [] => (b, c)
  | now :: clock' =>
      let b := Queue.fireTimers b in
      match Queue.queueOf Queue.fileUploadQueue b with
      | [] => (b, c)
      | msg :: rest =>
          let '(result, c') := processDelivery now msg c in
          run clock'
            (Queue.onMessage Queue.fileUploadQueue Queue.fileUploadDlq
               (succeeded result) msg
               (Queue.mkBroker
                  (<[Queue.fileUploadQueue := rest]> (Queue.queues b))
                  (Queue.timers b) (Queue.attempts b)))
            c'
      end
  end.

(** The outcomes of the deliveries of [run], in order. *)
Fixpoint outcomes (clock : list Z) (b : Queue.Broker) (c : Collection)
    : list bool :=
  match clock with
  | [] => []
  | now :: clock' =>
      let b := Queue.fireTimers b in
      match Queue.queueOf Queue.fileUploadQueue b with
      | [] => []
      | msg :: rest =>
          let '(result, c') := processDelivery now msg c in
          succeeded result
          :: outcomes clock'
               (Queue.onMessage Queue.fileUploadQueue Queue.fileUploadDlq
                  (succeeded result) msg
                  (Queue.mkBroker
                     (<[Queue.fileUploadQueue := rest]> (Queue.queues b))
                     (Queue.timers b) (Queue.attempts b)))
               c'
      end
  end.

End Loop.

(** Every copy of a task still in the upload queue or waiting on a timer
    has the payload [payload]. *)
Definition carries (payload : list Byte.byte) (b : Queue.Broker) : Prop :=
  (forall m, In m (Queue.queueOf Queue.fileUploadQueue b) ->
     Queue.content m = payload)
  /\ (forall d q m, In (d, q, m) (Queue.timers b) -> Queue.content m = payload).

(** The fields of a message that an upload never touches. *)
Definition besidesUpload (m : Message)
    : ObjectId * ObjectId * ObjectId * string * bool * option string
      * option string * option string * option Z * bool * option Z * Z :=
  (_id m, senderId m, receiverId m, content m, hasFile m, fileKey m,
   fileName m, fileType m, fileSize m, isRead m, readAt m, createdAt m).

End Upload.

(** ** Chat gateway: [ChatGateway] *)

Module Gateway.

(** [str.split(' ')] *)
Fixpoint split (sep : ascii) (s : string) : list string :=
  match s with
  | EmptyString => [EmptyString]
  | String ch rest =>
      if Ascii.eqb ch sep then EmptyString :: split sep rest
      else
        match split sep rest with
        | [] => [String ch EmptyString]
        | w :: ws => String ch w :: ws
        end
  end.

Record Handshake : Type := mkHandshake {
  authToken : option string;
  authorization : option string;
  queryToken : option string
}.

(** The payload of a verified token; [sub] is the user id. *)
Record JwtPayload : Type := mkJwtPayload { sub : option string }.

(** A socket: its id, its handshake, and the [user] that
    [handleConnection] attaches to it. *)
Record Socket : Type := mkSocket {
  socketId : string;
  handshake : Handshake;
  socketUser : option JwtPayload
}.

(** [(client as any).userId], set together with [user]. *)
Definition socketUserId (client : Socket) : option string :=
  match socketUser client with
  | Some user => Msg.truthy (sub user)
  | None => None
  end.

Record MessagePayload : Type := mkPayload {
  p_id : ObjectId;
  pSenderId : string;
  pReceiverId : string;
  pContent : string;
  pHasFile : bool;
  pFileKey : option string;
  pFileName : option string;
  pFileType : option string;
  pFileSize : option Z;
  pFileUrl : option string;
  pIsFileUploaded : bool;
  pCreatedAt : Z;
  pIsRead : bool
}.

(** What the gateway emits: to one socket or to the room of a user. *)
Inductive Emitted : Type :=
  | ErrorTo (client : string) (message : string)
  | ConnectedTo (client : string) (userId : string)
  | NewMessageTo (room : string) (message : MessagePayload)
  | MessageSentTo (client : string) (message : MessagePayload).

(** [a || b || c] over the three places a token may come from. *)
Definition tokenOf (h : Handshake) : option string :=
  match Msg.truthy (authToken h) with
  | Some t => Some t
  | None =>
      match Msg.truthy
              (match authorization h with
               | Some a => nth_error (split " " a) 1
               | None => None
               end) with
      | Some t => Some t
      | None => Msg.truthy (queryToken h)
      end
  end.

(** The gateway's own state and the sockets the server holds open. *)
Record State : Type := mkState {
  connectedUsers : gmap string string;
  openSockets : gmap string Socket
}.

Section Connections.

(** [jwtService.verify]: [None] when it throws. *)
Variable verify : string -> option JwtPayload.

(** The result tells what was emitted and whether the socket stays
    open; a socket that stays open is held with its [user] attached. *)
Definition handleConnection (client : Socket) (st : State)
    : list Emitted * State :=
  match tokenOf (handshake client) with
  | None => ([ErrorTo (socketId client) "Authentication required"], st)
  | Some token =>
      match verify token with
      | None => ([ErrorTo (socketId client) "Invalid token"], st)
      | Some user =>
          match Msg.truthy (sub user) with
          | None => ([ErrorTo (socketId client) "Invalid user"], st)
          | Some userId =>
              ([ConnectedTo (socketId client) userId],
               mkState (<[userId := socketId client]> (connectedUsers st))
                 (<[socketId client :=
                      mkSocket (socketId client) (handshake client) (Some user)]>
                    (openSockets st)))
          end
      end
  end.

Definition handleDisconnect (client : Socket) (st : State) : State :=
  match socketUserId client with
  | Some userId =>
      let currentSocketId := connectedUsers st !! userId in
      if decide (currentSocketId = Some (socketId client))
      then mkState (delete userId (connectedUsers st)) (openSockets st)
      else st
  | None => st
  end.

Definition isUserOnline (userId : string) (st : State) : bool :=
  bool_decide (is_Some (connectedUsers st !! userId)).

Definition getSocketId (userId : string) (st : State) : option string :=
  connectedUsers st !! userId.

(** What happens to the gateway: a socket arrives (the server gives every
    socket an id of its own), or an open socket goes away, after which
    the server no longer holds it. *)
Inductive Event : Type :=
  | Arrives (client : Socket)
  | Leaves (clientId : string).

Definition step (st : State) (ev : Event) : State :=
  match ev with
  | Arrives client =>
      match openSockets st !! socketId client with
      | Some _ => st
      | None => snd (handleConnection client st)
      end
  | Leaves clientId =>
      match openSockets st !! clientId with
      | Some client =>
          let st := handleDisconnect client st in
          mkState (connectedUsers st) (delete clientId (openSockets st))
      | None => st
      end
  end.

Definition steps (evs : list Event) (st : State) : State :=
  List.fold_left step evs st.

End Connections.

Definition initial : State := mkState ∅ ∅.

(** Every registered socket is open and belongs to the user it is
    registered for. *)
Definition registrySound (st : State) : Prop :=
  forall userId clientId,
    connectedUsers st !! userId = Some clientId ->
    exists client,
      openSockets st !! clientId = Some client
      /\ socketId client = clientId
      /\ socketUserId client = Some userId.

(** The server holds every open socket under its own id. *)
Definition socketsKeyed (st : State) : Prop :=
  forall clientId client,
    openSockets st !! clientId = Some client -> socketId client = clientId.

(** *** [handleSendMessage] *)

Record SendData : Type := mkSendData {
  dReceiverId : option string;
  dContent : option string;
  dFileKey : option string;
  dFileName : option string;
  dContentType : option string;
  dFileSize : option Z
}.

(** [NotificationMessage], the task [publishNotification] serializes. *)
Record NotificationMessage : Type := mkNotification {
  nReceiverId : string;
  nSenderId : string;
  nMessageId : string;
  nContent : string;
  nHasFile : bool;
  nFileName : option string;
  nFileType : option string
}.

(** A number is truthy unless it is zero. *)
Definition truthyNumber (n : option Z) : option Z :=
  match n with
  | Some z => if z =? 0 then None else Some z
  | None => None
  end.

(** [fileKey && fileName && contentType && fileSize ? {...} : undefined] *)
Definition fileDataOf (data : SendData) : option Msg.FileData :=
  match Msg.truthy (dFileKey data), Msg.truthy (dFileName data),
        Msg.truthy (dContentType data), truthyNumber (dFileSize data) with
  | Some fileKey, Some fileName, Some contentType, Some fileSize =>
      Some (Msg.mkFileData fileKey fileName contentType fileSize)
  | _, _, _, _ => None
  end.

Definition httpMessage (e : HttpException) : string :=
  match e with
  | BadRequestException m => m
  | NotFoundException m => m
  | ForbiddenException m => m
  end.

Record World : Type := mkWorld {
  requests : ConnReq.Collection;
  log : Msg.Collection;
  broker : Queue.Broker
}.

(** [channel.sendToQueue] of one publish either throws (the channel is
    closed, or was never opened) or hands the persistent task to the
    queue.  Its boolean result, false when the write buffer is full and
    the task waits there, only chooses the line that is logged. *)
Inductive Channel : Type := Open | Closed.

Section Sending.

(** [Buffer.from(JSON.stringify(message))] for the two kinds of task. *)
Variable stringifyUpload : Upload.FileUploadMessage -> list Byte.byte.
Variable stringifyNotification : NotificationMessage -> list Byte.byte.

(** [RabbitMQService.publishFileUpload]: [None] when [sendToQueue] throws
    and the [catch] block rethrows. *)
Definition publishFileUpload (channel : Channel)
    (message : Upload.FileUploadMessage) (b : Queue.Broker)
    : option Queue.Broker :=
  match channel with
  | Closed => None
  | Open => Some (Queue.publishTask Queue.FileUploadConsumer
                    (stringifyUpload message) b)
  end.

(** [RabbitMQService.publishNotification] *)
Definition publishNotification (channel : Channel)
    (message : NotificationMessage) (b : Queue.Broker)
    : option Queue.Broker :=
  match channel with
  | Closed => None
  | Open => Some (Queue.publishTask Queue.NotificationConsumer
                    (stringifyNotification message) b)
  end.

(** [channelAt k] is the state of the channel when the gateway publishes
    to the queue of [k]. *)
Definition handleSendMessage (channelAt : Queue.Consumer -> Channel)
    (newId : ObjectId) (now : Z) (data : SendData)
    (client : Socket) (w : World) : list Emitted * World :=
  match socketUserId client with
  | None => ([ErrorTo (socketId client) "Unauthorized"], w)
  | Some senderId =>
      match Msg.truthy (dReceiverId data), Msg.truthy (dContent data) with
      | Some receiverId, Some content =>
          let fileData := fileDataOf data in
          match Msg.sendMessage (requests w) newId now senderId receiverId
                  content fileData (log w) with
          | (inl error, _) => ([ErrorTo (socketId client) (httpMessage error)], w)
          | (inr message, log') =>
              let messagePayload :=
                mkPayload (Msg.sentMessageId message) (Msg.sentSenderId message)
                  (Msg.sentReceiverId message) (Msg.sentContent message)
                  (Msg.sentHasFile message || false) (Msg.sentFileKey message)
                  (Msg.sentFileName message) (Msg.sentFileType message)
                  (Msg.sentFileSize message) None false
                  (Msg.sentCreatedAt message) false in
              (* try { if (fileData) await publishFileUpload(...);
                       await publishNotification(...) }
                 catch (rabbitError) { log }: a publish that throws ends
                 the block, what was published before it stays. *)
              let uploaded :=
                match fileData with
                | Some fd =>
                    publishFileUpload (channelAt Queue.FileUploadConsumer)
                      (Upload.mkFileUploadMessage
                         (toHexString (Msg.sentMessageId message))
                         (Msg.fdFileKey fd) (Msg.fdFileName fd)
                         (Msg.fdContentType fd) (Msg.fdSize fd)
                         senderId receiverId)
                      (broker w)
                | None => Some (broker w)
                end in
              let published :=
                match uploaded with
                | None => broker w
                | Some b1 =>
                    match publishNotification
                            (channelAt Queue.NotificationConsumer)
                            (mkNotification receiverId senderId
                               (toHexString (Msg.sentMessageId message)) content
                               (Msg.isSome fileData)
                               (option_map Msg.fdFileName fileData)
                               (option_map Msg.fdContentType fileData))
                            b1 with
                    | Some b2 => b2
                    | None => b1
                    end
                end in
              ([NewMessageTo ("user:" +:+ receiverId) messagePayload;
                MessageSentTo (socketId client) messagePayload],
               mkWorld (requests w) log' published)
          end
      | _, _ =>
          ([ErrorTo (socketId client) "receiverId and content are required"], w)
      end
  end.

End Sending.

End Gateway.

(** ** More sample data *)

Module MoreSamples.

(** Alice and Bob are eligible and their connection is stored. *)
Definition storedConnection : Trail.TrailConnection :=
  Trail.mkConnection Samples.id3 (newObjectId Samples.alice)
    (newObjectId Samples.bob) [Samples.albumOfBob; Samples.albumOfAlice] 2 true
    50 50.

Definition connectedDb : Trail.DB :=
  Trail.withConnections Samples.eligibleDb [storedConnection].

(** The two stopped liking each other's albums; the connection is still
    stored as active. *)
Definition driftedDb : Trail.DB :=
  Trail.mkDB [] (Trail.albums Samples.eligibleDb) (Trail.media Samples.eligibleDb)
    (Trail.mediaReflections Samples.eligibleDb) [storedConnection].

(** Alice and Bob each own a public album and each favourited both
    albums; no MediaReflection is stored.  Then each of them leaves an
    anonymous reflection on the other's photo through [addReflection]. *)
Definition quietStore : Reflections.Store :=
  Reflections.mkStore
    (Trail.mkDB (Trail.favorites Samples.eligibleDb)
       (Trail.albums Samples.eligibleDb) (Trail.media Samples.eligibleDb) [] [])
    [] ∅.

Definition aliceReflects : Reflections.AddCall :=
  Reflections.mkAddCall "0000000000000000000000b1" Samples.alice
    Reflections.MOMENT (Some "the light") true Samples.id1 60 false.

Definition bobReflects : Reflections.AddCall :=
  Reflections.mkAddCall "0000000000000000000000b2" Samples.bob
    Reflections.STORY None true Samples.id2 61 false.

Definition anonymousStore : Reflections.Store :=
  Reflections.run [Reflections.Add aliceReflects; Reflections.Add bobReflects]
    quietStore.

(** An upload task for the first message of [Samples.sampleLog] and one
    for a message that is not stored; the parser of the samples reads
    every payload as the given task. *)
Definition uploadTask : Upload.FileUploadMessage :=
  Upload.mkFileUploadMessage "000000000000000000000001" "chat/a.png" "a.png"
    "image/png" 10 Samples.alice Samples.bob.

Definition strayTask : Upload.FileUploadMessage :=
  Upload.mkFileUploadMessage "000000000000000000000009" "chat/a.png" "a.png"
    "image/png" 10 Samples.alice Samples.bob.

Definition readAs (task : Upload.FileUploadMessage)
    : list Byte.byte -> option Upload.FileUploadMessage :=
  fun _ => Some task.

Definition bucketConfig : Upload.Config :=
  Upload.mkConfig (Some "bucket") None.

(** A token service under which a token is the id of its user, and two
    sockets of Alice. *)
Definition tokenIsUser (token : string) : option Gateway.JwtPayload :=
  Some (Gateway.mkJwtPayload (Some token)).

Definition phone : Gateway.Socket :=
  Gateway.mkSocket "s1" (Gateway.mkHandshake (Some Samples.alice) None None) None.

Definition laptop : Gateway.Socket :=
  Gateway.mkSocket "s2"
    (Gateway.mkHandshake None (Some ("Bearer " +:+ Samples.alice)) None) None.

End MoreSamples.

(** * Properties *)

(** ** ObjectId facts *)

Lemma oid_eqb_eq a b : oid_eqb a b = true <-> a = b.
Proof.
  destruct a as [x], b as [y]; unfold oid_eqb; simpl.
  rewrite String.eqb_eq. split; congruence.
Qed.

Lemma oid_eqb_refl a : oid_eqb a a = true.
Proof. by apply oid_eqb_eq. Qed.

Lemma oid_eqb_neq a b : oid_eqb a b = false <-> a <> b.
Proof.
  rewrite <- oid_eqb_eq. destruct (oid_eqb a b); split; congruence.
Qed.

Lemma oid_eqb_sym a b : oid_eqb a b = oid_eqb b a.
Proof.
  destruct (oid_eqb a b) eqn:E.
  - apply oid_eqb_eq in E. subst. by rewrite oid_eqb_refl.
  - symmetry. apply oid_eqb_neq. apply oid_eqb_neq in E. congruence.
Qed.

Lemma find_none_filter {A} (q : A -> bool) (l : list A) :
  List.find q l = None <-> List.filter q l = [].
Proof.
  induction l as [|x l IH]; simpl; [done|].
  destruct (q x); [split; discriminate | exact IH].
Qed.

(** ** Relationship store *)

Module ConnReqFacts.
Import ConnReq.

Lemma status_eqb_eq a b : status_eqb a b = true <-> a = b.
Proof. destruct a, b; simpl; split; congruence. Qed.

Lemma status_eqb_refl a : status_eqb a a = true.
Proof. by destruct a. Qed.

Lemma request_findById_id id c r : findById id c = Some r -> _id r = id.
Proof.
  unfold findById. intros H. apply List.find_some in H as [_ H].
  by apply oid_eqb_eq.
Qed.

Lemma save_found now d c r :
  findById (_id d) c = Some r -> findById (_id d) (save now d c) = Some (touch now d).
Proof.
  unfold findById. induction c as [|x c IH]; simpl; [done|].
  destruct (oid_eqb (_id x) (_id d)) eqn:E; simpl.
  - intros _. by rewrite oid_eqb_refl.
  - rewrite E. exact IH.
Qed.

Lemma save_other now d c id :
  id <> _id d -> findById id (save now d c) = findById id c.
Proof.
  unfold findById. intros Hne. induction c as [|x c IH]; simpl; [done|].
  destruct (oid_eqb (_id x) (_id d)) eqn:E; simpl.
  - apply oid_eqb_eq in E.
    assert (oid_eqb (_id d) id = false) as -> by (apply oid_eqb_neq; congruence).
    assert (oid_eqb (_id x) id = false) as -> by (apply oid_eqb_neq; congruence).
    done.
  - destruct (oid_eqb (_id x) id); [done | exact IH].
Qed.

Lemma save_length now d c : length (save now d c) = length c.
Proof.
  induction c as [|x c IH]; simpl; [done|].
  destruct (oid_eqb (_id x) (_id d)); simpl; congruence.
Qed.

(** Both methods share their guards; only the status written differs. *)
Lemma respond_unfold d now userId requestId c :
  respond d now userId requestId c =
  if negb (isValid userId) || negb (isValid requestId)
  then (inl (BadRequestException "Invalid userId or requestId"), c)
  else
    match findById (newObjectId requestId) c with
    | None => (inl (NotFoundException "Request not found"), c)
    | Some request =>
        if negb (String.eqb (toHexString (recipientId request)) userId)
        then (inl (BadRequestException "You are not the recipient of this request"), c)
        else if negb (status_eqb (status request) PENDING)
        then (inl (BadRequestException
                ("Request is already " +:+ statusString (status request))), c)
        else
          (inr (_id request),
           save now (mkRequest (_id request) (requesterId request)
                       (recipientId request) (decided d) (createdAt request)
                       (updatedAt request)) c)
    end.
Proof. by destruct d. Qed.

(** C8.  With well-formed ids, [acceptRequest] and [rejectRequest] throw
    [NotFoundException] when the request id resolves to no record; throw
    'You are not the recipient of this request' (the spec's Forbidden)
    when the caller is not the recipient; throw 'Request is already
    <status>' (the spec's Conflict) when the status is not pending; in
    all three cases nothing is written.  Otherwise they succeed, the
    stored record now carries the decided status, every other record is
    as before, and applying either decision again is rejected with
    'Request is already <decided status>' and writes nothing. *)
Theorem respond_guards_and_single_transition
    (d : Decision) (now : Z) (userId requestId : string) (c : Collection) :
  isValid userId = true -> isValid requestId = true ->
  (findById (newObjectId requestId) c = None ->
     respond d now userId requestId c
     = (inl (NotFoundException "Request not found"), c))
  /\ (forall r, findById (newObjectId requestId) c = Some r ->
        toHexString (recipientId r) <> userId ->
        respond d now userId requestId c
        = (inl (BadRequestException "You are not the recipient of this request"), c))
  /\ (forall r, findById (newObjectId requestId) c = Some r ->
        toHexString (recipientId r) = userId ->
        status r <> PENDING ->
        respond d now userId requestId c
        = (inl (BadRequestException
                  ("Request is already " +:+ statusString (status r))), c))
  /\ (forall r, findById (newObjectId requestId) c = Some r ->
        toHexString (recipientId r) = userId ->
        status r = PENDING ->
        exists c',
          respond d now userId requestId c = (inr (_id r), c')
          /\ findById (newObjectId requestId) c'
             = Some (mkRequest (_id r) (requesterId r) (recipientId r)
                       (decided d) (createdAt r) now)
          /\ (forall id, id <> newObjectId requestId ->
                findById id c' = findById id c)
          /\ length c' = length c
          /\ forall d' now',
               respond d' now' userId requestId c'
               = (inl (BadRequestException
                         ("Request is already " +:+ statusString (decided d))), c')).
Proof.
  intros Hu Hr.
  assert (Hguard : negb (isValid userId) || negb (isValid requestId) = false)
    by (by rewrite Hu, Hr).
  repeat split.
  - intros Hnone. rewrite respond_unfold, Hguard, Hnone. done.
  - intros r Hsome Hrec. rewrite respond_unfold, Hguard, Hsome.
    apply String.eqb_neq in Hrec. by rewrite Hrec.
  - intros r Hsome Hrec Hst. rewrite respond_unfold, Hguard, Hsome.
    apply String.eqb_eq in Hrec. rewrite Hrec. simpl.
    destruct (status r); simpl; congruence.
  - intros r Hsome Hrec Hst.
    pose proof (request_findById_id _ _ _ Hsome) as Hid.
    set (r' := mkRequest (_id r) (requesterId r) (recipientId r) (decided d)
                 (createdAt r) (updatedAt r)).
    assert (Hfound : findById (newObjectId requestId) (save now r' c)
                     = Some (touch now r')).
    { rewrite <- Hid. apply (save_found now r' c r). simpl. by rewrite Hid. }
    exists (save now r' c). repeat split.
    + rewrite respond_unfold, Hguard, Hsome.
      apply String.eqb_eq in Hrec. rewrite Hrec, Hst. done.
    + exact Hfound.
    + intros id Hne. apply save_other. simpl. congruence.
    + apply save_length.
    + intros d' now'. rewrite respond_unfold, Hguard, Hfound. simpl.
      apply String.eqb_eq in Hrec. rewrite Hrec. simpl.
      by destruct d.
Qed.

Lemma respond_guards_and_single_transition_witness :
  isValid Samples.bob = true
  /\ isValid "000000000000000000000001" = true
  /\ exists c',
       respond accept 20 Samples.bob "000000000000000000000001" Samples.alicePending
       = (inr Samples.id1, c')
       /\ findById Samples.id1 c'
          = Some (mkRequest Samples.id1 (newObjectId Samples.alice)
                    (newObjectId Samples.bob) ACCEPTED 10 20)
       /\ respond reject 30 Samples.bob "000000000000000000000001" c'
          = (inl (BadRequestException "Request is already accepted"), c').
Proof.
  split; [reflexivity|]. split; [reflexivity|].
  destruct (respond_guards_and_single_transition accept 20 Samples.bob
              "000000000000000000000001" Samples.alicePending
              eq_refl eq_refl) as (_ & _ & _ & H).
  destruct (H (mkRequest Samples.id1 (newObjectId Samples.alice)
                 (newObjectId Samples.bob) PENDING 10 10)
              eq_refl eq_refl eq_refl) as (c' & H1 & H2 & _ & _ & H5).
  exists c'. split; [exact H1|]. split; [exact H2|]. exact (H5 reject 30).
Defined.

(** *** Pending requests per pair *)

Lemma pairQuery_swap a b s r : pairQuery a b s r = pairQuery b a s r.
Proof. unfold pairQuery. f_equal. apply orb_comm. Qed.

Lemma pairQuery_same_pair a b d r :
  pairQuery a b PENDING d = true ->
  pairQuery a b PENDING r = pairQuery (requesterId d) (recipientId d) PENDING r.
Proof.
  unfold pairQuery. intros H.
  apply andb_true_iff in H as [H _]. apply orb_true_iff in H as [H|H];
    apply andb_true_iff in H as [H1 H2];
    apply oid_eqb_eq in H1; apply oid_eqb_eq in H2; subst; [done|].
  f_equal. apply orb_comm.
Qed.

Lemma filter_ext_eq {A} (p q : A -> bool) (l : list A) :
  (forall x, p x = q x) -> List.filter p l = List.filter q l.
Proof. intros H. apply List.filter_ext. exact H. Qed.

(** Run without interruption, [sendRequest] keeps one pending request per
    unordered pair, and a call for a pair that already has a pending
    request, in either direction, throws and writes nothing. *)
Lemma sendRequest_sequential_pending_unique (k : SendCall) (c : Collection) :
  pendingUnique c ->
  pendingUnique (snd (sendRequest k c))
  /\ (forall r, In r c ->
        pairQuery (newObjectId (callRequester k)) (newObjectId (callRecipient k))
          PENDING r = true ->
        exists e, sendRequest k c = (inl e, c)).
Proof.
  intros Huniq. unfold sendRequest.
  destruct (negb (isValid (callRequester k)) || negb (isValid (callRecipient k)));
    [split; [exact Huniq | eauto]|].
  destruct (String.eqb (callRequester k) (callRecipient k));
    [split; [exact Huniq | eauto]|].
  destruct (findOne _ c) as [acc|]; [split; [exact Huniq | eauto]|].
  destruct (findOne (pairQuery _ _ PENDING) c) as [p|] eqn:Hp.
  { destruct (String.eqb _ _); split; simpl; eauto. }
  split.
  - unfold create.
    destruct (existsb _ c); [exact Huniq|].
    destruct (existsb _ c); [exact Huniq|]. simpl.
    intros a b. rewrite List.filter_app, List.length_app. simpl.
    destruct (pairQuery a b PENDING (pendingDocument k)) eqn:Hd; simpl.
    + rewrite (filter_ext_eq _ _ c (fun r => pairQuery_same_pair a b _ r Hd)).
      simpl. apply find_none_filter in Hp. unfold findOne in Hp.
      rewrite Hp. simpl. lia.
    + specialize (Huniq a b). lia.
  - intros r Hin Hq. unfold findOne in Hp.
    eapply List.find_none in Hp; [|exact Hin]. congruence.
Qed.

(** The three storage calls of one handler running alone are exactly
    [sendRequest]. *)
Lemma sendSteps_alone (k : SendCall) (c : Collection) :
  runSchedule [0; 0; 0]%nat ([(k, AtAccepted)], c)
  = ([(k, Finished (fst (sendRequest k c)))], snd (sendRequest k c)).
Proof.
  unfold runSchedule, sendRequest. simpl.
  destruct (negb (isValid (callRequester k)) || negb (isValid (callRecipient k)));
    [done|].
  destruct (String.eqb (callRequester k) (callRecipient k)); [done|].
  destruct (findOne _ c); [done|]. simpl.
  destruct (findOne _ c); simpl.
  { by destruct (String.eqb _ _). }
  by destruct (create _ c).
Qed.

(** In one direction the index does its work: of two racing requests from
    Alice to Bob the second insert is rejected and surfaces as a
    [BadRequestException]. *)
Lemma same_direction_race_is_stopped_by_the_index :
  runSchedule [0; 0; 1; 1; 0; 1]%nat
    (spawn [Samples.aliceAsksBob; Samples.aliceAsksBobAgain], [])
  = ([(Samples.aliceAsksBob, Finished (inr Samples.id1));
      (Samples.aliceAsksBobAgain,
       Finished (inl (BadRequestException
                        "Failed to send request: E11000 duplicate key error")))],
     [pendingDocument Samples.aliceAsksBob]).
Proof. vm_compute. reflexivity. Qed.

(** C1 (the code departs from the claim).  Alice's [sendRequest] to Bob and
    Bob's [sendRequest] to Alice, interleaved so that both pass the two
    [findOne] checks before either writes, both succeed: two pending
    requests are stored for the one unordered pair.  The partial unique
    index is keyed on (requesterId, recipientId) in that order, so it
    holds on the resulting collection and rejects neither insert. *)
Theorem sendRequest_race_two_pending_for_one_pair :
  let run := runSchedule [0; 0; 1; 1; 0; 1]%nat
               (spawn [Samples.aliceAsksBob; Samples.bobAsksAlice], []) in
  fst run = [(Samples.aliceAsksBob, Finished (inr Samples.id1));
             (Samples.bobAsksAlice, Finished (inr Samples.id2))]
  /\ snd run = [pendingDocument Samples.aliceAsksBob;
                pendingDocument Samples.bobAsksAlice]
  /\ length (List.filter (pairQuery (newObjectId Samples.alice)
                            (newObjectId Samples.bob) PENDING) (snd run)) = 2%nat
  /\ indexHolds (snd run)
  /\ ~ pendingUnique (snd run).
Proof.
  assert (Hrun : runSchedule [0; 0; 1; 1; 0; 1]%nat
            (spawn [Samples.aliceAsksBob; Samples.bobAsksAlice], [])
          = ([(Samples.aliceAsksBob, Finished (inr Samples.id1));
              (Samples.bobAsksAlice, Finished (inr Samples.id2))],
             [pendingDocument Samples.aliceAsksBob;
              pendingDocument Samples.bobAsksAlice])) by (vm_compute; reflexivity).
  cbv zeta. rewrite Hrun. simpl fst. simpl snd.
  split; [done|]. split; [done|]. split; [vm_compute; reflexivity|]. split.
  - intros i j r1 r2 Hi Hj Hne.
    destruct i as [|[|i]], j as [|[|j]]; simpl in Hi, Hj; try done;
      simplify_eq; vm_compute; reflexivity.
  - intros H.
    specialize (H (newObjectId Samples.alice) (newObjectId Samples.bob)).
    vm_compute in H. lia.
Qed.

End ConnReqFacts.

(** ** Message log *)

Module MsgFacts.
Import Msg.

Lemma message_findById_id id c m : findById id c = Some m -> _id m = id /\ In m c.
Proof.
  unfold findById. intros H. apply List.find_some in H as [Hin H].
  split; [by apply oid_eqb_eq | exact Hin].
Qed.

Lemma findById_NoDup c m :
  NoDup (List.map _id c) -> In m c -> findById (_id m) c = Some m.
Proof.
  unfold findById. induction c as [|x c IH]; simpl; [done|].
  intros Hnd [->|Hin]; [by rewrite oid_eqb_refl|].
  apply NoDup_cons in Hnd as [Hx Hnd].
  destruct (oid_eqb (_id x) (_id m)) eqn:E; [|by apply IH].
  apply oid_eqb_eq in E. exfalso. apply Hx. rewrite E.
  apply list_elem_of_In, List.in_map, Hin.
Qed.

Lemma findById_map (f : Message -> Message) id c :
  (forall m, _id (f m) = _id m) ->
  findById id (List.map f c) = option_map f (findById id c).
Proof.
  intros Hf. unfold findById. induction c as [|x c IH]; simpl; [done|].
  rewrite Hf. destruct (oid_eqb (_id x) id); [done | exact IH].
Qed.

(** *** Sending *)

Lemma areConnected_false_iff (A B : string) (conns : ConnReq.Collection) :
  isValid A = true -> isValid B = true ->
  ConnReq.areConnected A B conns = false
  <-> ~ exists r, In r conns /\ ConnReq.status r = ConnReq.ACCEPTED
        /\ ((ConnReq.requesterId r = newObjectId A
             /\ ConnReq.recipientId r = newObjectId B)
            \/ (ConnReq.requesterId r = newObjectId B
                /\ ConnReq.recipientId r = newObjectId A)).
Proof.
  intros HA HB. unfold ConnReq.areConnected, ConnReq.findOne.
  rewrite HA, HB. simpl.
  destruct (List.find _ conns) as [r|] eqn:Hf.
  - split; [discriminate|]. intros Hno. exfalso. apply Hno.
    apply List.find_some in Hf as [Hin Hq]. exists r. split; [exact Hin|].
    unfold ConnReq.pairQuery in Hq. apply andb_true_iff in Hq as [Hp Hs].
    apply ConnReqFacts.status_eqb_eq in Hs. split; [exact Hs|].
    apply orb_true_iff in Hp as [Hp|Hp]; apply andb_true_iff in Hp as [H1 H2];
      apply oid_eqb_eq in H1; apply oid_eqb_eq in H2; auto.
  - split; [|done]. intros _ (r & Hin & Hs & Hp).
    eapply List.find_none in Hf; [|exact Hin].
    unfold ConnReq.pairQuery in Hf. rewrite Hs in Hf. simpl in Hf.
    rewrite andb_true_r in Hf.
    destruct Hp as [[H1 H2]|[H1 H2]]; rewrite H1, H2, !oid_eqb_refl in Hf;
      simpl in Hf; [discriminate|].
    rewrite orb_true_r in Hf. discriminate.
Qed.

(** C2.  For well-formed, distinct sender and receiver, [sendMessage]
    throws 'Users must be connected to send messages' (the spec's
    Precondition) exactly when [areConnected] is false; then the message
    collection is returned as it was; and [areConnected] is false exactly
    when no accepted connection request links the two users in either
    direction. *)
Theorem sendMessage_precondition_iff_not_connected
    (conns : ConnReq.Collection) (newId : ObjectId) (now : Z)
    (A B content : string) (fileData : option FileData) (c : Collection) :
  isValid A = true -> isValid B = true -> A <> B ->
  (fst (sendMessage conns newId now A B content fileData c)
   = inl (BadRequestException "Users must be connected to send messages")
   <-> ConnReq.areConnected A B conns = false)
  /\ (ConnReq.areConnected A B conns = false ->
      snd (sendMessage conns newId now A B content fileData c) = c)
  /\ (ConnReq.areConnected A B conns = false
      <-> ~ exists r, In r conns /\ ConnReq.status r = ConnReq.ACCEPTED
            /\ ((ConnReq.requesterId r = newObjectId A
                 /\ ConnReq.recipientId r = newObjectId B)
                \/ (ConnReq.requesterId r = newObjectId B
                    /\ ConnReq.recipientId r = newObjectId A))).
Proof.
  intros HA HB Hne. split; [|split].
  - unfold sendMessage. rewrite HA, HB. simpl.
    apply String.eqb_neq in Hne. rewrite Hne.
    destruct (ConnReq.areConnected A B conns); simpl; [|done].
    split; [|discriminate].
    destruct (create _ c); simpl; discriminate.
  - intros Hnc. unfold sendMessage. rewrite HA, HB. simpl.
    apply String.eqb_neq in Hne. rewrite Hne, Hnc. done.
  - by apply areConnected_false_iff.
Qed.

Lemma sendMessage_precondition_iff_not_connected_witness :
  isValid Samples.alice = true /\ isValid Samples.bob = true
  /\ Samples.alice <> Samples.bob
  /\ sendMessage [] Samples.id1 5 Samples.alice Samples.bob "hello" None []
     = (inl (BadRequestException "Users must be connected to send messages"), [])
  /\ fst (sendMessage Samples.aliceAccepted Samples.id2 5 Samples.alice
            Samples.bob "hello" None [])
     <> inl (BadRequestException "Users must be connected to send messages").
Proof.
  split; [reflexivity|]. split; [reflexivity|]. split; [discriminate|].
  split.
  - pose proof (sendMessage_precondition_iff_not_connected [] Samples.id1 5
                  Samples.alice Samples.bob "hello" None []
                  eq_refl eq_refl ltac:(discriminate)) as (H1 & H2 & _).
    specialize (H2 eq_refl). apply proj2 in H1. specialize (H1 eq_refl).
    apply injective_projections; [exact H1 | exact H2].
  - pose proof (sendMessage_precondition_iff_not_connected Samples.aliceAccepted
                  Samples.id2 5 Samples.alice Samples.bob "hello" None []
                  eq_refl eq_refl ltac:(discriminate)) as (H1 & _ & _).
    intros H. apply H1 in H. vm_compute in H. discriminate.
Defined.

(** *** The sort of the query *)

Lemma insertSorted_perm d x l : Permutation (insertSorted d x l) (x :: l).
Proof.
  induction l as [|y l IH]; simpl; [done|].
  destruct (precedes d y x); [|done].
  rewrite IH. apply perm_swap.
Qed.

Lemma sort_perm d l : Permutation (sort d l) l.
Proof.
  induction l as [|x l IH]; simpl; [done|].
  rewrite insertSorted_perm. by constructor.
Qed.

Lemma sort_In d l m : In m (sort d l) <-> In m l.
Proof.
  split; intros H; eapply Permutation_in; try exact H;
    [apply sort_perm | symmetry; apply sort_perm].
Qed.

Lemma take_In {A} n (l : list A) x : In x (take n l) -> In x l.
Proof.
  revert l. induction n as [|n IH]; intros [|y l]; simpl; try done.
  intros [->|H]; [by left | right; by apply IH].
Qed.

Lemma sortedMessages_In u o d t limit c m :
  In m (sortedMessages u o d t limit c) ->
  In m c /\ baseQuery u o m = true /\ cursorQuery d t m = true.
Proof.
  unfold sortedMessages, foundMessages. intros H.
  assert (In m (sort d (List.filter
            (fun m0 => baseQuery u o m0 && cursorQuery d t m0) c))) as Hs.
  { destruct d; [apply List.in_rev in H|];
      destruct (limit <? _); repeat apply take_In in H; exact H. }
  apply sort_In, List.filter_In in Hs as [Hin Hq].
  apply andb_true_iff in Hq. tauto.
Qed.

(** *** Reading a page *)

Lemma getMessages_unfold conns callTime elapsed userId otherUserId cursor limit
    direction c :
  1 <= limit <= 100 ->
  ConnReq.areConnected userId otherUserId conns = true ->
  getMessages conns callTime elapsed userId otherUserId cursor limit direction c
  = match resolveCursor cursor c with
    | inl e => (inl e, c)
    | inr t =>
        let shown := sortedMessages (newObjectId userId) (newObjectId otherUserId)
                       direction t limit c in
        let result := List.map (formatMessage userId) shown in
        (inr (mkPage result
                (match direction with
                 | before => option_map v_id (head result)
                 | after => option_map v_id (last result)
                 end)
                (limit <? Z.of_nat
                   (length (foundMessages (newObjectId userId)
                              (newObjectId otherUserId) direction t limit c)))
                direction),
         afterRead userId shown (callTime + Z.of_N elapsed) c)
    end.
Proof.
  intros Hl Hc. unfold getMessages.
  assert (isValid userId = true /\ isValid otherUserId = true) as [Hu Ho].
  { unfold ConnReq.areConnected in Hc.
    destruct (isValid userId), (isValid otherUserId); simpl in Hc; done. }
  rewrite Hu, Ho, Hc. simpl.
  assert ((limit <? 1) || (100 <? limit) = false) as ->.
  { apply orb_false_iff. split; apply Z.ltb_ge; lia. }
  unfold resolveCursor. destruct (truthy cursor) as [cur|]; [|reflexivity].
  destruct (negb (isValid cur)); [reflexivity|].
  destruct (findById (newObjectId cur) c); reflexivity.
Qed.

(** Whatever [getMessages] returns was selected from the log, and the log
    it leaves is the old one with the unread received messages of the
    page marked read. *)
Lemma getMessages_inv conns callTime elapsed userId otherUserId cursor limit
    direction c page c' :
  getMessages conns callTime elapsed userId otherUserId cursor limit direction c
  = (inr page, c') ->
  exists shown,
    messages page = List.map (formatMessage userId) shown
    /\ (forall m, In m shown ->
          In m c /\ baseQuery (newObjectId userId) (newObjectId otherUserId) m = true)
    /\ c' = afterRead userId shown (callTime + Z.of_N elapsed) c.
Proof.
  intros H.
  destruct (isValid userId) eqn:Hu;
    [|unfold getMessages in H; rewrite Hu in H; discriminate].
  destruct (isValid otherUserId) eqn:Ho;
    [|unfold getMessages in H; rewrite Hu, Ho in H; discriminate].
  destruct ((limit <? 1) || (100 <? limit)) eqn:Hl;
    [unfold getMessages in H; rewrite Hu, Ho, Hl in H; discriminate|].
  destruct (ConnReq.areConnected userId otherUserId conns) eqn:Hc;
    [|unfold getMessages in H; rewrite Hu, Ho, Hl, Hc in H; discriminate].
  apply orb_false_iff in Hl as [Hl1 Hl2].
  apply Z.ltb_ge in Hl1. apply Z.ltb_ge in Hl2.
  rewrite getMessages_unfold in H by (done || lia).
  destruct (resolveCursor cursor c) as [e|t]; [discriminate|].
  cbv zeta in H. injection H as <- <-.
  eexists. split; [reflexivity|]. split; [|reflexivity].
  intros m Hin. apply sortedMessages_In in Hin. tauto.
Qed.

Lemma updateManyRead_findById ids now c id :
  findById id (updateManyRead ids now c)
  = option_map (fun m => if existsb (oid_eqb (_id m)) ids then markRead now m else m)
      (findById id c).
Proof.
  unfold updateManyRead. apply findById_map.
  intros m. by destruct (existsb _ ids).
Qed.

Lemma unread_ids_spec userId shown (m : Message) :
  existsb (oid_eqb (_id m)) (unreadMessageIds userId shown) = true
  <-> exists m', In m' shown /\ _id m' = _id m
        /\ toHexString (receiverId m') = userId /\ isRead m' = false.
Proof.
  unfold unreadMessageIds. rewrite List.existsb_exists. split.
  - intros (i & Hin & Hi). apply oid_eqb_eq in Hi. subst i.
    apply List.in_map_iff in Hin as (m' & Hid & Hin).
    apply List.filter_In in Hin as [Hin Hq].
    apply andb_true_iff in Hq as [Hq1 Hq2]. apply String.eqb_eq in Hq1.
    apply negb_true_iff in Hq2. eauto.
  - intros (m' & Hin & Hid & Hrec & Hread). exists (_id m). split.
    + rewrite <- Hid. apply List.in_map. apply List.filter_In.
      split; [exact Hin|]. apply String.eqb_eq in Hrec. by rewrite Hrec, Hread.
    + apply oid_eqb_refl.
Qed.

Lemma NoDup_id_inj c (m m' : Message) :
  NoDup (List.map _id c) -> In m c -> In m' c -> _id m = _id m' -> m = m'.
Proof.
  intros Hnd Hm Hm' Hid.
  pose proof (findById_NoDup c m Hnd Hm) as H1.
  pose proof (findById_NoDup c m' Hnd Hm') as H2.
  rewrite Hid in H1. congruence.
Qed.

(** What one call does to the stored copy of a message it shows. *)
Lemma getMessages_stored_after conns callTime elapsed userId otherUserId cursor
    limit direction c page c' :
  NoDup (List.map _id c) ->
  getMessages conns callTime elapsed userId otherUserId cursor limit direction c
  = (inr page, c') ->
  forall v, In v (messages page) ->
  exists m, In m c /\ findById (v_id v) c = Some m /\ v = formatMessage userId m
    /\ baseQuery (newObjectId userId) (newObjectId otherUserId) m = true
    /\ findById (v_id v) c'
       = Some (if String.eqb (toHexString (receiverId m)) userId && negb (isRead m)
               then markRead (callTime + Z.of_N elapsed) m else m).
Proof.
  intros Hnd H v Hv.
  apply getMessages_inv in H as (shown & Hmsgs & Hsub & ->).
  rewrite Hmsgs in Hv. apply List.in_map_iff in Hv as (m & <- & Hin).
  destruct (Hsub m Hin) as [Hmc Hq].
  exists m. simpl. rewrite (findById_NoDup c m Hnd Hmc).
  repeat split; try done.
  unfold afterRead.
  destruct (String.eqb (toHexString (receiverId m)) userId && negb (isRead m))
    eqn:Hunread.
  - assert (existsb (oid_eqb (_id m)) (unreadMessageIds userId shown) = true) as Hex.
    { apply unread_ids_spec. exists m. apply andb_true_iff in Hunread as [H1 H2].
      apply String.eqb_eq in H1. apply negb_true_iff in H2. done. }
    assert ((0 <? length (unreadMessageIds userId shown))%nat = true) as ->.
    { apply Nat.ltb_lt. destruct (unreadMessageIds userId shown); simpl in *;
        [discriminate | lia]. }
    rewrite updateManyRead_findById, (findById_NoDup c m Hnd Hmc). simpl.
    by rewrite Hex.
  - destruct (0 <? _)%nat; [|by apply findById_NoDup].
    rewrite updateManyRead_findById, (findById_NoDup c m Hnd Hmc). simpl.
    destruct (existsb _ _) eqn:Hex; [|done].
    apply unread_ids_spec in Hex as (m' & Hin' & Hid & Hrec & Hread).
    assert (m' = m) as -> by (eapply NoDup_id_inj; eauto; by apply Hsub).
    apply String.eqb_eq in Hrec. rewrite Hrec, Hread in Hunread. discriminate.
Qed.

Lemma toHexString_inj a b : toHexString a = toHexString b -> a = b.
Proof. destruct a, b; simpl; congruence. Qed.

Lemma sender_is_not_receiver userId otherUserId (m : Message) :
  newObjectId userId <> newObjectId otherUserId ->
  baseQuery (newObjectId userId) (newObjectId otherUserId) m = true ->
  toHexString (senderId m) = userId ->
  toHexString (receiverId m) <> userId.
Proof.
  intros Hne Hq Hs Hr. apply Hne.
  assert (senderId m = receiverId m) as Heq
    by (apply toHexString_inj; congruence).
  unfold baseQuery in Hq. apply orb_true_iff in Hq as [Hq|Hq];
    apply andb_true_iff in Hq as [H1 H2];
    apply oid_eqb_eq in H1; apply oid_eqb_eq in H2; congruence.
Qed.





(** *** Order of the sorted query *)

Lemma insertSorted_newestFirst x l :
  newestFirst l -> newestFirst (insertSorted before x l).
Proof.
  unfold newestFirst. induction l as [|y l IH]; simpl; intros Hs.
  - repeat constructor.
  - apply StronglySorted_inv in Hs as [Hs Hy].
    destruct (createdAt x <? createdAt y) eqn:E.
    + apply Z.ltb_lt in E. constructor; [by apply IH|].
      eapply Permutation_Forall; [symmetry; apply insertSorted_perm|].
      constructor; [lia | exact Hy].
    + apply Z.ltb_ge in E. constructor.
      * by constructor.
      * constructor; [exact E|].
        eapply List.Forall_impl; [|exact Hy]. simpl. intros. lia.
Qed.

Lemma sort_newestFirst l : newestFirst (sort before l).
Proof.
  induction l as [|x l IH]; simpl; [constructor|].
  by apply insertSorted_newestFirst.
Qed.

Lemma newestFirst_strict l :
  newestFirst l -> NoDup (List.map createdAt l) -> strictlyNewestFirst l.
Proof.
  unfold newestFirst, strictlyNewestFirst.
  induction l as [|x l IH]; simpl; intros Hs Hnd; [constructor|].
  apply StronglySorted_inv in Hs as [Hs Hx].
  apply NoDup_cons in Hnd as [Hnot Hnd].
  constructor; [by apply IH|].
  apply List.Forall_forall. intros y Hy.
  rewrite List.Forall_forall in Hx. specialize (Hx y Hy).
  assert (createdAt y <> createdAt x).
  { intros Heq. apply Hnot. rewrite <- Heq.
    apply list_elem_of_In, List.in_map, Hy. }
  lia.
Qed.

Lemma insertSorted_head x l :
  Forall (fun y => createdAt y <= createdAt x) l ->
  insertSorted before x l = x :: l.
Proof.
  destruct l as [|y l]; simpl; [done|]. intros H.
  apply List.Forall_inv in H.
  assert ((createdAt x <? createdAt y) = false) as -> by (apply Z.ltb_ge; lia).
  done.
Qed.

Lemma filter_insertSorted (P : Message -> bool) x l :
  newestFirst l ->
  List.filter P (insertSorted before x l)
  = if P x then insertSorted before x (List.filter P l) else List.filter P l.
Proof.
  unfold newestFirst. induction l as [|y l IH]; simpl; intros Hs.
  - by destruct (P x).
  - apply StronglySorted_inv in Hs as [Hs Hy].
    destruct (createdAt x <? createdAt y) eqn:E; simpl.
    + rewrite (IH Hs). destruct (P y), (P x); simpl; try done.
      by rewrite E.
    + destruct (P x); [|done].
      symmetry. apply insertSorted_head.
      apply Z.ltb_ge in E.
      assert (Forall (fun z => createdAt z <= createdAt x) (y :: l)) as Hall.
      { constructor; [exact E|].
        eapply List.Forall_impl; [|exact Hy]. simpl. intros. lia. }
      apply List.Forall_forall. intros z Hz.
      rewrite List.Forall_forall in Hall. apply Hall.
      change (In z (List.filter P (y :: l))) in Hz.
      apply List.filter_In in Hz. tauto.
Qed.

Lemma filter_sort (P : Message -> bool) l :
  List.filter P (sort before l) = sort before (List.filter P l).
Proof.
  induction l as [|x l IH]; simpl; [done|].
  rewrite filter_insertSorted by apply sort_newestFirst.
  rewrite IH. by destruct (P x).
Qed.

Lemma filter_andb {A} (p q : A -> bool) l :
  List.filter (fun x => p x && q x) l = List.filter q (List.filter p l).
Proof.
  induction l as [|x l IH]; simpl; [done|].
  destruct (p x); simpl; [|exact IH]. destruct (q x); by rewrite IH.
Qed.

(** With ties excluded, the messages older than the cursor are exactly
    those listed after it. *)
Lemma older_than_cursor pre x R :
  strictlyNewestFirst (pre ++ x :: R) ->
  List.filter (fun m => createdAt m <? createdAt x) (pre ++ x :: R) = R.
Proof.
  unfold strictlyNewestFirst. induction pre as [|p pre IH]; simpl; intros Hs.
  - apply StronglySorted_inv in Hs as [_ Hx].
    rewrite Z.ltb_irrefl. apply List.forallb_filter_id.
    apply List.forallb_forall. intros y Hy.
    rewrite List.Forall_forall in Hx. apply Z.ltb_lt. by apply Hx.
  - apply StronglySorted_inv in Hs as [Hs Hp].
    rewrite List.Forall_forall in Hp.
    assert (createdAt x < createdAt p) by (apply Hp, List.in_elt).
    assert ((createdAt p <? createdAt x) = false) as -> by (apply Z.ltb_ge; lia).
    by apply IH.
Qed.

Lemma sort_map (f : Message -> Message) d l :
  (forall m, createdAt (f m) = createdAt m) ->
  sort d (List.map f l) = List.map f (sort d l).
Proof.
  intros Hf. induction l as [|x l IH]; simpl; [done|]. rewrite IH.
  generalize (sort d l) as s. clear IH.
  induction s as [|y s IH]; simpl; [done|].
  assert (precedes d (f y) (f x) = precedes d y x) as ->
    by (destruct d; simpl; by rewrite !Hf).
  destruct (precedes d y x); simpl; [by rewrite IH | done].
Qed.

Lemma filter_map_key {A} (P : A -> bool) (f : A -> A) l :
  (forall m, P (f m) = P m) ->
  List.filter P (List.map f l) = List.map f (List.filter P l).
Proof.
  intros HP. induction l as [|x l IH]; simpl; [done|].
  rewrite HP. destruct (P x); simpl; by rewrite IH.
Qed.

Lemma strictlyNewestFirst_app_r l1 l2 :
  strictlyNewestFirst (l1 ++ l2) -> strictlyNewestFirst l2.
Proof.
  unfold strictlyNewestFirst. induction l1 as [|x l1 IH]; simpl; [done|].
  intros Hs. apply StronglySorted_inv in Hs as [Hs _]. by apply IH.
Qed.

Lemma strictlyNewestFirst_take n l :
  strictlyNewestFirst l -> strictlyNewestFirst (take n l).
Proof.
  unfold strictlyNewestFirst. revert l.
  induction n as [|n IH]; intros [|x l] Hs; simpl; try constructor.
  - apply StronglySorted_inv in Hs as [Hs _]. by apply IH.
  - apply StronglySorted_inv in Hs as [_ Hx].
    apply List.Forall_forall. intros y Hy. apply take_In in Hy.
    rewrite List.Forall_forall in Hx. by apply Hx.
Qed.

Lemma chronological_page userId l :
  strictlyNewestFirst l ->
  chronological (List.map (formatMessage userId) (rev l)).
Proof.
  unfold strictlyNewestFirst, chronological.
  induction l as [|x l IH]; simpl; intros Hs; [constructor|].
  apply StronglySorted_inv in Hs as [Hs Hx].
  rewrite List.map_app. simpl.
  specialize (IH Hs). revert IH.
  assert (Forall (fun v => vCreatedAt v < createdAt x)
            (List.map (formatMessage userId) (rev l))) as Hall.
  { apply List.Forall_forall. intros v Hv.
    apply List.in_map_iff in Hv as (m & <- & Hm). apply List.in_rev in Hm.
    rewrite List.Forall_forall in Hx. simpl. by apply Hx. }
  revert Hall. generalize (List.map (formatMessage userId) (rev l)) as p.
  induction p as [|v p IHp]; simpl; intros Hall Hp.
  - repeat constructor.
  - apply StronglySorted_inv in Hp as [Hp Hv].
    apply List.Forall_cons_iff in Hall as [Hv1 Hall].
    constructor; [by apply IHp|].
    apply List.Forall_app. split; [exact Hv|]. by repeat constructor.
Qed.

(** *** One page, then all of them *)

Lemma sortedMessages_before u o t limit c :
  1 <= limit ->
  sortedMessages u o before t limit c
  = rev (take (Z.to_nat limit)
           (List.filter (cursorQuery before t)
              (sort before (List.filter (baseQuery u o) c)))).
Proof.
  intros Hl. unfold sortedMessages, foundMessages.
  rewrite filter_andb, <- filter_sort.
  set (S := List.filter (cursorQuery before t) _).
  replace (Z.to_nat (limit + 1)) with (Datatypes.S (Z.to_nat limit)) by lia.
  f_equal. destruct (limit <? _) eqn:E.
  - rewrite take_take. f_equal. lia.
  - apply Z.ltb_ge in E. rewrite length_take in E.
    rewrite !take_ge by lia. done.
Qed.

Lemma afterRead_map userId shown now c :
  exists g, keepsKey g /\ afterRead userId shown now c = List.map g c.
Proof.
  unfold afterRead. destruct (0 <? _)%nat.
  - eexists. split; [|reflexivity]. intros m.
    destruct (existsb _ _); done.
  - exists (fun m => m). split; [done|]. symmetry. apply List.map_id.
Qed.

Lemma NoDup_map_filter (q : Message -> bool) c :
  NoDup (List.map _id c) -> NoDup (List.map _id (List.filter q c)).
Proof.
  induction c as [|x c IH]; simpl; [done|]. intros Hnd.
  apply NoDup_cons in Hnd as [Hx Hnd].
  destruct (q x); simpl; [|by apply IH].
  apply NoDup_cons. split; [|by apply IH].
  intros Hin. apply Hx.
  apply list_elem_of_In in Hin. apply list_elem_of_In.
  apply List.in_map_iff in Hin as (m & Hid & Hm).
  apply List.filter_In in Hm as [Hm _].
  rewrite <- Hid. by apply List.in_map.
Qed.

Section Paging.

Variable conns : ConnReq.Collection.
Variables (callTime : Z) (elapsed : N).
Variables userId otherUserId : string.
Variable limit : Z.

Hypothesis limit_in_range : 1 <= limit <= 100.
Hypothesis connected : ConnReq.areConnected userId otherUserId conns = true.

Lemma conversation_map g c :
  keepsKey g -> conversation userId otherUserId (List.map g c) = List.map g (conversation userId otherUserId c).
Proof.
  intros Hg. unfold conversation, pairMessages.
  rewrite filter_map_key.
  - apply sort_map. intros m. apply Hg.
  - intros m. unfold baseQuery. destruct (Hg m) as (_ & _ & -> & ->). done.
Qed.

Lemma wellFormed_map g c : keepsKey g -> wellFormed c -> wellFormed (List.map g c).
Proof.
  intros Hg [Hnd Hcan]. split.
  - rewrite List.map_map.
    erewrite List.map_ext; [exact Hnd|]. intros m. apply Hg.
  - apply List.Forall_forall. intros m Hm.
    apply List.in_map_iff in Hm as (m0 & <- & Hm0).
    rewrite List.Forall_forall in Hcan. destruct (Hg m0) as [-> _].
    by apply Hcan.
Qed.

Lemma distinct_times_map g c :
  keepsKey g ->
  NoDup (List.map createdAt (pairMessages userId otherUserId c)) ->
  NoDup (List.map createdAt (pairMessages userId otherUserId (List.map g c))).
Proof.
  intros Hg Hnd. unfold pairMessages. rewrite filter_map_key.
  - rewrite List.map_map. erewrite List.map_ext; [exact Hnd|].
    intros m. apply Hg.
  - intros m. unfold baseQuery. destruct (Hg m) as (_ & _ & -> & ->). done.
Qed.

Lemma conversation_strict c :
  NoDup (List.map createdAt (pairMessages userId otherUserId c)) ->
  strictlyNewestFirst (conversation userId otherUserId c).
Proof.
  intros Hnd. apply newestFirst_strict; [apply sort_newestFirst|].
  assert (Permutation (List.map createdAt (conversation userId otherUserId c))
            (List.map createdAt (pairMessages userId otherUserId c))) as Hp
    by apply Permutation_map, sort_perm.
  by rewrite Hp.
Qed.

Lemma resolveCursor_at c x :
  wellFormed c -> In x c ->
  resolveCursor (Some (toHexString (_id x))) c = inr (Some (createdAt x)).
Proof.
  intros [Hnd Hcan] Hin. rewrite List.Forall_forall in Hcan.
  destruct (Hcan x Hin) as [Hvalid Hround].
  unfold resolveCursor, truthy.
  destruct (String.eqb (toHexString (_id x)) "") eqn:E.
  { apply String.eqb_eq in E. rewrite E in Hvalid. discriminate. }
  rewrite Hvalid, Hround. simpl. by rewrite (findById_NoDup c x Hnd Hin).
Qed.

Lemma getMessages_next_page c cursor P R :
  wellFormed c ->
  NoDup (List.map createdAt (pairMessages userId otherUserId c)) ->
  conversation userId otherUserId c = P ++ R ->
  standsAt cursor P ->
  exists more,
    getMessages conns callTime elapsed userId otherUserId cursor limit before c
    = (inr (mkPage
              (List.map (formatMessage userId) (rev (take (Z.to_nat limit) R)))
              (option_map v_id
                 (head (List.map (formatMessage userId)
                          (rev (take (Z.to_nat limit) R)))))
              more before),
       afterRead userId (rev (take (Z.to_nat limit) R))
         (callTime + Z.of_N elapsed) c).
Proof.
  intros Hwf Hnd Hconv Hat.
  rewrite getMessages_unfold by done.
  assert (exists t, resolveCursor cursor c = inr t
            /\ List.filter (cursorQuery before t) (conversation userId otherUserId c) = R)
    as (t & -> & Ht).
  { destruct Hat as [[-> ->]|(P' & x & -> & ->)].
    - exists None. split; [done|]. rewrite Hconv. simpl.
      apply List.forallb_filter_id. by apply List.forallb_forall.
    - exists (Some (createdAt x)). split.
      + apply resolveCursor_at; [done|].
        assert (In x (conversation userId otherUserId c)) as Hx
          by (rewrite Hconv, <- List.app_assoc; apply List.in_elt).
        apply sort_In, List.filter_In in Hx. tauto.
      + rewrite Hconv, <- List.app_assoc. simpl.
        apply older_than_cursor.
        pose proof (conversation_strict c Hnd) as Hs.
        by rewrite Hconv, <- List.app_assoc in Hs. }
  cbv zeta. rewrite sortedMessages_before by lia.
  fold (pairMessages userId otherUserId c). fold (conversation userId otherUserId c).
  rewrite Ht. eexists. reflexivity.
Qed.

Lemma fetchAll_from fuel : forall c cursor P R,
  wellFormed c ->
  NoDup (List.map createdAt (pairMessages userId otherUserId c)) ->
  conversation userId otherUserId c = P ++ R ->
  standsAt cursor P ->
  (length R < fuel)%nat ->
  exists pages,
    fetchAll fuel conns callTime elapsed userId otherUserId cursor limit c
    = Some pages
    /\ List.map v_id (concat (List.map (@rev _) pages)) = List.map _id R
    /\ Forall chronological pages.
Proof.
  induction fuel as [|fuel IH]; intros c cursor P R Hwf Hnd Hconv Hat Hfuel;
    [lia|].
  destruct (getMessages_next_page c cursor P R Hwf Hnd Hconv Hat) as [more Hget].
  assert (Hstrict : strictlyNewestFirst R).
  { pose proof (conversation_strict c Hnd) as Hs. rewrite Hconv in Hs.
    by apply strictlyNewestFirst_app_r in Hs. }
  assert (Hchrono : chronological
            (List.map (formatMessage userId) (rev (take (Z.to_nat limit) R)))).
  { by apply chronological_page, strictlyNewestFirst_take. }
  simpl. rewrite Hget. simpl.
  destruct (afterRead_map userId (rev (take (Z.to_nat limit) R))
              (callTime + Z.of_N elapsed) c) as (g & Hg & ->).
  pose proof (take_drop (Z.to_nat limit) R) as Hsplit.
  destruct (rev (take (Z.to_nat limit) R)) as [|y q] eqn:Hrev.
  - simpl. exists [[]]. split; [done|]. split; [|by repeat constructor].
    simpl. apply (f_equal (@rev _)) in Hrev. rewrite List.rev_involutive in Hrev.
    simpl in Hrev. destruct R as [|r R]; [done|].
    replace (Z.to_nat limit) with (S (Z.to_nat limit - 1)) in Hrev by lia.
    discriminate.
  - simpl.
    assert (Htake : take (Z.to_nat limit) R = rev q ++ [y]).
    { apply (f_equal (@rev _)) in Hrev. by rewrite List.rev_involutive in Hrev. }
    destruct (IH (List.map g c) (Some (toHexString (_id y)))
                (List.map g (P ++ rev q) ++ [g y])
                (List.map g (drop (Z.to_nat limit) R)))
      as (pages & Hpages & Hids & Hsorted).
    + by apply wellFormed_map.
    + by apply distinct_times_map.
    + rewrite conversation_map, Hconv by done.
      rewrite <- Hsplit at 1. rewrite Htake.
      rewrite !List.map_app. simpl. by rewrite <- !List.app_assoc.
    + right. exists (List.map g (P ++ rev q)), (g y). split; [done|].
      by destruct (Hg y) as [-> _].
    + rewrite List.length_map, length_drop.
      assert (length (take (Z.to_nat limit) R) > 0)%nat as Hpos
        by (rewrite Htake, List.length_app; simpl; lia).
      rewrite length_take in Hpos. lia.
    + rewrite Hpages. simpl. eexists. split; [reflexivity|]. split.
      * simpl. rewrite List.map_app, Hids.
        rewrite <- List.map_rev, !List.map_app, !List.map_map. simpl.
        rewrite <- Hsplit at 2. rewrite Htake, !List.map_app. simpl.
        rewrite <- !List.app_assoc. simpl.
        f_equal. f_equal. apply List.map_ext. intros m. apply Hg.
      * constructor; [exact Hchrono | exact Hsorted].
Qed.

End Paging.

Lemma rev_concat_map_rev {A} (L : list (list A)) :
  rev (concat (List.map (@rev _) L)) = concat (rev L).
Proof.
  induction L as [|x L IH]; simpl; [done|].
  rewrite List.rev_app_distr, List.rev_involutive, IH, List.concat_app.
  simpl. by rewrite List.app_nil_r.
Qed.

Lemma concat_map_rev_perm {A} (L : list (list A)) :
  Permutation (concat L) (concat (List.map (@rev _) L)).
Proof.
  induction L as [|x L IH]; simpl; [done|].
  apply Permutation_app; [apply Permutation_rev | exact IH].
Qed.

(** C6 (as amended).  For a connected pair whose messages carry pairwise
    distinct [createdAt] values, and any page size in [1,100], the client
    that starts without a cursor and follows [nextCursor] with
    direction [before] terminates; its pages hold every message of the
    pair exactly once; each page is in ascending chronological order; and
    the pages read from the last fetched to the first are the whole
    conversation, oldest message first. *)
Theorem pagination_complete_for_distinct_timestamps
    (conns : ConnReq.Collection) (callTime : Z) (elapsed : N)
    (userId otherUserId : string) (limit : Z) (c : Collection) (fuel : nat) :
  1 <= limit <= 100 ->
  ConnReq.areConnected userId otherUserId conns = true ->
  wellFormed c ->
  NoDup (List.map createdAt (pairMessages userId otherUserId c)) ->
  (length (pairMessages userId otherUserId c) < fuel)%nat ->
  exists pages,
    fetchAll fuel conns callTime elapsed userId otherUserId None limit c
    = Some pages
    /\ Permutation (List.map v_id (concat pages))
         (List.map _id (pairMessages userId otherUserId c))
    /\ NoDup (List.map v_id (concat pages))
    /\ Forall chronological pages
    /\ List.map v_id (concat (rev pages))
       = List.map _id (rev (sort before (pairMessages userId otherUserId c))).
Proof.
  intros Hl Hc Hwf Hnd Hfuel.
  destruct (fetchAll_from conns callTime elapsed userId otherUserId limit Hl Hc
              fuel c None [] (sort before (pairMessages userId otherUserId c)))
    as (pages & Hpages & Hids & Hsorted); try done.
  { by left. }
  { by rewrite (Permutation_length (sort_perm before _)). }
  assert (Hperm : Permutation (List.map v_id (concat pages))
                    (List.map _id (pairMessages userId otherUserId c))).
  { rewrite (Permutation_map v_id (concat_map_rev_perm pages)), Hids.
    apply Permutation_map, sort_perm. }
  exists pages. split; [exact Hpages|]. split; [exact Hperm|]. split; [|split].
  - rewrite Hperm. apply NoDup_map_filter. apply Hwf.
  - exact Hsorted.
  - rewrite <- rev_concat_map_rev, List.map_rev, Hids. by rewrite List.map_rev.
Qed.

Lemma pagination_complete_for_distinct_timestamps_witness :
  exists pages,
    fetchAll 3 Samples.aliceAccepted 1000 5 Samples.bob Samples.alice None 1
      Samples.sampleLog = Some pages
    /\ List.map v_id (concat (rev pages)) = [Samples.id1; Samples.id2].
Proof.
  destruct (pagination_complete_for_distinct_timestamps Samples.aliceAccepted
              1000 5 Samples.bob Samples.alice 1 Samples.sampleLog 3)
    as (pages & Hpages & _ & _ & _ & Hall).
  - lia.
  - reflexivity.
  - split.
    + repeat (apply NoDup_cons_2;
               [rewrite ?elem_of_cons, ?elem_of_nil; intuition discriminate|]).
      apply NoDup_nil_2.
    + repeat constructor.
  - replace (List.map createdAt
               (pairMessages Samples.bob Samples.alice Samples.sampleLog))
      with [100; 200] by (vm_compute; reflexivity).
    repeat (apply NoDup_cons_2;
             [rewrite ?elem_of_cons, ?elem_of_nil; intuition discriminate|]).
    apply NoDup_nil_2.
  - replace (pairMessages Samples.bob Samples.alice Samples.sampleLog)
      with Samples.sampleLog by (vm_compute; reflexivity).
    simpl. lia.
  - exists pages. split; [exact Hpages|]. rewrite Hall. reflexivity.
Defined.

(** C6 as stated fails when two messages of the pair share a timestamp.
    With the two messages of [sameInstantLog] and page size 1, the first
    page shows one of them and [hasMore]; the cursor filter
    [createdAt < 100] then selects nothing, so the second page is empty
    and the other message is never shown. *)
Lemma pagination_skips_message_with_equal_timestamp :
  ConnReq.areConnected Samples.bob Samples.alice Samples.aliceAccepted = true
  /\ List.map _id (pairMessages Samples.bob Samples.alice Samples.sameInstantLog)
     = [Samples.id1; Samples.id2]
  /\ exists pages,
       fetchAll 3 Samples.aliceAccepted 1000 5 Samples.bob Samples.alice None 1
         Samples.sameInstantLog = Some pages
       /\ List.map (List.map v_id) pages = [[Samples.id1]; []]
       /\ ~ Permutation (List.map v_id (concat pages))
            (List.map _id (pairMessages Samples.bob Samples.alice
                             Samples.sameInstantLog)).
Proof.
  split; [reflexivity|]. split; [reflexivity|].
  eexists. split; [vm_compute; reflexivity|]. split; [reflexivity|].
  intros Hp. apply Permutation_length in Hp. simpl in Hp. discriminate.
Qed.

End MsgFacts.

(** ** Task consumers *)

Module QueueFacts.
Import Queue.

Lemma publish_timers q m b : timers (publish q m b) = timers b.
Proof. done. Qed.

Lemma fireTimers_timers b : timers (fireTimers b) = [].
Proof.
  unfold fireTimers.
  generalize (mkBroker (queues b) [] (attempts b)) (eq_refl : timers (mkBroker (queues b) [] (attempts b)) = []).
  induction (timers b) as [|[[d q] m] ts IH]; simpl; intros acc Hacc; [done|].
  apply IH. by rewrite publish_timers.
Qed.

Lemma fireTimers_idle b : timers b = [] -> fireTimers b = b.
Proof. destruct b as [qs ts n]. simpl. by intros ->. Qed.

Section Loop.

Variables queue dlq : string.

Lemma consume_idle outcomes b :
  timers b = [] -> queueOf queue b = [] -> consume queue dlq outcomes b = b.
Proof.
  intros Ht Hq. destruct outcomes as [|o os]; simpl; [done|].
  by rewrite (fireTimers_idle b Ht), Hq.
Qed.

Lemma consume_app os1 os2 b :
  consume queue dlq (os1 ++ os2) b
  = consume queue dlq os2 (consume queue dlq os1 b).
Proof.
  revert b. induction os1 as [|o os1 IH]; intros b; simpl; [done|].
  destruct (queueOf queue (fireTimers b)) as [|msg rest] eqn:Hq.
  - symmetry. apply consume_idle; [apply fireTimers_timers | exact Hq].
  - apply IH.
Qed.

End Loop.

(** Four failures in a row: the deliveries of the task and of its three
    retries.  What is left is the payload on the dead-letter queue. *)
Lemma four_failures k payload :
  startConsuming k [false; false; false; false] (publishTask k payload declared)
  = mkBroker (<[dlqName k := [mkConsumeMessage payload (mkProperties true ∅)]]>
                (queues declared)) [] 4.
Proof. destruct k; vm_compute; reflexivity. Qed.

(** The retries are scheduled 1, 2 and 4 seconds after the failures and
    carry the counts 1, 2 and 3. *)
Lemma retry_schedule k payload :
  List.map (fun n =>
      List.map (fun t => (fst (fst t), retryCountOf (snd t)))
        (timers (startConsuming k (repeat false n) (publishTask k payload declared))))
    [1; 2; 3; 4]%nat
  = [[(1000, 1)]; [(2000, 2)]; [(4000, 3)]; []].
Proof. destruct k; vm_compute; reflexivity. Qed.

(** C3 (as amended).  For each consumer, a task whose processing fails four
    times (its delivery and each of its three retries) is not attempted a
    fifth time on the origin queue, whatever the later outcomes would be;
    the origin queue and the timer table are empty, and the dead-letter
    queue holds the task exactly once, payload unchanged. *)
Theorem four_failures_then_dead_letter_once
    (k : Consumer) (payload : list Byte.byte) (later : list bool) :
  let b := startConsuming k (false :: false :: false :: false :: later)
             (publishTask k payload declared) in
  attempts b = 4%nat
  /\ queueOf (queueName k) b = []
  /\ timers b = []
  /\ List.map content (queueOf (dlqName k) b) = [payload]
  /\ queueOf (dlqName k) b = [mkConsumeMessage payload (mkProperties true ∅)].
Proof.
  cbv zeta. unfold startConsuming.
  change (false :: false :: false :: false :: later)
    with ([false; false; false; false] ++ later).
  rewrite consume_app.
  change (consume (queueName k) (dlqName k) [false; false; false; false]
            (publishTask k payload declared))
    with (startConsuming k [false; false; false; false]
            (publishTask k payload declared)).
  rewrite four_failures, consume_idle.
  - destruct k; vm_compute; done.
  - done.
  - destruct k; vm_compute; reflexivity.
Qed.

(** A task is attempted at most four times and dead-lettered at most once,
    whatever the outcomes. *)
Lemma at_most_four_attempts k payload outcomes :
  let b := startConsuming k outcomes (publishTask k payload declared) in
  (attempts b <= 4)%nat /\ (length (queueOf (dlqName k) b) <= 1)%nat.
Proof.
  cbv zeta.
  destruct outcomes as [|o1 [|o2 [|o3 [|o4 later]]]].
  - destruct k; vm_compute; split; lia.
  - destruct k, o1; vm_compute; split; lia.
  - destruct k, o1, o2; vm_compute; split; lia.
  - destruct k, o1, o2, o3; vm_compute; split; lia.
  - unfold startConsuming.
    change (o1 :: o2 :: o3 :: o4 :: later) with ([o1; o2; o3; o4] ++ later).
    rewrite consume_app, consume_idle;
      destruct k, o1, o2, o3, o4; vm_compute; (reflexivity || (split; lia)).
Qed.

(** C3 as stated fails at both consumers: a task that fails exactly three
    times is attempted a fourth time on the origin queue (the retry count
    read after the third failure is 2, below [maxRetries]), and when that
    attempt succeeds the dead-letter queue stays empty. *)
Lemma three_failures_are_followed_by_a_fourth_attempt :
  (let b := startConsuming FileUploadConsumer [false; false; false; true]
              (publishTask FileUploadConsumer Samples.emptyTask declared) in
   attempts b = 4%nat /\ queueOf fileUploadDlq b = [])
  /\ (let b := startConsuming NotificationConsumer [false; false; false; true]
                 (publishTask NotificationConsumer Samples.emptyTask declared) in
      attempts b = 4%nat /\ queueOf notificationDlq b = [])
  /\ List.map (fun t => (content (snd t), retryCountOf (snd t)))
       (timers (startConsuming FileUploadConsumer [false; false; false]
                  (publishTask FileUploadConsumer Samples.emptyTask declared)))
     = [(Samples.emptyTask, 3)].
Proof. vm_compute. done. Qed.

End QueueFacts.

(** ** Eligibility engine and deep connections *)

Module TrailFacts.
Import Trail.

Lemma inIds_In ids x : inIds ids x = true <-> In x ids.
Proof.
  unfold inIds. rewrite List.existsb_exists. split.
  - intros (y & Hy & Heq). apply oid_eqb_eq in Heq. by subst.
  - intros H. exists x. split; [exact H | apply oid_eqb_refl].
Qed.

Lemma length_zero_nil {A} (l : list A) : Nat.eqb (length l) 0 = true <-> l = [].
Proof. destruct l; simpl; split; congruence. Qed.

(** *** Reflections of one user on the media of another *)

(** [ReflectionService] writes to its own collection and to its Redis
    counters only. *)
Lemma addReflection_trail k s :
  Reflections.trail (snd (Reflections.addReflection k s)) = Reflections.trail s.
Proof.
  unfold Reflections.addReflection.
  destruct (negb (isValid (Reflections.addMediaId k))); [done|].
  destruct (negb (isValid (Reflections.addUserId k))); [done|].
  destruct (Reflections.incr _ _ _) as [currentCount counters']. simpl.
  destruct (_ <? currentCount); [done|].
  destruct (List.find _ (media (Reflections.trail s))) as [m|]; [|done].
  destruct (List.find _ (albums (Reflections.trail s))) as [a|]; [|done].
  destruct (negb _ && negb _); [done|].
  destruct (List.find _ (Reflections.reflections s)) as [existing|]; [done|].
  by destruct (Reflections.create _ _).
Qed.

Lemma removeReflection_trail mediaId userId s :
  Reflections.trail (snd (Reflections.removeReflection mediaId userId s))
  = Reflections.trail s.
Proof.
  unfold Reflections.removeReflection.
  destruct (negb (isValid mediaId)); [done|].
  destruct (negb (isValid userId)); [done|].
  destruct (Reflections.deleteOne _ _) as [deletedCount c'].
  by destruct (deletedCount =? 0).
Qed.

Lemma run_trail ops : forall s,
  Reflections.trail (Reflections.run ops s) = Reflections.trail s.
Proof.
  induction ops as [|op ops IH]; intros s; [done|].
  unfold Reflections.run in *. simpl. rewrite IH.
  destruct op; simpl; [apply addReflection_trail | apply removeReflection_trail].
Qed.

(** C4 (as amended).  For well-formed ids, the reflections
    [getMediaReflectionsByUser] returns for (A, B) are exactly the stored
    MediaReflection documents authored by A whose media is not deleted and
    belongs to an album owned by B, whether or not that album is marked
    deleted.  The reflections [ReflectionService] keeps, the ones that
    carry [isAnonymous], are never consulted: whatever calls of
    [addReflection] (anonymous or not) and [removeReflection] are made,
    the set and the verdict of the check stay what they were. *)
Theorem reflections_on_media_of_any_album_of_target
    (db : DB) (A B : string) (r : MediaReflection) :
  isValid A = true -> isValid B = true ->
  (In r (getMediaReflectionsByUser db A B)
   <-> In r (mediaReflections db)
       /\ userId r = newObjectId A
       /\ exists m, In m (media db) /\ media_id m = mediaId r
            /\ mediaIsDeleted m = false
            /\ exists a, In a (albums db) /\ album_id a = mediaAlbumId m
                 /\ albumUserId a = newObjectId B)
  /\ forall (s : Reflections.Store) (ops : list Reflections.Op),
       Reflections.trail s = db ->
       getMediaReflectionsByUser (Reflections.trail (Reflections.run ops s)) A B
       = getMediaReflectionsByUser db A B
       /\ checkConnectionEligibility (Reflections.trail (Reflections.run ops s)) A B
          = checkConnectionEligibility db A B.
Proof.
  intros HA HB. split; [|intros s ops <-; by rewrite run_trail].
  unfold getMediaReflectionsByUser. rewrite HA, HB. simpl.
  set (targetAlbums := List.filter _ (albums db)).
  set (targetMedia := List.filter _ (media db)).
  assert (Hmedia : forall m, In m targetMedia <->
            In m (media db) /\ mediaIsDeleted m = false
            /\ exists a, In a (albums db) /\ album_id a = mediaAlbumId m
                 /\ albumUserId a = newObjectId B).
  { intros m. unfold targetMedia. rewrite List.filter_In, andb_true_iff.
    rewrite inIds_In, negb_true_iff, List.in_map_iff. unfold targetAlbums.
    split.
    - intros (Hm & (a & Hid & Ha) & Hdel). apply List.filter_In in Ha as [Ha Ho].
      apply oid_eqb_eq in Ho. eauto 10.
    - intros (Hm & Hdel & a & Ha & Hid & Ho). repeat split; try done.
      exists a. split; [done|]. apply List.filter_In. split; [done|].
      by apply oid_eqb_eq. }
  assert (Hspec : In r (List.filter
              (fun r0 => oid_eqb (userId r0) (newObjectId A)
                         && inIds (List.map media_id targetMedia) (mediaId r0))
              (mediaReflections db))
            <-> In r (mediaReflections db) /\ userId r = newObjectId A
                /\ exists m, In m (media db) /\ media_id m = mediaId r
                     /\ mediaIsDeleted m = false
                     /\ exists a, In a (albums db) /\ album_id a = mediaAlbumId m
                          /\ albumUserId a = newObjectId B).
  { rewrite List.filter_In, andb_true_iff, oid_eqb_eq, inIds_In, List.in_map_iff.
    split.
    - intros (Hr & Hu & m & Hid & Hm).
      apply Hmedia in Hm as (Hm & Hdel & Halb).
      split; [done|]. split; [done|]. exists m. tauto.
    - intros (Hr & Hu & m & Hm & Hid & Hrest). repeat split; try done.
      exists m. split; [done|]. apply Hmedia. tauto. }
  destruct (Nat.eqb (length (List.map album_id targetAlbums)) 0) eqn:Ealb.
  { apply length_zero_nil in Ealb. split; [done|].
    intros (_ & _ & m & Hm & _ & _ & a & Ha & _ & Ho). exfalso.
    assert (In (album_id a) (List.map album_id targetAlbums)) as Hin.
    { apply List.in_map. apply List.filter_In. split; [done|]. by apply oid_eqb_eq. }
    by rewrite Ealb in Hin. }
  destruct (Nat.eqb (length (List.map media_id targetMedia)) 0) eqn:Emed.
  { apply length_zero_nil in Emed. split; [done|].
    intros (_ & _ & m & Hm & Hid & Hrest). exfalso.
    assert (In (media_id m) (List.map media_id targetMedia)) as Hin.
    { apply List.in_map. apply Hmedia. tauto. }
    by rewrite Emed in Hin. }
  exact Hspec.
Qed.

Lemma reflections_on_media_of_any_album_of_target_witness :
  In Samples.aliceReflection
    (getMediaReflectionsByUser Samples.eligibleDb Samples.alice Samples.bob)
  /\ getMediaReflectionsByUser
       (Reflections.trail
          (Reflections.run [Reflections.Add MoreSamples.aliceReflects]
             (Reflections.mkStore Samples.eligibleDb [] ∅)))
       Samples.alice Samples.bob
     = [Samples.aliceReflection].
Proof.
  destruct (reflections_on_media_of_any_album_of_target Samples.eligibleDb
              Samples.alice Samples.bob Samples.aliceReflection eq_refl eq_refl)
    as [Hset Hframe].
  split.
  - apply Hset.
    split; [simpl; auto|]. split; [reflexivity|].
    exists (mkMedia Samples.photoOfBob Samples.albumOfBob false).
    split; [simpl; auto|]. split; [reflexivity|]. split; [reflexivity|].
    exists (mkAlbum Samples.albumOfBob "Hills" None (newObjectId Samples.bob)
              false true).
    split; [simpl; auto|]. split; reflexivity.
  - destruct (Hframe (Reflections.mkStore Samples.eligibleDb [] ∅)
                [Reflections.Add MoreSamples.aliceReflects] eq_refl) as [-> _].
    reflexivity.
Defined.

(** C4 as stated fails on both counts.  Alice's reflection on a photo in
    an album Bob has deleted is still in the set, although no album of Bob
    that is not deleted holds the photo.  And when Alice and Bob, who own
    and favourited each other's albums, each leave an anonymous reflection
    on the other's undeleted photo in an undeleted album, both calls
    succeed, the two reflections are stored, and yet the set for (Alice,
    Bob) is empty and the pair is not eligible, for want of reflections. *)
Lemma reflection_set_counts_deleted_albums_and_misses_anonymous_reflections :
  (getMediaReflectionsByUser Samples.deletedAlbumDb Samples.alice Samples.bob
   = [Samples.aliceReflection]
   /\ ~ exists m a,
          In m (media Samples.deletedAlbumDb)
          /\ media_id m = mediaId Samples.aliceReflection
          /\ mediaIsDeleted m = false
          /\ In a (albums Samples.deletedAlbumDb)
          /\ album_id a = mediaAlbumId m
          /\ albumUserId a = newObjectId Samples.bob
          /\ albumIsDeleted a = false)
  /\ (fst (Reflections.addReflection MoreSamples.aliceReflects
             MoreSamples.quietStore)
      = inr (Reflections.mkReflected true "Reflection added")
      /\ Reflections.reflections MoreSamples.anonymousStore
         = [Reflections.mkReflection Samples.id1 Samples.photoOfBob
              (newObjectId Samples.alice) Reflections.MOMENT (Some "the light")
              true 60 60;
            Reflections.mkReflection Samples.id2 Samples.photoOfAlice
              (newObjectId Samples.bob) Reflections.STORY None true 61 61]
      /\ In (mkMedia Samples.photoOfBob Samples.albumOfBob false)
           (media (Reflections.trail MoreSamples.anonymousStore))
      /\ In (mkAlbum Samples.albumOfBob "Hills" None (newObjectId Samples.bob)
               false true)
           (albums (Reflections.trail MoreSamples.anonymousStore))
      /\ getMediaReflectionsByUser (Reflections.trail MoreSamples.anonymousStore)
           Samples.alice Samples.bob = []
      /\ checkConnectionEligibility (Reflections.trail MoreSamples.anonymousStore)
           Samples.alice Samples.bob
         = inr (mkEligibility false
                  [mkSummary Samples.albumOfBob "Hills" None;
                   mkSummary Samples.albumOfAlice "Lakes" None]
                  0
                  ["No bidirectional reflections found (both users must reflect on each other's media)"])).
Proof.
  split.
  - split; [reflexivity|].
    intros (m & a & _ & _ & _ & Ha & _ & _ & Hdel).
    simpl in Ha. destruct Ha as [<-|[]]. discriminate.
  - split; [by vm_compute|]. split; [by vm_compute|].
    split; [by vm_compute; left|]. split; [by vm_compute; left|].
    split; by vm_compute.
Qed.

(** *** Symmetry of the eligibility check *)

Lemma check_unfold db A B :
  checkConnectionEligibility db A B
  = if negb (isValid A) || negb (isValid B)
    then inl (BadRequestException "Invalid userId")
    else if String.eqb A B
    then inr (mkEligibility false [] 0 ["Cannot connect with yourself"])
    else if Nat.eqb (length (favoriteAlbumIds db (newObjectId A))) 0
    then inr (mkEligibility false [] 0 ["No mutual album favorites"])
    else if Nat.eqb (length (mutualFavoriteAlbumIds db (newObjectId A)
                               (newObjectId B))) 0
    then inr (mkEligibility false [] 0 ["No mutual album favorites"])
    else inr (verdict db A B
                (List.filter
                   (fun a => inIds (mutualFavoriteAlbumIds db (newObjectId A)
                                      (newObjectId B)) (album_id a)
                             && negb (albumIsDeleted a)) (albums db))).
Proof.
  unfold checkConnectionEligibility, verdict, mutualFavoriteAlbumIds,
    favoriteAlbumIds.
  repeat match goal with |- context [if ?b then _ else _] =>
    destruct b; try reflexivity end.
Qed.

Lemma mutual_inIds db u1 u2 x :
  inIds (mutualFavoriteAlbumIds db u1 u2) x
  = inIds (favoriteAlbumIds db u1) x && inIds (favoriteAlbumIds db u2) x.
Proof.
  apply eq_true_iff_eq. rewrite andb_true_iff, !inIds_In.
  unfold mutualFavoriteAlbumIds. rewrite List.in_map_iff. split.
  - intros (f & <- & Hf). apply List.filter_In in Hf as [Hf Hq].
    apply andb_true_iff in Hq as [Hu Hin]. apply inIds_In in Hin.
    split; [exact Hin|]. unfold favoriteAlbumIds at 1.
    apply List.in_map. by apply List.filter_In.
  - intros [H1 H2]. unfold favoriteAlbumIds in H2.
    apply List.in_map_iff in H2 as (f & <- & Hf).
    apply List.filter_In in Hf as [Hf Hu].
    exists f. split; [done|]. apply List.filter_In. split; [done|].
    rewrite Hu. simpl. by apply inIds_In.
Qed.

Lemma empty_by_inIds l1 l2 :
  (forall x, inIds l1 x = inIds l2 x) ->
  Nat.eqb (length l1) 0 = Nat.eqb (length l2) 0.
Proof.
  intros H. destruct l1 as [|x l1], l2 as [|y l2]; simpl; try done.
  - specialize (H y). unfold inIds in H. simpl in H.
    by rewrite oid_eqb_refl in H.
  - specialize (H x). unfold inIds in H. simpl in H.
    by rewrite oid_eqb_refl in H.
Qed.

Lemma mutual_empty_comm db u1 u2 :
  Nat.eqb (length (mutualFavoriteAlbumIds db u1 u2)) 0
  = Nat.eqb (length (mutualFavoriteAlbumIds db u2 u1)) 0.
Proof.
  apply empty_by_inIds. intros x. rewrite !mutual_inIds. apply andb_comm.
Qed.

Lemma no_favorites_no_mutual db u1 u2 :
  Nat.eqb (length (favoriteAlbumIds db u1)) 0 = true ->
  Nat.eqb (length (mutualFavoriteAlbumIds db u1 u2)) 0 = true
  /\ Nat.eqb (length (mutualFavoriteAlbumIds db u2 u1)) 0 = true.
Proof.
  intros H. apply length_zero_nil in H.
  assert (Nat.eqb (length (mutualFavoriteAlbumIds db u1 u2)) 0
          = Nat.eqb (length (@nil ObjectId)) 0) as Hm.
  { apply empty_by_inIds. intros x. rewrite mutual_inIds, H. done. }
  split; [exact Hm|]. by rewrite mutual_empty_comm.
Qed.

Lemma verdict_comm db A B l : verdict db A B l = verdict db B A l.
Proof.
  unfold verdict. cbv zeta.
  rewrite (orb_comm (Nat.eqb (length (List.filter
             (fun a => String.eqb (toHexString (albumUserId a)) A) l)) 0)).
  destruct (_ || _); [done|].
  rewrite (orb_comm (Nat.eqb (length (getMediaReflectionsByUser db A B)) 0)).
  rewrite (Z.add_comm (Z.of_nat (length (getMediaReflectionsByUser db A B)))).
  done.
Qed.

Lemma checkConnectionEligibility_comm db A B :
  checkConnectionEligibility db A B = checkConnectionEligibility db B A.
Proof.
  rewrite !check_unfold.
  rewrite (orb_comm (negb (isValid A))). destruct (_ || _); [done|].
  rewrite (String.eqb_sym A B). destruct (String.eqb B A); [done|].
  destruct (Nat.eqb (length (favoriteAlbumIds db (newObjectId A))) 0) eqn:EA.
  { destruct (no_favorites_no_mutual db _ (newObjectId B) EA) as [_ ->].
    by destruct (Nat.eqb (length (favoriteAlbumIds db (newObjectId B))) 0). }
  destruct (Nat.eqb (length (favoriteAlbumIds db (newObjectId B))) 0) eqn:EB.
  { destruct (no_favorites_no_mutual db _ (newObjectId A) EB) as [_ ->]. done. }
  rewrite (mutual_empty_comm db (newObjectId A)).
  destruct (Nat.eqb (length (mutualFavoriteAlbumIds db (newObjectId B)
                               (newObjectId A))) 0); [done|].
  rewrite verdict_comm. do 2 f_equal.
  apply List.filter_ext. intros a. rewrite !mutual_inIds.
  f_equal. apply andb_comm.
Qed.

(** C7.  With well-formed ids, [checkConnectionEligibility] answers for
    (A, B) and for (B, A) with the same [eligible] flag, the same
    [reflectionCount] and the same mutual albums (as computed here even in
    the same order). *)
Theorem eligibility_is_symmetric (db : DB) (A B : string) :
  isValid A = true -> isValid B = true ->
  exists e1 e2,
    checkConnectionEligibility db A B = inr e1
    /\ checkConnectionEligibility db B A = inr e2
    /\ eligible e1 = eligible e2
    /\ eligReflectionCount e1 = eligReflectionCount e2
    /\ Permutation (mutualAlbums e1) (mutualAlbums e2).
Proof.
  intros HA HB. rewrite (checkConnectionEligibility_comm db A B).
  destruct (checkConnectionEligibility db B A) as [e|e] eqn:E.
  - exfalso. rewrite check_unfold, HA, HB in E. simpl in E.
    repeat match type of E with (if ?b then _ else _) = _ =>
      destruct b; try discriminate end.
  - exists e, e. done.
Qed.

Lemma eligibility_is_symmetric_witness :
  exists e1 e2,
    checkConnectionEligibility Samples.eligibleDb Samples.alice Samples.bob = inr e1
    /\ checkConnectionEligibility Samples.eligibleDb Samples.bob Samples.alice = inr e2
    /\ eligible e1 = true /\ eligible e2 = true
    /\ eligReflectionCount e1 = 2 /\ eligReflectionCount e2 = 2
    /\ Permutation (mutualAlbums e1) (mutualAlbums e2).
Proof.
  destruct (eligibility_is_symmetric Samples.eligibleDb Samples.alice Samples.bob
              eq_refl eq_refl) as (e1 & e2 & H1 & H2 & He & Hc & Hp).
  exists e1, e2. split; [exact H1|]. split; [exact H2|].
  vm_compute in H1. injection H1 as <-.
  vm_compute in H2. injection H2 as <-.
  repeat split; try reflexivity.
Defined.

(** *** One document per pair *)

Lemma ltb_asym s t : String.ltb s t = true -> String.ltb t s = false.
Proof.
  unfold String.ltb. rewrite (String.compare_antisym t s).
  by destruct (String.compare s t).
Qed.

Lemma ltb_trichotomy s t :
  String.ltb s t = false -> String.ltb t s = false -> s = t.
Proof.
  unfold String.ltb. rewrite (String.compare_antisym t s).
  destruct (String.compare s t) eqn:E; simpl; try discriminate.
  intros _ _. by apply String.compare_eq_iff.
Qed.

Lemma normalizeUserIds_ordered u1 u2 :
  String.ltb (toHexString (snd (normalizeUserIds u1 u2)))
             (toHexString (fst (normalizeUserIds u1 u2))) = false.
Proof.
  unfold normalizeUserIds.
  destruct (String.ltb (toHexString (newObjectId u1))
              (toHexString (newObjectId u2))) eqn:E; simpl;
    [by apply ltb_asym | exact E].
Qed.

Lemma normalizeUserIds_sym u1 u2 :
  newObjectId u1 <> newObjectId u2 ->
  normalizeUserIds u1 u2 = normalizeUserIds u2 u1.
Proof.
  intros Hne. unfold normalizeUserIds.
  destruct (String.ltb (toHexString (newObjectId u1)) _) eqn:E1.
  - by rewrite (ltb_asym _ _ E1).
  - destruct (String.ltb (toHexString (newObjectId u2)) _) eqn:E2; [done|].
    exfalso. apply Hne. unfold newObjectId in *. simpl in *.
    f_equal. by apply ltb_trichotomy.
Qed.

Lemma normalizeUserIds_pair u1 u2 :
  normalizeUserIds u1 u2 = (newObjectId u1, newObjectId u2)
  \/ normalizeUserIds u1 u2 = (newObjectId u2, newObjectId u1).
Proof. unfold normalizeUserIds. destruct (String.ltb _ _); auto. Qed.

Lemma preSave_ordered d : ordered (preSave d).
Proof.
  unfold ordered, preSave.
  destruct (String.ltb (toHexString (userB d)) _) eqn:E; simpl;
    [by apply ltb_asym | exact E].
Qed.

Lemma preSave_id d : ordered d -> preSave d = d.
Proof. unfold ordered, preSave. by intros ->. Qed.

Lemma updateOne_skeleton q now f c :
  (forall r, skeleton (f r) = skeleton r) ->
  List.map skeleton (updateOne q now f c) = List.map skeleton c.
Proof.
  intros Hf. induction c as [|r c IH]; simpl; [done|].
  destruct (q r); simpl; [|by rewrite IH].
  f_equal. specialize (Hf r). unfold skeleton in *. simpl. done.
Qed.

Lemma pairDocs_skeleton a b c1 : forall c2,
  List.map skeleton c1 = List.map skeleton c2 ->
  List.map skeleton (pairDocs a b c1) = List.map skeleton (pairDocs a b c2).
Proof.
  induction c1 as [|r1 c1 IH]; intros [|r2 c2]; simpl; try done.
  intros H. injection H as Hid HA HB Hrest.
  assert (byPair a b r1 || byPair b a r1 = byPair a b r2 || byPair b a r2) as ->.
  { unfold byPair. by rewrite HA, HB. }
  destruct (_ || _); simpl; [f_equal; [unfold skeleton; congruence|]|];
    by apply IH.
Qed.

Lemma pairInvariant_skeleton c1 c2 :
  List.map skeleton c1 = List.map skeleton c2 ->
  pairInvariant c1 -> pairInvariant c2.
Proof.
  intros Hsk [Hord Hnd]. split.
  - revert c2 Hsk. induction c1 as [|r1 c1 IH]; intros [|r2 c2]; simpl;
      try done; intros H. injection H as Hid HA HB Hrest.
    apply List.Forall_cons_iff in Hord as [H1 Hord]. constructor.
    + unfold ordered in *. by rewrite <- HA, <- HB.
    + eapply IH; try done. by apply NoDup_cons in Hnd as [_ Hnd].
  - assert (List.map (fun r => (userA r, userB r)) c2
            = List.map (fun r => (userA r, userB r)) c1) as ->; [|done].
    assert (Hp : forall c, List.map (fun r => (userA r, userB r)) c
              = List.map (fun s : ObjectId * ObjectId * ObjectId =>
                            (snd (fst s), snd s)) (List.map skeleton c))
      by (intros c; by rewrite List.map_map).
    by rewrite (Hp c2), (Hp c1), Hsk.
Qed.

Lemma pairInvariant_snoc c d :
  pairInvariant c -> ordered d ->
  ~ In (userA d, userB d) (List.map (fun r => (userA r, userB r)) c) ->
  pairInvariant (c ++ [d]).
Proof.
  intros [Hord Hnd] Hd Hfresh. split.
  - apply List.Forall_app. split; [done | by repeat constructor].
  - rewrite List.map_app. simpl. apply NoDup_app. split; [done|]. split.
    + intros p Hp Hq. apply list_elem_of_singleton in Hq. subst p.
      apply Hfresh. by apply list_elem_of_In.
    + apply NoDup_singleton.
Qed.

(** Under the invariant a pair has at most one document. *)
Lemma pairInvariant_single a b c :
  pairInvariant c -> (length (pairDocs a b c) <= 1)%nat.
Proof.
  intros [Hord Hnd].
  set (k := if String.ltb (toHexString a) (toHexString b) then (a, b) else (b, a)).
  assert (Hk : forall r, ordered r -> byPair a b r || byPair b a r = true ->
                 (userA r, userB r) = k).
  { intros r Hr Hq. unfold ordered in Hr. unfold byPair in Hq.
    apply orb_true_iff in Hq as [Hq|Hq]; apply andb_true_iff in Hq as [H1 H2];
      apply oid_eqb_eq in H1; apply oid_eqb_eq in H2; rewrite H1, H2 in *;
      unfold k; destruct (String.ltb (toHexString a) (toHexString b)) eqn:E;
      try done; try congruence.
    - assert (a = b) as -> by (apply MsgFacts.toHexString_inj; by apply ltb_trichotomy).
      done.
  }
  unfold pairDocs. induction c as [|r c IH]; simpl; [lia|].
  apply List.Forall_cons_iff in Hord as [Hr Hord].
  simpl in Hnd. apply NoDup_cons in Hnd as [Hfresh Hnd].
  destruct (byPair a b r || byPair b a r) eqn:Hq; [|by apply IH].
  simpl. assert (List.filter (fun r0 => byPair a b r0 || byPair b a r0) c = [])
    as ->; [|simpl; lia].
  apply find_none_filter. destruct (List.find _ c) as [r'|] eqn:Hf; [|done].
  apply List.find_some in Hf as [Hin Hq'].
  exfalso. apply Hfresh. rewrite (Hk r Hr Hq).
  rewrite List.Forall_forall in Hord. rewrite <- (Hk r' (Hord r' Hin) Hq').
  apply list_elem_of_In. by apply (List.in_map (fun r => (userA r, userB r))).
Qed.

Lemma no_extra (c : list TrailConnection) :
  exists extra,
    List.map skeleton c = List.map skeleton (c ++ extra)
    /\ (extra = [] \/ exists d, extra = [d] /\ ordered d
          /\ ~ In (userA d, userB d) (List.map (fun r => (userA r, userB r)) c)).
Proof. exists []. rewrite List.app_nil_r. auto. Qed.

Lemma same_skeleton_no_extra (c c' : list TrailConnection) :
  List.map skeleton c' = List.map skeleton c ->
  exists extra,
    List.map skeleton c' = List.map skeleton (c ++ extra)
    /\ (extra = [] \/ exists d, extra = [d] /\ ordered d
          /\ ~ In (userA d, userB d) (List.map (fun r => (userA r, userB r)) c)).
Proof. intros H. exists []. rewrite List.app_nil_r. auto. Qed.

Lemma In_same_skeleton (c c' : list TrailConnection) d :
  List.map skeleton c' = List.map skeleton c -> In d c ->
  exists d', In d' c' /\ skeleton d' = skeleton d.
Proof.
  intros H Hd. apply (List.in_map skeleton) in Hd. rewrite <- H in Hd.
  apply List.in_map_iff in Hd as (d' & Hs & Hin). eauto.
Qed.

(** [createConnection] leaves the identities and pairs of the stored
    documents alone and adds at most one document, ordered and for a pair
    not yet stored; when it succeeds a document for the normalized pair is
    stored. *)
Lemma createConnection_cases newId now u1 u2 db :
  (exists extra,
     List.map skeleton (connections (snd (createConnection newId now u1 u2 db)))
     = List.map skeleton (connections db ++ extra)
     /\ (extra = [] \/ exists d, extra = [d] /\ ordered d
           /\ ~ In (userA d, userB d)
                (List.map (fun r => (userA r, userB r)) (connections db))))
  /\ (forall r, fst (createConnection newId now u1 u2 db) = inr r ->
        exists d, In d (connections (snd (createConnection newId now u1 u2 db)))
          /\ (userA d, userB d) = normalizeUserIds u1 u2).
Proof.
  unfold createConnection.
  destruct (negb (isValid u1) || negb (isValid u2));
    [split; [apply no_extra | discriminate]|].
  destruct (String.eqb u1 u2); [split; [apply no_extra | discriminate]|].
  destruct (checkConnectionEligibility db u1 u2) as [e|el];
    [split; [apply no_extra | discriminate]|].
  destruct (negb (eligible el)); [split; [apply no_extra | discriminate]|].
  pose proof (normalizeUserIds_ordered u1 u2) as Hord.
  destruct (normalizeUserIds u1 u2) as [x y]. simpl in Hord.
  destruct (findOne (byPair x y) (connections db)) as [existing|] eqn:Hf.
  - apply List.find_some in Hf as [Hin Hq].
    assert ((userA existing, userB existing) = (x, y)) as Hpair.
    { unfold byPair in Hq. apply andb_true_iff in Hq as [H1 H2].
      apply oid_eqb_eq in H1. apply oid_eqb_eq in H2. congruence. }
    destruct (isActive existing); simpl.
    + split; [apply no_extra|]. intros _ _. eauto.
    + assert (Hsk : List.map skeleton
                (updateOne (byId (_id existing)) now
                   (setEligibility (Some true) el) (connections db))
              = List.map skeleton (connections db))
        by (by apply updateOne_skeleton).
      split; [by apply same_skeleton_no_extra|]. intros _ _.
      destruct (In_same_skeleton _ _ existing Hsk Hin) as (d' & Hd' & Hs).
      exists d'. split; [exact Hd'|]. unfold skeleton in Hs. congruence.
  - set (d0 := mkConnection newId x y (List.map summary_id (mutualAlbums el))
                 (eligReflectionCount el) true now now).
    assert (preSave d0 = d0) as Hd0 by (by apply preSave_id).
    unfold create. rewrite Hd0.
    destruct (existsb (fun r => oid_eqb (_id r) (_id d0)) (connections db));
      [split; [apply no_extra | discriminate]|].
    destruct (existsb _ (connections db)) eqn:Hp;
      [split; [apply no_extra | discriminate]|].
    simpl. split.
    + exists [d0]. split; [done|]. right. exists d0. split; [done|].
      split; [exact Hord|]. intros Hin.
      apply List.in_map_iff in Hin as (r & Hr & Hin).
      assert (existsb (fun r0 => oid_eqb (userA r0) (userA d0)
                                 && oid_eqb (userB r0) (userB d0))
                (connections db) = true) as Hex.
      { apply List.existsb_exists. exists r. split; [done|].
        injection Hr as -> ->. by rewrite !oid_eqb_refl. }
      congruence.
    + intros _ _. exists d0. split; [apply List.in_or_app; simpl; auto | done].
Qed.

Lemma updateConnectionEligibility_skeleton now u1 u2 db :
  List.map skeleton (connections (snd (updateConnectionEligibility now u1 u2 db)))
  = List.map skeleton (connections db).
Proof.
  unfold updateConnectionEligibility.
  destruct (negb (isValid u1) || negb (isValid u2)); [done|].
  destruct (normalizeUserIds u1 u2) as [x y].
  destruct (findOne _ (connections db)) as [connection|]; [|done].
  destruct (checkConnectionEligibility db u1 u2) as [e|el]; [done|].
  destruct (negb (eligible el)); simpl; by rewrite !updateOne_skeleton.
Qed.

Lemma removeConnection_skeleton now u1 u2 db :
  List.map skeleton (connections (snd (removeConnection now u1 u2 db)))
  = List.map skeleton (connections db).
Proof.
  unfold removeConnection.
  destruct (negb (isValid u1) || negb (isValid u2)); [done|].
  destruct (normalizeUserIds u1 u2) as [x y].
  destruct (_ =? 0); simpl; [done|]. by apply updateOne_skeleton.
Qed.

Lemma applyOp_step op db :
  exists extra,
    List.map skeleton (connections (applyOp op db))
    = List.map skeleton (connections db ++ extra)
    /\ (extra = [] \/ exists d, extra = [d] /\ ordered d
          /\ ~ In (userA d, userB d)
               (List.map (fun r => (userA r, userB r)) (connections db))).
Proof.
  destruct op as [newId now u1 u2|now u1 u2|now u1 u2|f a m r]; simpl.
  - apply createConnection_cases.
  - apply same_skeleton_no_extra, updateConnectionEligibility_skeleton.
  - apply same_skeleton_no_extra, removeConnection_skeleton.
  - apply no_extra.
Qed.

Lemma applyOp_invariant op db :
  pairInvariant (connections db) -> pairInvariant (connections (applyOp op db)).
Proof.
  intros Hinv. destruct (applyOp_step op db) as (extra & Hsk & Hextra).
  apply (pairInvariant_skeleton _ _ (eq_sym Hsk)).
  destruct Hextra as [->|(d & -> & Hord & Hfresh)].
  - by rewrite List.app_nil_r.
  - by apply pairInvariant_snoc.
Qed.

Lemma runOps_invariant ops : forall db,
  pairInvariant (connections db) ->
  pairInvariant (connections (runOps ops db))
  /\ exists extra,
       List.map skeleton (connections (runOps ops db))
       = List.map skeleton (connections db ++ extra).
Proof.
  induction ops as [|op ops IH]; intros db Hinv.
  - split; [done|]. exists []. by rewrite List.app_nil_r.
  - change (runOps (op :: ops) db) with (runOps ops (applyOp op db)).
    destruct (IH (applyOp op db) (applyOp_invariant op db Hinv))
      as (Hinv' & extra' & Hsk').
    split; [exact Hinv'|].
    destruct (applyOp_step op db) as (extra & Hsk & _).
    exists (extra ++ extra').
    rewrite Hsk', List.map_app, Hsk, <- List.map_app.
    by rewrite <- List.app_assoc.
Qed.

(** A document stored for a pair stays the only one for it. *)
Lemma pair_document_stable a b c c' extra d :
  pairInvariant c' ->
  List.map skeleton c' = List.map skeleton (c ++ extra) ->
  pairDocs a b c = [d] ->
  exists d', pairDocs a b c' = [d'] /\ skeleton d' = skeleton d.
Proof.
  intros Hinv Hsk Hd.
  pose proof (pairDocs_skeleton a b c' _ Hsk) as Hp.
  unfold pairDocs at 2 in Hp. rewrite List.filter_app in Hp.
  fold (pairDocs a b c) in Hp. rewrite Hd in Hp. simpl in Hp.
  pose proof (pairInvariant_single a b c' Hinv) as Hlen.
  destruct (pairDocs a b c') as [|d' [|d'' rest]]; simpl in *; try done; [|lia].
  exists d'. split; [done|]. congruence.
Qed.

(** C5.  For well-formed ids of two distinct users and a connection
    collection that satisfies what the save hook and the unique index
    maintain, [createConnection] called with (A, B) or with (B, A)
    addresses the same normalized pair; when it succeeds the pair has
    exactly one document, with [userA < userB] as strings; and after any
    further creations, re-evaluations, removals and edits of the edges
    the pair still has exactly that one document (same [_id], same
    users). *)
Theorem connection_pair_is_normalized_and_single
    (db : DB) (A B : string) (newId : ObjectId) (now : Z) :
  isValid A = true -> isValid B = true ->
  newObjectId A <> newObjectId B ->
  pairInvariant (connections db) ->
  normalizeUserIds A B = normalizeUserIds B A
  /\ forall u1 u2 res,
       (u1, u2) = (A, B) \/ (u1, u2) = (B, A) ->
       fst (createConnection newId now u1 u2 db) = inr res ->
       let db1 := snd (createConnection newId now u1 u2 db) in
       exists d,
         pairDocs (newObjectId A) (newObjectId B) (connections db1) = [d]
         /\ String.ltb (toHexString (userA d)) (toHexString (userB d)) = true
         /\ (userA d, userB d) = normalizeUserIds A B
         /\ forall ops,
              exists d',
                pairDocs (newObjectId A) (newObjectId B)
                  (connections (runOps ops db1)) = [d']
                /\ skeleton d' = skeleton d.
Proof.
  intros HA HB Hne Hinv.
  pose proof (normalizeUserIds_sym A B Hne) as Hsym.
  split; [exact Hsym|].
  intros u1 u2 res Hu Hres db1.
  assert (Hnorm : normalizeUserIds u1 u2 = normalizeUserIds A B)
    by (destruct Hu as [Hu|Hu]; injection Hu as -> ->; congruence).
  destruct (createConnection_cases newId now u1 u2 db) as [_ Hsucc].
  destruct (Hsucc res Hres) as (d & Hin & Hpair). fold db1 in Hin.
  rewrite Hnorm in Hpair.
  assert (Hinv1 : pairInvariant (connections db1))
    by apply (applyOp_invariant (Create newId now u1 u2) db Hinv).
  assert (Hmatch : byPair (newObjectId A) (newObjectId B) d
                   || byPair (newObjectId B) (newObjectId A) d = true).
  { unfold byPair. destruct (normalizeUserIds_pair A B) as [Hn|Hn];
      rewrite Hn in Hpair; injection Hpair as -> ->;
      rewrite !oid_eqb_refl; simpl; [done | apply orb_true_r]. }
  assert (Hd : pairDocs (newObjectId A) (newObjectId B) (connections db1) = [d]).
  { pose proof (pairInvariant_single (newObjectId A) (newObjectId B) _ Hinv1)
      as Hlen.
    assert (In d (pairDocs (newObjectId A) (newObjectId B) (connections db1)))
      as Hind by (apply List.filter_In; done).
    destruct (pairDocs _ _ (connections db1)) as [|d1 [|d2 rest]];
      simpl in *; [done | | lia].
    destruct Hind as [->|[]]. done. }
  exists d. split; [exact Hd|]. split; [|split; [exact Hpair|]].
  - destruct Hinv1 as [Hord _]. rewrite List.Forall_forall in Hord.
    specialize (Hord d Hin). unfold ordered in Hord.
    destruct (String.ltb (toHexString (userA d)) (toHexString (userB d))) eqn:E;
      [done|].
    exfalso. apply Hne.
    assert (userA d = userB d) as Heq
      by (apply MsgFacts.toHexString_inj; by apply ltb_trichotomy).
    destruct (normalizeUserIds_pair A B) as [Hn|Hn];
      rewrite Hn in Hpair; injection Hpair as H1 H2; congruence.
  - intros ops.
    destruct (runOps_invariant ops db1 Hinv1) as (Hinv' & extra & Hsk).
    by apply (pair_document_stable _ _ (connections db1) _ extra).
Qed.

Lemma connection_pair_is_normalized_and_single_witness :
  let db1 := snd (createConnection Samples.id3 50 Samples.bob Samples.alice
                    Samples.eligibleDb) in
  exists d,
    pairDocs (newObjectId Samples.alice) (newObjectId Samples.bob)
      (connections db1) = [d]
    /\ skeleton d = (Samples.id3, newObjectId Samples.alice, newObjectId Samples.bob)
    /\ String.ltb (toHexString (userA d)) (toHexString (userB d)) = true
    /\ exists d',
         pairDocs (newObjectId Samples.alice) (newObjectId Samples.bob)
           (connections
              (runOps [Create Samples.id4 60 Samples.alice Samples.bob;
                       Reevaluate 70 Samples.bob Samples.alice;
                       EditEdges [] [] [] [];
                       Reevaluate 80 Samples.alice Samples.bob;
                       Create Samples.id4 90 Samples.bob Samples.alice] db1))
         = [d']
         /\ skeleton d' = skeleton d.
Proof.
  intros db1.
  destruct (connection_pair_is_normalized_and_single Samples.eligibleDb
              Samples.alice Samples.bob Samples.id3 50 eq_refl eq_refl)
    as [_ H].
  - vm_compute. discriminate.
  - split; [constructor | apply NoDup_nil_2].
  - destruct (H Samples.bob Samples.alice
                (mkCreated true "Connection created" (Some Samples.id3)))
      as (d & Hd & Hlt & Hpair & Hlater).
    + by right.
    + vm_compute. reflexivity.
    + exists d. split; [exact Hd|]. split.
      * vm_compute in Hd. injection Hd as <-. reflexivity.
      * split; [exact Hlt|]. apply Hlater.
Defined.

End TrailFacts.

(** ** Relationship store: further properties *)

Module ConnReqRunsFacts.
Import ConnReq ConnReqRuns.

Lemma find_ext_eq {A} (p q : A -> bool) (l : list A) :
  (forall x, p x = q x) -> List.find p l = List.find q l.
Proof.
  intros H. induction l as [|x l IH]; simpl; [done|].
  rewrite H. by rewrite IH.
Qed.

(** X4.  [areConnected] does not depend on the order of its two users. *)
Theorem areConnected_symmetric (userId1 userId2 : string) (c : Collection) :
  areConnected userId1 userId2 c = areConnected userId2 userId1 c.
Proof.
  unfold areConnected, findOne.
  rewrite (orb_comm (negb (isValid userId1))).
  destruct (negb (isValid userId2) || negb (isValid userId1)); [done|].
  by rewrite (find_ext_eq _ _ c
                (ConnReqFacts.pairQuery_swap (newObjectId userId1)
                   (newObjectId userId2) ACCEPTED)).
Qed.

Lemma save_split now d c r :
  findById (_id d) c = Some r ->
  exists pre post,
    c = pre ++ r :: post
    /\ save now d c = pre ++ touch now d :: post
    /\ Forall (fun x => oid_eqb (_id x) (_id d) = false) pre.
Proof.
  unfold findById. induction c as [|x c IH]; simpl; [done|].
  destruct (oid_eqb (_id x) (_id d)) eqn:E.
  - intros [= ->]. exists [], c. done.
  - intros H. destruct (IH H) as (pre & post & -> & Hs & Hpre).
    exists (x :: pre), post. simpl. rewrite Hs. repeat split; try done.
    by constructor.
Qed.

Lemma respond_pending_count d now userId requestId c a b :
  (length (List.filter (pairQuery a b PENDING)
             (snd (respond d now userId requestId c)))
   <= length (List.filter (pairQuery a b PENDING) c))%nat.
Proof.
  rewrite ConnReqFacts.respond_unfold.
  destruct (negb (isValid userId) || negb (isValid requestId)); [done|].
  destruct (findById (newObjectId requestId) c) as [r|] eqn:Hf; [|done].
  destruct (negb (String.eqb _ userId)); [done|].
  destruct (negb (status_eqb (status r) PENDING)); [done|]. simpl.
  set (r' := mkRequest _ _ _ _ _ _).
  assert (Hid : _id r' = newObjectId requestId)
    by (simpl; by apply ConnReqFacts.request_findById_id in Hf).
  rewrite <- Hid in Hf.
  destruct (save_split now r' c r Hf) as (pre & post & -> & -> & _).
  rewrite !List.filter_app, !List.length_app. simpl.
  assert (pairQuery a b PENDING (touch now r') = false) as ->.
  { unfold pairQuery. simpl. destruct d; simpl; apply andb_false_r. }
  destruct (pairQuery a b PENDING r); simpl; lia.
Qed.

Lemma perform_keeps_pendingUnique call c :
  pendingUnique c -> pendingUnique (perform call c).
Proof.
  intros Hu. destruct call as [k|now u r|now u r]; simpl.
  - by apply ConnReqFacts.sendRequest_sequential_pending_unique.
  - intros a b. pose proof (respond_pending_count accept now u r c a b).
    specialize (Hu a b). simpl in *. lia.
  - intros a b. pose proof (respond_pending_count reject now u r c a b).
    specialize (Hu a b). simpl in *. lia.
Qed.

(** X1.  Calls of [sendRequest], [acceptRequest] and [rejectRequest] run one
    after another keep at most one pending request per unordered pair. *)
Theorem sequential_calls_keep_one_pending_per_pair
    (calls : list Call) (c : Collection) :
  pendingUnique c -> pendingUnique (performAll calls c).
Proof.
  revert c. induction calls as [|call calls IH]; intros c Hu; [done|].
  apply IH. by apply perform_keeps_pendingUnique.
Qed.

Lemma sequential_calls_keep_one_pending_per_pair_witness :
  List.map (fun r => (_id r, status r))
    (performAll [CallSend Samples.aliceAsksBob;
                 CallSend Samples.bobAsksAlice;
                 CallReject 20 Samples.bob "000000000000000000000001";
                 CallSend Samples.bobAsksAlice;
                 CallSend Samples.aliceAsksBobAgain] [])
  = [(Samples.id1, REJECTED); (Samples.id2, PENDING)]
  /\ pendingUnique
       (performAll [CallSend Samples.aliceAsksBob;
                    CallSend Samples.bobAsksAlice;
                    CallReject 20 Samples.bob "000000000000000000000001";
                    CallSend Samples.bobAsksAlice;
                    CallSend Samples.aliceAsksBobAgain] []).
Proof.
  split; [vm_compute; reflexivity|].
  apply sequential_calls_keep_one_pending_per_pair.
  intros a b. simpl. lia.
Defined.

Lemma find_none_all {A} (q : A -> bool) (l : list A) :
  List.find q l = None <-> forall x, In x l -> q x = false.
Proof.
  split; [intros H x Hx; by apply (List.find_none _ _ H)|].
  intros H. destruct (List.find q l) as [x|] eqn:E; [|done].
  apply List.find_some in E as [Hin Hq]. rewrite (H x Hin) in Hq. discriminate.
Qed.

Lemma existsb_false_all {A} (q : A -> bool) (l : list A) :
  existsb q l = false <-> forall x, In x l -> q x = false.
Proof.
  induction l as [|y l IH]; simpl; [split; [intros _ x [] | done]|].
  rewrite orb_false_iff, IH. split.
  - intros [Hy Hl] x [<-|Hx]; auto.
  - intros H. split; [apply H; by left | intros x Hx; apply H; by right].
Qed.

(** The three parts of the statement when the call throws: [absurd] turns
    the six conditions of success into a contradiction. *)
Ltac thrown absurd :=
  split;
  [split;
   [intros [? Hthrown]; discriminate
   |let H1 := fresh in let H2 := fresh in let H3 := fresh in
    let H4 := fresh in let H5 := fresh in let H6 := fresh in
    intros (H1 & H2 & H3 & H4 & H5 & H6); exfalso; absurd H1 H2 H3 H4 H5 H6]
  |split; [intros [? Hthrown]; discriminate | done]].

(** [sendRequest] when nothing stands in its way. *)
Lemma sendRequest_clear (k : SendCall) (c : Collection) :
  isValid (callRequester k) = true -> isValid (callRecipient k) = true ->
  callRequester k <> callRecipient k ->
  (forall r, In r c ->
     pairQuery (newObjectId (callRequester k)) (newObjectId (callRecipient k))
       ACCEPTED r = false) ->
  (forall r, In r c ->
     pairQuery (newObjectId (callRequester k)) (newObjectId (callRecipient k))
       PENDING r = false) ->
  (forall r, In r c -> _id r <> callNewId k) ->
  sendRequest k c = (inr (callNewId k), c ++ [pendingDocument k]).
Proof.
  intros HA HB Hne Hacc Hpend Hfresh. unfold sendRequest, findOne.
  rewrite HA, HB. simpl. apply String.eqb_neq in Hne. rewrite Hne.
  rewrite (proj2 (find_none_all _ _) Hacc), (proj2 (find_none_all _ _) Hpend).
  unfold create.
  assert (existsb (fun r => oid_eqb (_id r) (_id (pendingDocument k))) c = false)
    as ->.
  { apply existsb_false_all. intros r Hr. apply oid_eqb_neq. by apply Hfresh. }
  assert (existsb (indexClash (pendingDocument k)) c = false) as ->; [|done].
  apply existsb_false_all. intros r Hr. pose proof (Hpend r Hr) as Hq.
  unfold indexClash, pairQuery in *. simpl in *.
  destruct (status_eqb (status r) PENDING); simpl in *; [|done].
  rewrite andb_true_r in Hq. apply orb_false_iff in Hq as [Hq _]. exact Hq.
Qed.

(** X2.  [sendRequest] creates a request exactly when both ids are well
    formed and differ as strings (two spellings of one ObjectId count as
    different), no accepted and no pending request links the ObjectIds of
    the two in either direction, and the generated [_id] is unused; it
    then appends one pending document and returns its [_id]; in every
    other case it throws and leaves the collection as it was. *)
Theorem sendRequest_succeeds_iff (k : SendCall) (c : Collection) :
  let a := newObjectId (callRequester k) in
  let b := newObjectId (callRecipient k) in
  ((exists id, fst (sendRequest k c) = inr id)
   <-> isValid (callRequester k) = true /\ isValid (callRecipient k) = true
       /\ callRequester k <> callRecipient k
       /\ (forall r, In r c -> pairQuery a b ACCEPTED r = false)
       /\ (forall r, In r c -> pairQuery a b PENDING r = false)
       /\ (forall r, In r c -> _id r <> callNewId k))
  /\ ((exists id, fst (sendRequest k c) = inr id) ->
      sendRequest k c = (inr (callNewId k), c ++ [pendingDocument k]))
  /\ ((forall id, fst (sendRequest k c) <> inr id) -> snd (sendRequest k c) = c).
Proof.
  cbv zeta. unfold sendRequest.
  destruct (isValid (callRequester k)) eqn:HA; simpl;
    [|thrown ltac:(fun H1 H2 H3 H4 H5 H6 => discriminate)].
  destruct (isValid (callRecipient k)) eqn:HB; simpl;
    [|thrown ltac:(fun H1 H2 H3 H4 H5 H6 => discriminate)].
  destruct (String.eqb (callRequester k) (callRecipient k)) eqn:Hne; simpl.
  { apply String.eqb_eq in Hne.
    thrown ltac:(fun H1 H2 H3 H4 H5 H6 => by apply H3). }
  apply String.eqb_neq in Hne.
  unfold findOne.
  destruct (List.find (pairQuery _ _ ACCEPTED) c) as [acc|] eqn:Hacc; simpl.
  { apply List.find_some in Hacc as [Hin Hq].
    thrown ltac:(fun H1 H2 H3 H4 H5 H6 =>
                   rewrite (H4 acc Hin) in Hq; discriminate). }
  destruct (List.find (pairQuery _ _ PENDING) c) as [p|] eqn:Hp; simpl.
  { apply List.find_some in Hp as [Hin Hq].
    destruct (String.eqb _ (callRequester k));
      thrown ltac:(fun H1 H2 H3 H4 H5 H6 =>
                     rewrite (H5 p Hin) in Hq; discriminate). }
  assert (existsb (indexClash (pendingDocument k)) c = false) as Hclash.
  { apply existsb_false_all. intros r Hr.
    pose proof (proj1 (find_none_all _ _) Hp r Hr) as Hq.
    unfold indexClash, pairQuery in *. simpl in *.
    destruct (status_eqb (status r) PENDING); simpl in *; [|done].
    rewrite andb_true_r in Hq. apply orb_false_iff in Hq as [Hq _].
    exact Hq. }
  unfold create. rewrite Hclash.
  destruct (existsb (fun r => oid_eqb (_id r) (_id (pendingDocument k))) c)
    eqn:Hid; simpl.
  - apply List.existsb_exists in Hid as (r & Hr & Heq).
    apply oid_eqb_eq in Heq.
    thrown ltac:(fun H1 H2 H3 H4 H5 H6 => by apply (H6 r Hr)).
  - split; [split|split].
    + intros _. repeat split; try done.
      * by apply find_none_all.
      * by apply find_none_all.
      * intros r Hr Heq.
        pose proof (proj1 (existsb_false_all _ _) Hid r Hr) as Hq.
        simpl in Hq. rewrite Heq, oid_eqb_refl in Hq. discriminate.
    + eauto.
    + done.
    + intros Hno. by specialize (Hno (callNewId k)).
Qed.

Lemma save_In now d c r :
  findById (_id d) c = Some r -> In (touch now d) (save now d c).
Proof.
  intros H. destruct (save_split now d c r H) as (pre & post & _ & -> & _).
  apply List.in_elt.
Qed.

Lemma areConnected_by_record a b c r :
  isValid a = true -> isValid b = true ->
  In r c -> pairQuery (newObjectId a) (newObjectId b) ACCEPTED r = true ->
  areConnected a b c = true.
Proof.
  intros Ha Hb Hin Hq. unfold areConnected, findOne. rewrite Ha, Hb. simpl.
  destruct (List.find _ c) eqn:E; [done|].
  rewrite (List.find_none _ _ E r Hin) in Hq. discriminate.
Qed.

(** X3.  Once the recipient's [acceptRequest] has succeeded, [areConnected]
    holds for requester and recipient, in either order of the two users. *)
Theorem accepted_request_connects_both_users
    (now : Z) (userId requestId : string) (c : Collection) (r : ConnectionRequest)
    (id : ObjectId) :
  findById (newObjectId requestId) c = Some r ->
  Msg.canonicalId (requesterId r) -> Msg.canonicalId (recipientId r) ->
  fst (acceptRequest now userId requestId c) = inr id ->
  let c' := snd (acceptRequest now userId requestId c) in
  areConnected (toHexString (requesterId r)) userId c' = true
  /\ areConnected userId (toHexString (requesterId r)) c' = true.
Proof.
  intros Hf [HvA HrA] [HvB HrB] Hok c'.
  assert (Hshape : toHexString (recipientId r) = userId /\ c' =
            save now (mkRequest (_id r) (requesterId r) (recipientId r) ACCEPTED
                        (createdAt r) (updatedAt r)) c).
  { subst c'. unfold acceptRequest in *.
    destruct (negb (isValid userId) || negb (isValid requestId));
      [discriminate|].
    rewrite Hf in *.
    destruct (String.eqb (toHexString (recipientId r)) userId) eqn:E;
      simpl in *; [|discriminate].
    apply String.eqb_eq in E.
    destruct (negb (status_eqb (status r) PENDING)); [discriminate|]. done. }
  destruct Hshape as [Hrec Hc'].
  set (d := mkRequest _ _ _ _ _ _) in Hc'.
  assert (Hin : In (touch now d) c').
  { rewrite Hc'. apply save_In with (r := r). simpl.
    by rewrite (ConnReqFacts.request_findById_id _ _ _ Hf). }
  assert (Hq : pairQuery (newObjectId (toHexString (requesterId r)))
                 (newObjectId userId) ACCEPTED (touch now d) = true).
  { unfold pairQuery. simpl. rewrite <- Hrec, HrA, HrB, !oid_eqb_refl. done. }
  assert (Hconn : areConnected (toHexString (requesterId r)) userId c' = true).
  { apply (areConnected_by_record _ _ _ (touch now d)); try done.
    by rewrite <- Hrec. }
  split; [exact Hconn|].
  apply (areConnected_by_record _ _ _ (touch now d)); try done;
    [by rewrite <- Hrec | by rewrite ConnReqFacts.pairQuery_swap].
Qed.

Lemma accepted_request_connects_both_users_witness :
  areConnected Samples.alice Samples.bob
    (snd (acceptRequest 20 Samples.bob "000000000000000000000001"
            Samples.alicePending)) = true
  /\ areConnected Samples.bob Samples.alice
       (snd (acceptRequest 20 Samples.bob "000000000000000000000001"
               Samples.alicePending)) = true
  /\ areConnected Samples.alice Samples.bob Samples.alicePending = false.
Proof.
  destruct (accepted_request_connects_both_users 20 Samples.bob
              "000000000000000000000001" Samples.alicePending
              (mkRequest Samples.id1 (newObjectId Samples.alice)
                 (newObjectId Samples.bob) PENDING 10 10) Samples.id1)
    as [H1 H2]; try reflexivity; try (split; reflexivity).
  split; [exact H1|]. split; [exact H2 | reflexivity].
Defined.

(** X5.  A rejected request is no block: when the only request between two
    users was pending and its recipient rejects it, a new [sendRequest]
    from the same requester succeeds. *)
Theorem rejected_request_can_be_sent_again
    (now : Z) (userId requestId : string) (c : Collection) (r : ConnectionRequest)
    (newId : ObjectId) (later : Z) :
  isValid userId = true -> isValid requestId = true ->
  findById (newObjectId requestId) c = Some r ->
  status r = PENDING ->
  toHexString (recipientId r) = userId ->
  Msg.canonicalId (requesterId r) -> Msg.canonicalId (recipientId r) ->
  requesterId r <> recipientId r ->
  pendingUnique c ->
  (forall x, In x c -> pairQuery (requesterId r) (recipientId r) ACCEPTED x = false) ->
  (forall x, In x c -> _id x <> newId) ->
  let c' := snd (rejectRequest now userId requestId c) in
  sendRequest (mkSend (toHexString (requesterId r)) userId newId later) c'
  = (inr newId,
     c' ++ [mkRequest newId (requesterId r) (recipientId r) PENDING later later]).
Proof.
  intros Hu Hreq Hf Hst Hrec [HvA HrA] [HvB HrB] Hdiff Huniq Hnoacc Hfresh c'.
  assert (Hc' : c' = save now (mkRequest (_id r) (requesterId r) (recipientId r)
                                 REJECTED (createdAt r) (updatedAt r)) c).
  { subst c'. unfold rejectRequest. rewrite Hu, Hreq, Hf. simpl.
    apply String.eqb_eq in Hrec. by rewrite Hrec, Hst. }
  set (d := mkRequest _ _ _ REJECTED _ _) in Hc'.
  assert (Hfd : findById (_id d) c = Some r)
    by (simpl; by rewrite (ConnReqFacts.request_findById_id _ _ _ Hf)).
  destruct (save_split now d c r Hfd) as (pre & post & Hc & Hsave & _).
  rewrite Hsave in Hc'.
  assert (Hpend : pairQuery (requesterId r) (recipientId r) PENDING r = true).
  { unfold pairQuery. by rewrite Hst, !oid_eqb_refl. }
  assert (Hnone : List.filter (pairQuery (requesterId r) (recipientId r) PENDING) pre = []
                  /\ List.filter (pairQuery (requesterId r) (recipientId r) PENDING) post = []).
  { specialize (Huniq (requesterId r) (recipientId r)).
    rewrite Hc, List.filter_app, List.length_app in Huniq. simpl in Huniq.
    rewrite Hpend in Huniq. simpl in Huniq.
    destruct (List.filter _ pre), (List.filter _ post); simpl in *;
      try done; lia. }
  destruct Hnone as [Hpre Hpost].
  set (k := mkSend (toHexString (requesterId r)) userId newId later).
  assert (Hpd : pendingDocument k
                = mkRequest newId (requesterId r) (recipientId r) PENDING later later).
  { unfold pendingDocument, k. simpl. by rewrite <- Hrec, HrA, HrB. }
  rewrite <- Hpd.
  change newId with (callNewId k) at 1.
  cut (isValid (callRequester k) = true /\ isValid (callRecipient k) = true
       /\ callRequester k <> callRecipient k
       /\ (forall x, In x c' ->
             pairQuery (newObjectId (callRequester k))
               (newObjectId (callRecipient k)) ACCEPTED x = false)
       /\ (forall x, In x c' ->
             pairQuery (newObjectId (callRequester k))
               (newObjectId (callRecipient k)) PENDING x = false)
       /\ (forall x, In x c' -> _id x <> callNewId k)).
  { intros (H1 & H2 & H3 & H4 & H5 & H6). by apply sendRequest_clear. }
  unfold k. simpl. rewrite <- Hrec, HrA, HrB.
  split; [done|]. split; [done|]. split.
  { intros Heq. apply Hdiff. apply MsgFacts.toHexString_inj. exact Heq. }
  assert (Hin : forall x, In x c' -> In x c \/ x = touch now d).
  { intros x Hx. rewrite Hc' in Hx. rewrite Hc.
    apply List.in_app_or in Hx as [Hx|[<-|Hx]]; [left|by right|left];
      apply List.in_or_app; simpl; auto. }
  split; [|split].
  - intros x Hx. destruct (Hin x Hx) as [Hc0| ->]; [by apply Hnoacc|].
    unfold pairQuery. simpl. apply andb_false_r.
  - intros x Hx. rewrite Hc' in Hx.
    apply List.in_app_or in Hx as [Hx|[<-|Hx]].
    + apply find_none_filter in Hpre.
      exact (proj1 (find_none_all _ _) Hpre x Hx).
    + unfold pairQuery. simpl. apply andb_false_r.
    + apply find_none_filter in Hpost.
      exact (proj1 (find_none_all _ _) Hpost x Hx).
  - intros x Hx. destruct (Hin x Hx) as [Hc0| ->]; [by apply Hfresh|].
    simpl. apply (Hfresh r). rewrite Hc. apply List.in_elt.
Qed.

Lemma rejected_request_can_be_sent_again_witness :
  let c' := snd (rejectRequest 20 Samples.bob "000000000000000000000001"
                   Samples.alicePending) in
  fst (sendRequest (mkSend Samples.alice Samples.bob Samples.id2 30)
         Samples.alicePending)
  = inl (BadRequestException "Request already sent")
  /\ sendRequest (mkSend Samples.alice Samples.bob Samples.id2 30) c'
     = (inr Samples.id2,
        c' ++ [mkRequest Samples.id2 (newObjectId Samples.alice)
                 (newObjectId Samples.bob) PENDING 30 30]).
Proof.
  intros c'. split; [reflexivity|].
  apply (rejected_request_can_be_sent_again 20 Samples.bob
           "000000000000000000000001" Samples.alicePending
           (mkRequest Samples.id1 (newObjectId Samples.alice)
              (newObjectId Samples.bob) PENDING 10 10) Samples.id2 30);
    try reflexivity; try (split; reflexivity); try discriminate.
  - intros a b. simpl.
    destruct (pairQuery a b PENDING _); simpl; lia.
  - intros x [<-|[]]. reflexivity.
  - intros x [<-|[]]. discriminate.
Defined.

End ConnReqRunsFacts.

(** ** Relationship store: the listings *)

Module ConnReqListsFacts.
Import ConnReq ConnReqLists.

Lemma insertNewest_perm key x l : Permutation (insertNewest key x l) (x :: l).
Proof.
  induction l as [|y l IH]; simpl; [done|].
  destruct (key x <? key y); [|done]. rewrite IH. apply perm_swap.
Qed.

Lemma sortNewest_perm key l : Permutation (sortNewest key l) l.
Proof.
  induction l as [|x l IH]; simpl; [done|].
  rewrite insertNewest_perm. by constructor.
Qed.

Lemma sortNewest_In key l r : In r (sortNewest key l) <-> In r l.
Proof.
  split; intros H; eapply Permutation_in; try exact H;
    [apply sortNewest_perm | symmetry; apply sortNewest_perm].
Qed.

Lemma sortNewest_sorted key l :
  StronglySorted (fun a b => key b <= key a) (sortNewest key l).
Proof.
  induction l as [|x l IH]; simpl; [constructor|].
  revert IH. generalize (sortNewest key l) as s.
  induction s as [|y s IHs]; simpl; intros Hs; [repeat constructor|].
  apply StronglySorted_inv in Hs as [Hs Hy].
  destruct (key x <? key y) eqn:E.
  - apply Z.ltb_lt in E. constructor; [by apply IHs|].
    eapply Permutation_Forall; [symmetry; apply insertNewest_perm|].
    constructor; [lia | exact Hy].
  - apply Z.ltb_ge in E. constructor; [by constructor|].
    constructor; [exact E|].
    eapply List.Forall_impl; [|exact Hy]. simpl. intros. lia.
Qed.

Lemma sorted_map_newest {A} (key : ConnectionRequest -> Z) (f : ConnectionRequest -> A)
    (key' : A -> Z) l :
  (forall r, key' (f r) = key r) ->
  StronglySorted (fun a b => key b <= key a) l ->
  StronglySorted (fun a b => key' b <= key' a) (List.map f l).
Proof.
  intros Hk. induction l as [|x l IH]; simpl; intros Hs; [constructor|].
  apply StronglySorted_inv in Hs as [Hs Hx].
  constructor; [by apply IH|].
  apply List.Forall_forall. intros e He.
  apply List.in_map_iff in He as (r & <- & Hr).
  rewrite List.Forall_forall in Hx. rewrite !Hk. by apply Hx.
Qed.

Lemma buildProfileMap_lookup_from ps : forall (m : gmap string ProfileView) k,
  (List.fold_left (fun m profile =>
      <[toHexString (profileUserId profile) :=
          mkProfileView (toHexString (profileUserId profile)) (fullName profile)
            (bio profile) (profilePicture profile) (location profile)]> m)
     ps m !! k = None
   <-> m !! k = None
       /\ forall p, In p ps -> toHexString (profileUserId p) <> k)
  /\ (forall v,
        List.fold_left (fun m profile =>
          <[toHexString (profileUserId profile) :=
              mkProfileView (toHexString (profileUserId profile)) (fullName profile)
                (bio profile) (profilePicture profile) (location profile)]> m)
          ps m !! k = Some v ->
        (forall w, m !! k = Some w -> pvUserId w = k) -> pvUserId v = k).
Proof.
  induction ps as [|p ps IH]; intros m k; simpl.
  - split; [|by eauto]. split; [by intros H; split | by intros [H _]].
  - destruct (IH (<[toHexString (profileUserId p) :=
                      mkProfileView (toHexString (profileUserId p)) (fullName p)
                        (bio p) (profilePicture p) (location p)]> m) k)
      as [Hnone Hsome].
    split.
    + rewrite Hnone. rewrite lookup_insert_None. split.
      * intros [[Hm Hne] Hps]. split; [done|]. intros q [<-|Hq]; auto.
      * intros [Hm Hall]. split; [split; [done | apply Hall; by left]|].
        intros q Hq. apply Hall. by right.
    + intros v Hv Hm. apply (Hsome v Hv). intros w Hw.
      apply lookup_insert_Some in Hw as [[<- <-]|[_ Hw]]; [done | by apply Hm].
Qed.

Lemma buildProfileMap_lookup ps k :
  (buildProfileMap ps !! k = None
   <-> forall p, In p ps -> toHexString (profileUserId p) <> k)
  /\ (forall v, buildProfileMap ps !! k = Some v -> pvUserId v = k).
Proof.
  destruct (buildProfileMap_lookup_from ps ∅ k) as [Hnone Hsome].
  split.
  - unfold buildProfileMap. rewrite Hnone. rewrite lookup_empty. tauto.
  - intros v Hv. apply (Hsome v Hv). intros w Hw.
    by rewrite lookup_empty in Hw.
Qed.

Lemma findProfiles_In ids profiles p :
  In p (findProfiles ids profiles)
  <-> In p profiles
      /\ In (profileUserId p) (List.map (fun id => newObjectId (toHexString id)) ids).
Proof.
  unfold findProfiles. rewrite List.filter_In, List.map_map.
  rewrite orb_diag. rewrite List.existsb_exists. split.
  - intros [Hp (x & Hx & Heq)]. apply oid_eqb_eq in Heq. by subst.
  - intros [Hp Hin]. split; [done|]. exists (profileUserId p).
    split; [done | apply oid_eqb_refl].
Qed.

(** What the listings report as [user] for a counterpart. *)
Lemma profile_lookup_spec profiles ids other :
  In other ids -> Msg.canonicalId other ->
  (buildProfileMap (findProfiles ids profiles) !! toHexString other = None
   <-> forall p, In p profiles -> profileUserId p <> other)
  /\ (forall v, buildProfileMap (findProfiles ids profiles) !! toHexString other
                = Some v ->
      pvUserId v = toHexString other).
Proof.
  intros Hin [_ Hround].
  destruct (buildProfileMap_lookup (findProfiles ids profiles) (toHexString other))
    as [Hnone Hsome].
  split; [|exact Hsome]. rewrite Hnone. split.
  - intros H p Hp Heq. apply (H p); [|by rewrite Heq].
    apply findProfiles_In. split; [done|]. rewrite Heq, <- Hround.
    by apply (List.in_map (fun id => newObjectId (toHexString id))).
  - intros H p Hp Heq. apply findProfiles_In in Hp as [Hp _].
    apply (H p Hp). by apply MsgFacts.toHexString_inj.
Qed.

Lemma otherParty_canonical userId r :
  Msg.canonicalId (requesterId r) /\ Msg.canonicalId (recipientId r) ->
  Msg.canonicalId (otherParty userId r).
Proof. intros [H1 H2]. unfold otherParty. by destruct (String.eqb _ _). Qed.

Lemma canonicalString_eqb userId (o : ObjectId) :
  canonicalString userId ->
  String.eqb (toHexString o) userId = oid_eqb o (newObjectId userId).
Proof.
  intros [_ Hround]. destruct (oid_eqb o (newObjectId userId)) eqn:E.
  - apply oid_eqb_eq in E. subst o. rewrite Hround. apply String.eqb_refl.
  - apply String.eqb_neq. intros H. apply oid_eqb_neq in E. apply E.
    apply MsgFacts.toHexString_inj. by rewrite Hround.
Qed.

Lemma canonicalString_eqb_true userId (o : ObjectId) :
  canonicalString userId ->
  String.eqb (toHexString o) userId = true <-> o = newObjectId userId.
Proof. intros H. by rewrite (canonicalString_eqb _ _ H), oid_eqb_eq. Qed.

(** Who the other party of a request is, for a canonical caller id. *)
Lemma otherParty_spec userId s r :
  canonicalString userId ->
  involves (newObjectId userId) s r = true ->
  (requesterId r = newObjectId userId /\ otherParty userId r = recipientId r)
  \/ (requesterId r <> newObjectId userId
      /\ recipientId r = newObjectId userId
      /\ otherParty userId r = requesterId r).
Proof.
  intros Hcan Hinv. unfold otherParty.
  rewrite (canonicalString_eqb _ _ Hcan).
  unfold involves in Hinv. apply andb_true_iff in Hinv as [Hinv _].
  destruct (oid_eqb (requesterId r) (newObjectId userId)) eqn:E.
  - left. by apply oid_eqb_eq in E.
  - right. apply oid_eqb_neq in E. simpl in Hinv. by apply oid_eqb_eq in Hinv.
Qed.

Lemma buildProfileMap_lookup_Some_from ps : forall (m : gmap string ProfileView) k v,
  List.fold_left (fun m profile =>
      <[toHexString (profileUserId profile) :=
          mkProfileView (toHexString (profileUserId profile)) (fullName profile)
            (bio profile) (profilePicture profile) (location profile)]> m)
     ps m !! k = Some v ->
  m !! k = Some v
  \/ exists p, In p ps /\ toHexString (profileUserId p) = k
       /\ v = mkProfileView k (fullName p) (bio p) (profilePicture p) (location p).
Proof.
  induction ps as [|p ps IH]; intros m k v; simpl; [by left|].
  intros H. apply IH in H as [H|(q & Hq & Hk & Hv)].
  - apply lookup_insert_Some in H as [[<- <-]|[_ H]]; [|by left].
    right. exists p. by auto.
  - right. exists q. by auto.
Qed.

(** The profile the listings attach is a stored profile of the counterpart. *)
Lemma profile_lookup_Some profiles ids other v :
  buildProfileMap (findProfiles ids profiles) !! toHexString other = Some v ->
  exists p, In p profiles /\ profileUserId p = other
    /\ v = mkProfileView (toHexString other) (fullName p) (bio p)
             (profilePicture p) (location p).
Proof.
  intros H. apply buildProfileMap_lookup_Some_from in H as [H|(p & Hp & Hk & Hv)].
  - by rewrite lookup_empty in H.
  - apply findProfiles_In in Hp as [Hp _]. exists p.
    split; [done|]. split; [by apply MsgFacts.toHexString_inj | done].
Qed.

(** X6.  For a canonical caller id, [getPendingRequests] lists the pending
    requests in which the caller is requester or recipient, each once,
    newest first.  An entry is marked received exactly when the caller is
    the recipient of the request; it names the other party (the recipient
    when the caller sent the request, else the requester) and carries a
    stored profile of that user, or none exactly when none is stored. *)
Theorem getPendingRequests_lists_each_pending_request
    (profiles : list UserProfile) (userId : string) (c : Collection) :
  canonicalString userId ->
  ConnReqRuns.canonicalUsers c ->
  exists l,
    getPendingRequests profiles userId c = inr l
    /\ Permutation (List.map pendRequestId l)
         (List.map _id (List.filter (involves (newObjectId userId) PENDING) c))
    /\ StronglySorted (fun e1 e2 => requestedAt e2 <= requestedAt e1) l
    /\ forall e, In e l ->
         exists r other, In r c /\ status r = PENDING
           /\ ((requesterId r = newObjectId userId /\ other = recipientId r)
               \/ (requesterId r <> newObjectId userId
                   /\ recipientId r = newObjectId userId
                   /\ other = requesterId r))
           /\ pendRequestId e = _id r
           /\ requestedAt e = createdAt r
           /\ (isReceived e = true <-> recipientId r = newObjectId userId)
           /\ pendUserId e = toHexString other
           /\ (pendUser e = None
               <-> forall p, In p profiles -> profileUserId p <> other)
           /\ (forall v, pendUser e = Some v ->
               exists p, In p profiles /\ profileUserId p = other
                 /\ v = mkProfileView (toHexString other) (fullName p) (bio p)
                          (profilePicture p) (location p)).
Proof.
  intros Hcan Hstored. pose proof Hcan as [Hv _].
  unfold getPendingRequests. rewrite Hv. simpl.
  set (pendingRequests := sortNewest createdAt _).
  eexists. split; [reflexivity|]. split; [|split].
  - rewrite List.map_map. simpl. apply Permutation_map, sortNewest_perm.
  - apply (sorted_map_newest createdAt); [done | apply sortNewest_sorted].
  - intros e He. apply List.in_map_iff in He as (r & <- & Hr). simpl.
    assert (Hrc : In r c /\ involves (newObjectId userId) PENDING r = true)
      by (apply sortNewest_In, List.filter_In in Hr; done).
    destruct Hrc as [Hrc Hinv]. exists r, (otherParty userId r).
    split; [done|]. split.
    { unfold involves in Hinv. apply andb_true_iff in Hinv as [_ Hs].
      by apply ConnReqFacts.status_eqb_eq. }
    split.
    { destruct (otherParty_spec _ _ _ Hcan Hinv) as [[H1 H2]|(H1 & H2 & H3)];
        [left | right]; by rewrite ?H2, ?H3. }
    split; [done|]. split; [done|].
    split; [by apply canonicalString_eqb_true|]. split; [done|].
    unfold ConnReqRuns.canonicalUsers in Hstored.
    rewrite List.Forall_forall in Hstored.
    split; [|intros v; by apply profile_lookup_Some].
    apply (profile_lookup_spec profiles
             (List.map (otherParty userId) pendingRequests)
             (otherParty userId r));
      [by apply List.in_map | by apply otherParty_canonical, Hstored].
Qed.

Lemma getPendingRequests_lists_each_pending_request_witness :
  getPendingRequests
    [mkProfile (newObjectId Samples.alice) (Some "Alice") None None None]
    Samples.bob Samples.alicePending
  = inr [mkPending Samples.id1 Samples.alice
           (Some (mkProfileView Samples.alice (Some "Alice") None None None))
           10 true]
  /\ getPendingRequests [] Samples.alice Samples.alicePending
     = inr [mkPending Samples.id1 Samples.bob None 10 false].
Proof.
  assert (Hstored : ConnReqRuns.canonicalUsers Samples.alicePending)
    by (repeat constructor).
  assert (Ha : canonicalString Samples.alice) by (split; reflexivity).
  assert (Hb : canonicalString Samples.bob) by (split; reflexivity).
  split.
  - destruct (getPendingRequests_lists_each_pending_request
                [mkProfile (newObjectId Samples.alice) (Some "Alice") None None None]
                Samples.bob Samples.alicePending Hb Hstored) as (l & Hl & _).
    rewrite Hl. vm_compute in Hl. by injection Hl as <-.
  - destruct (getPendingRequests_lists_each_pending_request []
                Samples.alice Samples.alicePending Ha Hstored) as (l & Hl & _).
    rewrite Hl. vm_compute in Hl. by injection Hl as <-.
Defined.

(** X8.  For a canonical caller id, [getRejectedPeople] lists the rejected
    requests in which the caller is requester or recipient, each once,
    most recently rejected first.  [wasRequester] holds exactly when the
    caller had sent the request; the entry names the other party (the
    recipient when the caller sent the request, else the requester) and
    carries a stored profile of that user, or none exactly when none is
    stored. *)
Theorem getRejectedPeople_lists_each_rejected_request
    (profiles : list UserProfile) (userId : string) (c : Collection) :
  canonicalString userId ->
  ConnReqRuns.canonicalUsers c ->
  exists l,
    getRejectedPeople profiles userId c = inr l
    /\ Permutation (List.map rejRequestId l)
         (List.map _id (List.filter (involves (newObjectId userId) REJECTED) c))
    /\ StronglySorted (fun e1 e2 => rejectedAt e2 <= rejectedAt e1) l
    /\ forall e, In e l ->
         exists r other, In r c /\ status r = REJECTED
           /\ ((requesterId r = newObjectId userId /\ other = recipientId r)
               \/ (requesterId r <> newObjectId userId
                   /\ recipientId r = newObjectId userId
                   /\ other = requesterId r))
           /\ rejRequestId e = _id r
           /\ rejectedAt e = updatedAt r
           /\ (wasRequester e = true <-> requesterId r = newObjectId userId)
           /\ rejUserId e = toHexString other
           /\ (rejUser e = None
               <-> forall p, In p profiles -> profileUserId p <> other)
           /\ (forall v, rejUser e = Some v ->
               exists p, In p profiles /\ profileUserId p = other
                 /\ v = mkProfileView (toHexString other) (fullName p) (bio p)
                          (profilePicture p) (location p)).
Proof.
  intros Hcan Hstored. pose proof Hcan as [Hv _].
  unfold getRejectedPeople. rewrite Hv. simpl.
  set (rejectedRequests := sortNewest updatedAt _).
  eexists. split; [reflexivity|]. split; [|split].
  - rewrite List.map_map. simpl. apply Permutation_map, sortNewest_perm.
  - apply (sorted_map_newest updatedAt); [done | apply sortNewest_sorted].
  - intros e He. apply List.in_map_iff in He as (r & <- & Hr). simpl.
    assert (Hrc : In r c /\ involves (newObjectId userId) REJECTED r = true)
      by (apply sortNewest_In, List.filter_In in Hr; done).
    destruct Hrc as [Hrc Hinv]. exists r, (otherParty userId r).
    split; [done|]. split.
    { unfold involves in Hinv. apply andb_true_iff in Hinv as [_ Hs].
      by apply ConnReqFacts.status_eqb_eq. }
    split.
    { destruct (otherParty_spec _ _ _ Hcan Hinv) as [[H1 H2]|(H1 & H2 & H3)];
        [left | right]; by rewrite ?H2, ?H3. }
    split; [done|]. split; [done|].
    split; [by apply canonicalString_eqb_true|]. split; [done|].
    unfold ConnReqRuns.canonicalUsers in Hstored.
    rewrite List.Forall_forall in Hstored.
    split; [|intros v; by apply profile_lookup_Some].
    apply (profile_lookup_spec profiles
             (List.map (otherParty userId) rejectedRequests)
             (otherParty userId r));
      [by apply List.in_map | by apply otherParty_canonical, Hstored].
Qed.

Lemma getRejectedPeople_lists_each_rejected_request_witness :
  getRejectedPeople [] Samples.alice
    (snd (rejectRequest 20 Samples.bob "000000000000000000000001"
            Samples.alicePending))
  = inr [mkRejected Samples.id1 Samples.bob None 20 true].
Proof.
  assert (Hstored : ConnReqRuns.canonicalUsers
                      (snd (rejectRequest 20 Samples.bob "000000000000000000000001"
                              Samples.alicePending)))
    by (repeat constructor).
  assert (Ha : canonicalString Samples.alice) by (split; reflexivity).
  destruct (getRejectedPeople_lists_each_rejected_request []
              Samples.alice _ Ha Hstored) as (l & Hl & _).
  rewrite Hl. vm_compute in Hl. by injection Hl as <-.
Defined.

(** X7.  For canonical user ids, [getConnectedPeople] of one user lists the
    other user exactly when [areConnected] holds for the two: the listing
    and the pair test agree on who is connected. *)
Theorem getConnectedPeople_agrees_with_areConnected
    (profiles : list UserProfile) (userId otherUserId : string) (c : Collection) :
  canonicalString userId ->
  canonicalString otherUserId ->
  exists l,
    getConnectedPeople profiles userId c = inr l
    /\ ((exists e, In e l /\ connUserId e = otherUserId)
        <-> areConnected userId otherUserId c = true).
Proof.
  intros Hu Hv. pose proof Hu as [Hvu Hru]. pose proof Hv as [Hvv Hrv].
  unfold getConnectedPeople. rewrite Hvu. simpl.
  eexists. split; [reflexivity|]. split.
  - intros (e & He & Hid). apply List.in_map_iff in He as (r & <- & Hr).
    simpl in Hid. apply sortNewest_In, List.filter_In in Hr as [Hrc Hinv].
    apply (ConnReqRunsFacts.areConnected_by_record _ _ _ r); try done.
    unfold involves in Hinv. apply andb_true_iff in Hinv as [Hinv Hs].
    unfold pairQuery. rewrite Hs, andb_true_r.
    unfold otherParty in Hid. rewrite (canonicalString_eqb _ _ Hu) in Hid.
    destruct (oid_eqb (requesterId r) (newObjectId userId)) eqn:E.
    + rewrite <- Hrv in Hid. apply MsgFacts.toHexString_inj in Hid.
      rewrite Hid, oid_eqb_refl. done.
    + simpl in Hinv. rewrite Hinv.
      rewrite <- Hrv in Hid. apply MsgFacts.toHexString_inj in Hid.
      rewrite Hid, oid_eqb_refl. simpl. by rewrite ?orb_true_r.
  - unfold areConnected, findOne. rewrite Hvu, Hvv. simpl.
    destruct (List.find _ c) as [r|] eqn:E; [intros _ | discriminate].
    apply List.find_some in E as [Hrc Hq].
    unfold pairQuery in Hq. apply andb_true_iff in Hq as [Hq Hs].
    eexists. split.
    + apply List.in_map. apply sortNewest_In, List.filter_In. split; [exact Hrc|].
      unfold involves. rewrite Hs, andb_true_r.
      apply orb_true_iff in Hq as [Hq|Hq]; apply andb_true_iff in Hq as [H1 H2];
        [by rewrite H1 | rewrite H2; apply orb_true_r].
    + simpl. unfold otherParty. rewrite (canonicalString_eqb _ _ Hu).
      apply orb_true_iff in Hq as [Hq|Hq]; apply andb_true_iff in Hq as [H1 H2].
      * rewrite H1. apply oid_eqb_eq in H2. by rewrite H2.
      * destruct (oid_eqb (requesterId r) (newObjectId userId)) eqn:E.
        -- apply oid_eqb_eq in E, H1, H2. rewrite H2, <- E, H1. done.
        -- apply oid_eqb_eq in H1. by rewrite H1.
Qed.

Lemma getConnectedPeople_agrees_with_areConnected_witness :
  (exists e, In e [mkConnected Samples.id1 Samples.bob None 20]
             /\ connUserId e = Samples.bob)
  <-> areConnected Samples.alice Samples.bob Samples.aliceAccepted = true.
Proof.
  assert (Hu : canonicalString Samples.alice) by (split; reflexivity).
  assert (Hv : canonicalString Samples.bob) by (split; reflexivity).
  destruct (getConnectedPeople_agrees_with_areConnected []
              Samples.alice Samples.bob Samples.aliceAccepted Hu Hv)
    as (l & Hl & Hiff).
  vm_compute in Hl. injection Hl as <-. exact Hiff.
Defined.

End ConnReqListsFacts.

(** ** Message log: unread counts and the conversation list *)

Module MsgViewsFacts.
Import Msg ConnReqLists MsgViews.

Lemma filter_length_perm {A} (f : A -> bool) l l' :
  Permutation l l' -> length (List.filter f l) = length (List.filter f l').
Proof.
  induction 1 as [|x l l' _ IH|x y l|l l' l'' _ IH1 _ IH2]; simpl.
  - done.
  - destruct (f x); simpl; by rewrite IH.
  - by destruct (f x), (f y).
  - by rewrite IH1.
Qed.

Lemma filter_ext_on {A} (f g : A -> bool) l :
  (forall x, In x l -> f x = g x) -> List.filter f l = List.filter g l.
Proof.
  induction l as [|x l IH]; simpl; intros H; [done|].
  rewrite (H x (or_introl eq_refl)), IH; [done|]. intros y Hy. apply H. by right.
Qed.

Lemma hex_eqb_canonical userId (o : ObjectId) :
  canonicalString userId ->
  String.eqb (toHexString o) userId = oid_eqb o (newObjectId userId).
Proof. apply ConnReqListsFacts.canonicalString_eqb. Qed.

Lemma hex_eqb_oid (a b : ObjectId) :
  String.eqb (toHexString a) (toHexString b) = oid_eqb a b.
Proof. by destruct a, b. Qed.

(** *** The set of counterparts *)

Lemma setAdd_In s members x : In x (setAdd s members) <-> In x members \/ x = s.
Proof.
  unfold setAdd. destruct (existsb _ members) eqn:E.
  - split; [by left|]. intros [H| ->]; [done|].
    apply List.existsb_exists in E as (y & Hy & Heq).
    apply String.eqb_eq in Heq. by subst.
  - rewrite List.in_app_iff. simpl. split.
    + intros [H|[H|[]]]; [by left | by right].
    + intros [H|H]; [by left | right; by left].
Qed.

Lemma setAdd_NoDup s members : NoDup members -> NoDup (setAdd s members).
Proof.
  intros Hnd. unfold setAdd. destruct (existsb _ members) eqn:E; [done|].
  apply NoDup_app. split; [done|]. split; [|apply NoDup_singleton].
  intros x Hx Hs. apply list_elem_of_singleton in Hs. subst x.
  apply list_elem_of_In in Hx.
  assert (existsb (String.eqb s) members = true); [|congruence].
  apply List.existsb_exists. exists s. split; [done | apply String.eqb_refl].
Qed.

Lemma collect_from userId found : forall acc,
  NoDup acc ->
  NoDup (List.fold_left (fun otherUserIds msg =>
           setAdd (counterpart userId msg) otherUserIds) found acc)
  /\ forall o,
       In o (List.fold_left (fun otherUserIds msg =>
               setAdd (counterpart userId msg) otherUserIds) found acc)
       <-> In o acc \/ exists m, In m found /\ counterpart userId m = o.
Proof.
  induction found as [|m found IH]; intros acc Hnd; simpl.
  - split; [done|]. intros o. split; [by left|]. by intros [H|(m & [] & _)].
  - destruct (IH (setAdd (counterpart userId m) acc) (setAdd_NoDup _ _ Hnd))
      as [Hn Hin].
    split; [done|]. intros o. rewrite Hin, setAdd_In. split.
    + intros [[H|H]|(m' & Hm' & Hc)]; [by left | right | right].
      * exists m. split; [by left | done].
      * exists m'. split; [by right | done].
    + intros [H|(m' & [<-|Hm'] & Hc)].
      * left. by left.
      * left. by right.
      * right. by exists m'.
Qed.

Lemma collectOtherUserIds_spec userId found :
  NoDup (collectOtherUserIds userId found)
  /\ forall o, In o (collectOtherUserIds userId found)
               <-> exists m, In m found /\ counterpart userId m = o.
Proof.
  destruct (collect_from userId found [] (NoDup_nil_2)) as [Hn Hin].
  split; [exact Hn|]. intros o. rewrite (Hin o). simpl. tauto.
Qed.

(** *** Counting over a partition by key *)

Lemma sum_indicator (k : string) (ids : list string) :
  NoDup ids -> In k ids ->
  list_sum (List.map (fun o => if String.eqb o k then 1%nat else 0%nat) ids) = 1%nat.
Proof.
  induction ids as [|o ids IH]; simpl; intros Hnd Hin; [done|].
  apply NoDup_cons in Hnd as [Hno Hnd].
  destruct (String.eqb o k) eqn:E.
  - apply String.eqb_eq in E. subst o.
    assert (list_sum (List.map (fun o => if String.eqb o k then 1%nat else 0%nat) ids)
            = 0%nat) as ->; [|done].
    clear IH Hin Hnd. induction ids as [|o ids IH]; simpl; [done|].
    destruct (String.eqb o k) eqn:E.
    + apply String.eqb_eq in E. subst o. exfalso. apply Hno. by left.
    + apply IH. intros H. apply Hno. by right.
  - destruct Hin as [->|Hin]; [by rewrite String.eqb_refl in E|].
    simpl. by apply IH.
Qed.

Lemma sum_zero {A} (ids : list A) :
  list_sum (List.map (fun _ => 0%nat) ids) = 0%nat.
Proof. induction ids; simpl; congruence. Qed.

Lemma sum_plus {A} (f g : A -> nat) ids :
  list_sum (List.map (fun o => (f o + g o)%nat) ids)
  = (list_sum (List.map f ids) + list_sum (List.map g ids))%nat.
Proof. induction ids as [|o ids IH]; simpl; [done|]. rewrite IH. lia. Qed.

Lemma sum_ext {A} (f g : A -> nat) ids :
  (forall o, In o ids -> f o = g o) ->
  list_sum (List.map f ids) = list_sum (List.map g ids).
Proof.
  induction ids as [|o ids IH]; simpl; intros H; [done|].
  rewrite (H o (or_introl eq_refl)), IH; [done|]. intros. apply H. by right.
Qed.

Lemma partition_count (Q : Message -> bool) (P : string -> Message -> bool)
    (key : Message -> string) (ids : list string) (l : list Message) :
  NoDup ids ->
  (forall m, In m l -> Q m = true -> In (key m) ids) ->
  (forall m o, In m l -> Q m = true -> P o m = String.eqb o (key m)) ->
  list_sum (List.map (fun o => length (List.filter Q (List.filter (P o) l))) ids)
  = length (List.filter Q l).
Proof.
  intros Hnd. induction l as [|m l IH]; intros Hkey HP; simpl.
  - apply sum_zero.
  - rewrite (sum_ext _ (fun o => ((if Q m && P o m then 1 else 0)
                                  + length (List.filter Q (List.filter (P o) l)))%nat)).
    2:{ intros o _. destruct (P o m); simpl; [|by rewrite andb_false_r].
        rewrite andb_true_r. by destruct (Q m). }
    rewrite sum_plus, IH.
    2:{ intros m' Hm'. apply Hkey. by right. }
    2:{ intros m' o Hm'. apply HP. by right. }
    destruct (Q m) eqn:E; simpl.
    + rewrite (sum_ext _ (fun o => if String.eqb o (key m) then 1%nat else 0%nat)).
      2:{ intros o _. rewrite (HP m o (or_introl eq_refl) E). done. }
      rewrite sum_indicator; [done | done |]. by apply Hkey; [left|].
    + by rewrite sum_zero.
Qed.

Lemma insertConversation_perm x l : Permutation (insertConversation x l) (x :: l).
Proof.
  induction l as [|y l IH]; simpl; [done|].
  destruct (0 <? compareConversations x y); [|done]. rewrite IH. apply perm_swap.
Qed.

Lemma sortConversations_perm l : Permutation (sortConversations l) l.
Proof.
  induction l as [|x l IH]; simpl; [done|].
  rewrite insertConversation_perm. by constructor.
Qed.

Lemma found_In u c m :
  In m (sort before (List.filter (sentOrReceived u) c))
  <-> In m c /\ sentOrReceived u m = true.
Proof. rewrite MsgFacts.sort_In. apply List.filter_In. Qed.

(** X9.  For a canonical user id, the unread counts that [getConversations]
    reports add up to the number [getUnreadCount] returns: every unread
    message received by the user is counted in exactly one conversation. *)
Theorem conversation_unread_counts_sum_to_unread_count
    (profiles : list UserProfile) (userId : string) (c : Collection) :
  canonicalString userId ->
  exists l n,
    getConversations profiles userId c = inr l
    /\ getUnreadCount userId c = inr n
    /\ list_sum (List.map unreadCount l) = n.
Proof.
  intros Hu. pose proof Hu as [Hv Hround].
  unfold getConversations, getUnreadCount. rewrite Hv. simpl.
  set (u := newObjectId userId).
  set (found := sort before (List.filter (sentOrReceived u) c)).
  destruct (collectOtherUserIds_spec userId found) as [Hnd Hids].
  do 2 eexists. split; [reflexivity|]. split; [reflexivity|].
  rewrite (Permutation_map unreadCount (sortConversations_perm _)).
  rewrite List.map_map. simpl.
  rewrite (partition_count _ (inConversation userId)
             (fun m => toHexString (senderId m))); [| done | |].
  - rewrite (filter_length_perm _ found (List.filter (sentOrReceived u) c))
      by apply MsgFacts.sort_perm.
    rewrite <- MsgFacts.filter_andb. f_equal. apply filter_ext_on.
    intros m _. rewrite (hex_eqb_canonical _ _ Hu). fold u.
    unfold receivedUnread, sentOrReceived.
    by destruct (oid_eqb (receiverId m) u), (oid_eqb (senderId m) u).
  - intros m Hm HQ. apply andb_true_iff in HQ as [Hr _].
    apply Hids. exists m. split; [done|]. unfold counterpart.
    destruct (String.eqb (toHexString (senderId m)) userId) eqn:E; [|done].
    apply String.eqb_eq in E, Hr. congruence.
  - intros m o _ HQ. apply andb_true_iff in HQ as [Hr _].
    unfold inConversation. apply String.eqb_eq in Hr.
    destruct (String.eqb_spec (toHexString (senderId m)) userId),
             (String.eqb_spec (toHexString (receiverId m)) o),
             (String.eqb_spec (toHexString (senderId m)) o),
             (String.eqb_spec (toHexString (receiverId m)) userId),
             (String.eqb_spec o (toHexString (senderId m)));
      simpl; congruence.
Qed.

Lemma conversation_unread_counts_sum_to_unread_count_witness :
  getConversations [] Samples.bob Samples.sampleLog
  = inr [mkConversation Samples.alice None
           (Some (mkLatest Samples.id2 "hello" Samples.bob Samples.alice false
                    None None 200)) 1]
  /\ getUnreadCount Samples.bob Samples.sampleLog = inr 1%nat.
Proof.
  assert (Hu : canonicalString Samples.bob) by (split; reflexivity).
  destruct (conversation_unread_counts_sum_to_unread_count []
              Samples.bob Samples.sampleLog Hu) as (l & n & Hl & Hn & Hsum).
  vm_compute in Hl. injection Hl as <-. vm_compute in Hsum. subst n.
  split; [reflexivity | exact Hn].
Defined.

(** *** The entries of the conversation list *)

Lemma baseQuery_sentOrReceived u x m :
  baseQuery u x m = true -> sentOrReceived u m = true.
Proof.
  unfold baseQuery, sentOrReceived.
  destruct (oid_eqb (senderId m) u), (oid_eqb (receiverId m) u); simpl; try done.
  rewrite andb_false_r. done.
Qed.

Lemma counterpart_baseQuery userId x m :
  canonicalString userId ->
  sentOrReceived (newObjectId userId) m = true ->
  counterpart userId m = toHexString x
  <-> baseQuery (newObjectId userId) x m = true.
Proof.
  intros Hu. unfold sentOrReceived, counterpart, baseQuery.
  rewrite (hex_eqb_canonical _ _ Hu).
  destruct (oid_eqb (senderId m) (newObjectId userId)) eqn:Es; simpl.
  - intros _. apply oid_eqb_eq in Es. split.
    + intros H. apply MsgFacts.toHexString_inj in H. subst x.
      by rewrite oid_eqb_refl.
    + intros H. apply orb_true_iff in H as [H|H].
      * apply oid_eqb_eq in H. by subst x.
      * apply andb_true_iff in H as [H1 H2]. apply oid_eqb_eq in H1, H2. congruence.
  - intros Hr. rewrite Hr, andb_true_r. split.
    + intros H. apply MsgFacts.toHexString_inj in H. subst x. apply oid_eqb_refl.
    + intros H. apply oid_eqb_eq in H. by subst x.
Qed.

Lemma inConversation_baseQuery userId x m :
  canonicalString userId ->
  inConversation userId (toHexString x) m = baseQuery (newObjectId userId) x m.
Proof.
  intros Hu. unfold inConversation, baseQuery.
  by rewrite !(hex_eqb_canonical _ _ Hu), !hex_eqb_oid.
Qed.

Lemma conversationMessages_eq userId x c :
  canonicalString userId ->
  List.filter (inConversation userId (toHexString x))
    (sort before (List.filter (sentOrReceived (newObjectId userId)) c))
  = sort before (List.filter (baseQuery (newObjectId userId) x) c).
Proof.
  intros Hu. rewrite MsgFacts.filter_sort. f_equal.
  rewrite <- MsgFacts.filter_andb. apply filter_ext_on. intros m _.
  rewrite (inConversation_baseQuery _ _ _ Hu).
  destruct (baseQuery (newObjectId userId) x m) eqn:E; [|apply andb_false_r].
  by rewrite (baseQuery_sentOrReceived _ _ _ E).
Qed.

Lemma insertConversation_sorted x s :
  latestMessage x <> None ->
  Forall (fun e => latestMessage e <> None) s ->
  newestConversationFirst s -> newestConversationFirst (insertConversation x s).
Proof.
  intros Hx. unfold newestConversationFirst.
  induction s as [|y s IH]; simpl; intros Hsome Hs; [repeat constructor|].
  apply StronglySorted_inv in Hs as [Hs Hy].
  apply List.Forall_cons_iff in Hsome as [Hysome Hsome].
  destruct (latestMessage x) as [lx|] eqn:Ex; [clear Hx | done].
  destruct (latestMessage y) as [ly|] eqn:Ey; [clear Hysome | done].
  unfold compareConversations at 1. rewrite Ex, Ey.
  destruct (0 <? latestCreatedAt ly - latestCreatedAt lx) eqn:E.
  - apply Z.ltb_lt in E. constructor; [by apply IH|].
    eapply Permutation_Forall; [symmetry; apply insertConversation_perm|].
    constructor; [rewrite Ex, Ey; lia|].
    eapply List.Forall_impl; [|exact Hy]. simpl. intros z Hz. by rewrite Ey.
  - apply Z.ltb_ge in E. constructor; [constructor; [done|]|].
    + eapply List.Forall_impl; [|exact Hy]. simpl. intros z Hz. by rewrite Ey.
    + constructor; [rewrite Ex, Ey; lia|].
      eapply List.Forall_impl; [|exact Hy]. simpl. intros z.
      rewrite Ex. destruct (latestMessage z); [lia | done].
Qed.

Lemma sortConversations_sorted l :
  Forall (fun e => latestMessage e <> None) l ->
  newestConversationFirst (sortConversations l).
Proof.
  induction l as [|x l IH]; simpl; intros H; [constructor|].
  apply List.Forall_cons_iff in H as [Hx Hl].
  apply insertConversation_sorted; [done | | by apply IH].
  eapply Permutation_Forall; [symmetry; apply sortConversations_perm | done].
Qed.

(** X10.  For a canonical user id, [getConversations] returns one entry per
    user with whom the caller has exchanged a message, and no other entry;
    each entry carries the newest message of that conversation and the
    number of its messages the caller has received and not read, and the
    entries are ordered by their newest message, most recent first. *)
Theorem getConversations_one_entry_per_counterpart
    (profiles : list UserProfile) (userId : string) (c : Collection) :
  canonicalString userId ->
  exists l,
    getConversations profiles userId c = inr l
    /\ NoDup (List.map convUserId l)
    /\ (forall x : ObjectId,
          In (toHexString x) (List.map convUserId l)
          <-> exists m, In m c /\ baseQuery (newObjectId userId) x m = true)
    /\ newestConversationFirst l
    /\ forall e, In e l ->
         exists x m,
           convUserId e = toHexString x
           /\ head (sort before (List.filter (baseQuery (newObjectId userId) x) c))
              = Some m
           /\ latestMessage e = Some (latestView m)
           /\ unreadCount e
              = length (List.filter (receivedUnread (newObjectId userId))
                          (List.filter (baseQuery (newObjectId userId) x) c)).
Proof.
  intros Hu. pose proof Hu as [Hv Hround].
  unfold getConversations. rewrite Hv. simpl.
  set (found := sort before (List.filter (sentOrReceived (newObjectId userId)) c)).
  destruct (collectOtherUserIds_spec userId found) as [Hnd Hids].
  set (entry := fun otherUserId : string => mkConversation otherUserId _ _ _).
  assert (Hmem : forall x, In (toHexString x) (collectOtherUserIds userId found)
                 <-> exists m, In m c /\ baseQuery (newObjectId userId) x m = true).
  { intros x. rewrite Hids. split.
    - intros (m & Hm & Hc). apply found_In in Hm as [Hm Hs].
      exists m. split; [done|]. by apply (counterpart_baseQuery userId x m Hu Hs).
    - intros (m & Hm & Hq). pose proof (baseQuery_sentOrReceived _ _ _ Hq) as Hs.
      exists m. split; [by apply found_In|].
      by apply (counterpart_baseQuery userId x m Hu Hs). }
  assert (Hentry : forall e, In e (List.map entry (collectOtherUserIds userId found)) ->
            exists x m,
              convUserId e = toHexString x
              /\ head (sort before (List.filter (baseQuery (newObjectId userId) x) c)) = Some m
              /\ latestMessage e = Some (latestView m)
              /\ unreadCount e
                 = length (List.filter (receivedUnread (newObjectId userId))
                             (List.filter (baseQuery (newObjectId userId) x) c))).
  { intros e He. apply List.in_map_iff in He as (o & <- & Ho).
    apply Hids in Ho as (m0 & Hm0 & Hc).
    set (x := if String.eqb (toHexString (senderId m0)) userId
              then receiverId m0 else senderId m0).
    assert (Hox : counterpart userId m0 = toHexString x).
    { unfold counterpart, x. by destruct (String.eqb _ userId). }
    rewrite Hox in Hc. subst o. rename Hox into Hc. unfold entry, found. simpl.
    rewrite (conversationMessages_eq userId x c Hu).
    pose proof Hm0 as Hm0'. apply found_In in Hm0' as [Hm0c Hs].
    apply (counterpart_baseQuery userId x m0 Hu Hs) in Hc.
    destruct (sort before (List.filter (baseQuery (newObjectId userId) x) c)) as [|m rest] eqn:Hsort.
    { exfalso.
      assert (In m0 (sort before (List.filter (baseQuery (newObjectId userId) x) c))) as Hin
        by (apply MsgFacts.sort_In, List.filter_In; split; assumption).
      rewrite Hsort in Hin. destruct Hin. }
    exists x, m. split; [done|]. split; [by rewrite Hsort|]. split; [done|].
    rewrite <- Hsort.
    rewrite (filter_length_perm _ _ (List.filter (baseQuery (newObjectId userId) x) c))
      by apply MsgFacts.sort_perm.
    f_equal. apply filter_ext_on. intros m' _. unfold receivedUnread.
    by rewrite (hex_eqb_canonical _ _ Hu). }
  exists (sortConversations (List.map entry (collectOtherUserIds userId found))).
  split; [reflexivity|].
  pose proof (sortConversations_perm
                (List.map entry (collectOtherUserIds userId found))) as Hperm.
  assert (Hkeys : List.map convUserId
                    (List.map entry (collectOtherUserIds userId found))
                  = collectOtherUserIds userId found).
  { rewrite List.map_map. simpl. apply List.map_id. }
  apply (Permutation_map convUserId) in Hperm as Hpermk. rewrite Hkeys in Hpermk.
  split; [|split; [|split]].
  - by rewrite Hpermk.
  - intros x. rewrite <- Hmem. split; intros H.
    + eapply Permutation_in; [exact Hpermk | exact H].
    + eapply Permutation_in; [symmetry; exact Hpermk | exact H].
  - apply sortConversations_sorted. apply List.Forall_forall. intros e He.
    destruct (Hentry e He) as (x & m & _ & _ & Hl & _). by rewrite Hl.
  - intros e He. apply Hentry. eapply Permutation_in; [apply Hperm | exact He].
Qed.

Lemma getConversations_one_entry_per_counterpart_witness :
  getConversations
    [mkProfile (newObjectId Samples.bob) (Some "Bob") None None None]
    Samples.alice Samples.sampleLog
  = inr [mkConversation Samples.bob
           (Some (mkProfileView Samples.bob (Some "Bob") None None None))
           (Some (mkLatest Samples.id2 "hello" Samples.bob Samples.alice false
                    None None 200)) 1].
Proof.
  assert (Hu : canonicalString Samples.alice) by (split; reflexivity).
  destruct (getConversations_one_entry_per_counterpart
              [mkProfile (newObjectId Samples.bob) (Some "Bob") None None None]
              Samples.alice Samples.sampleLog Hu) as (l & Hl & _).
  rewrite Hl. vm_compute in Hl. by injection Hl as <-.
Defined.

End MsgViewsFacts.

(** ** Message log: sending *)

Module MsgSendFacts.
Import Msg MsgViews.

Lemma existsb_false_fresh (newId : ObjectId) (c : Collection) :
  existsb (fun m => oid_eqb (_id m) newId) c = false
  <-> forall m, In m c -> _id m <> newId.
Proof.
  split.
  - intros H m Hm Heq.
    assert (existsb (fun m => oid_eqb (_id m) newId) c = true); [|congruence].
    apply List.existsb_exists. exists m. split; [done | by apply oid_eqb_eq].
  - intros H. destruct (existsb _ c) eqn:E; [|done].
    apply List.existsb_exists in E as (m & Hm & Heq).
    apply oid_eqb_eq in Heq. by destruct (H m Hm).
Qed.

(** X11.  [sendMessage] succeeds exactly when both ids are valid ObjectId
    strings, differ as strings, the two users are connected, the content
    is not empty and the new id is unused; it then appends one message
    from sender to receiver, unread and without file URL, and returns its
    id.  Every failing call leaves the log as it was. *)
Theorem sendMessage_succeeds_iff
    (conns : ConnReq.Collection) (newId : ObjectId) (now : Z)
    (sender receiver text : string) (fileData : option FileData)
    (c : Collection) :
  ((exists sent c', sendMessage conns newId now sender receiver text fileData c
                    = (inr sent, c'))
   <-> isValid sender = true /\ isValid receiver = true /\ sender <> receiver
       /\ ConnReq.areConnected sender receiver conns = true
       /\ text <> ""
       /\ forall m, In m c -> _id m <> newId)
  /\ (forall sent c',
        sendMessage conns newId now sender receiver text fileData c = (inr sent, c') ->
        exists m,
          c' = c ++ [m]
          /\ _id m = newId /\ sentMessageId sent = newId
          /\ senderId m = newObjectId sender /\ receiverId m = newObjectId receiver
          /\ content m = text /\ createdAt m = now
          /\ isRead m = false /\ readAt m = None
          /\ hasFile m = isSome fileData /\ fileUrl m = None
          /\ isFileUploaded m = false)
  /\ (forall e c',
        sendMessage conns newId now sender receiver text fileData c = (inl e, c') ->
        c' = c).
Proof.
  unfold sendMessage.
  destruct (isValid sender) eqn:Hs; simpl;
    [|split; [split; [by intros (? & ? & ?) | by intros (? & _)]
             |split; [done | by intros ? ? [= _ <-]]]].
  destruct (isValid receiver) eqn:Hr; simpl;
    [|split; [split; [by intros (? & ? & ?) | by intros (_ & ? & _)]
             |split; [done | by intros ? ? [= _ <-]]]].
  destruct (String.eqb_spec sender receiver) as [Heq|Hne];
    [split; [split; [by intros (? & ? & ?) | by intros (_ & _ & ? & _)]
            |split; [done | by intros ? ? [= _ <-]]]|].
  destruct (ConnReq.areConnected sender receiver conns) eqn:Hc; simpl;
    [|split; [split; [by intros (? & ? & ?) | by intros (_ & _ & _ & ? & _)]
             |split; [done | by intros ? ? [= _ <-]]]].
  unfold create. simpl.
  destruct (String.eqb_spec text "") as [Ht|Ht]; simpl;
    [split; [split; [by intros (? & ? & ?) | by intros (_ & _ & _ & _ & ? & _)]
            |split; [done | by intros ? ? [= _ <-]]]|].
  destruct (existsb (fun m => oid_eqb (_id m) newId) c) eqn:Hfresh; simpl.
  - split; [split; [by intros (? & ? & ?)|]|split; [done | by intros ? ? [= _ <-]]].
    intros (_ & _ & _ & _ & _ & Hf). apply existsb_false_fresh in Hf. congruence.
  - pose proof (proj1 (existsb_false_fresh newId c) Hfresh) as Hf.
    split; [split; [done | by eauto]|]. split; [|done].
    intros sent c' [= <- <-]. eexists. split; [reflexivity|]. simpl. done.
Qed.

Lemma sendMessage_appends conns newId now sender receiver text fileData c sent c' :
  sendMessage conns newId now sender receiver text fileData c = (inr sent, c') ->
  exists m,
    c' = c ++ [m] /\ receiverId m = newObjectId receiver /\ isRead m = false.
Proof.
  unfold sendMessage, create.
  destruct (negb (isValid sender) || negb (isValid receiver)); [done|].
  destruct (String.eqb sender receiver); [done|].
  destruct (negb (ConnReq.areConnected sender receiver conns)); [done|]. simpl.
  destruct (String.eqb text ""); [done|].
  destruct (existsb _ c); [done|].
  intros [= <- <-]. eexists. split; [reflexivity|]. done.
Qed.

(** X12.  A message that has been sent is unread for its receiver and for
    nobody else: after a successful [sendMessage], [getUnreadCount] of the
    receiver is one higher than before, and that of every other user is
    what it was. *)
Theorem sent_message_counts_as_unread_for_receiver
    (conns : ConnReq.Collection) (newId : ObjectId) (now : Z)
    (sender receiver text : string) (fileData : option FileData)
    (c : Collection) sent c' (userId : string) :
  sendMessage conns newId now sender receiver text fileData c = (inr sent, c') ->
  isValid userId = true ->
  exists n,
    getUnreadCount userId c = inr n
    /\ getUnreadCount userId c'
       = inr (if oid_eqb (newObjectId receiver) (newObjectId userId)
              then S n else n).
Proof.
  intros Hsend Hv.
  destruct (sendMessage_appends _ _ _ _ _ _ _ _ _ _ Hsend) as (m & -> & Hrecv & Hread).
  unfold getUnreadCount. rewrite Hv. simpl. eexists. split; [reflexivity|].
  rewrite List.filter_app, List.length_app. simpl.
  unfold receivedUnread at 2. rewrite Hrecv, Hread. simpl. rewrite andb_true_r.
  destruct (oid_eqb (newObjectId receiver) (newObjectId userId)); simpl; f_equal; lia.
Qed.

Lemma sent_message_counts_as_unread_for_receiver_witness :
  getUnreadCount Samples.bob
    (snd (sendMessage Samples.aliceAccepted Samples.id3 300 Samples.alice
            Samples.bob "again" None Samples.sampleLog))
  = inr 2%nat
  /\ getUnreadCount Samples.alice
       (snd (sendMessage Samples.aliceAccepted Samples.id3 300 Samples.alice
               Samples.bob "again" None Samples.sampleLog))
     = inr 1%nat.
Proof.
  split.
  - destruct (sent_message_counts_as_unread_for_receiver Samples.aliceAccepted
                Samples.id3 300 Samples.alice Samples.bob "again" None
                Samples.sampleLog _ _ Samples.bob eq_refl eq_refl)
      as (n & Hn & Hn').
    vm_compute in Hn. injection Hn as <-. exact Hn'.
  - destruct (sent_message_counts_as_unread_for_receiver Samples.aliceAccepted
                Samples.id3 300 Samples.alice Samples.bob "again" None
                Samples.sampleLog _ _ Samples.alice eq_refl eq_refl)
      as (n & Hn & Hn').
    vm_compute in Hn. injection Hn as <-. exact Hn'.
Defined.

End MsgSendFacts.

(** ** Message log: the shape of a page and repeated reads *)

Module MsgPageFacts.
Import Msg MsgViews.

Lemma getMessages_success_pre conns callTime elapsed userId otherUserId cursor
    limit direction c page c' :
  getMessages conns callTime elapsed userId otherUserId cursor limit direction c
  = (inr page, c') ->
  isValid userId = true /\ isValid otherUserId = true /\ 1 <= limit <= 100
  /\ ConnReq.areConnected userId otherUserId conns = true.
Proof.
  unfold getMessages.
  destruct (isValid userId); [|done]. destruct (isValid otherUserId); [|done].
  simpl. destruct (limit <? 1) eqn:E1; [done|]. destruct (100 <? limit) eqn:E2; [done|].
  simpl. destruct (ConnReq.areConnected userId otherUserId conns); [|done].
  intros _. apply Z.ltb_ge in E1, E2. repeat split; lia.
Qed.

Lemma updateManyRead_nil now c : updateManyRead [] now c = c.
Proof. unfold updateManyRead. simpl. apply List.map_id. Qed.

Lemma afterRead_eq userId shown now c :
  afterRead userId shown now c
  = updateManyRead (unreadMessageIds userId shown) now c.
Proof.
  unfold afterRead. destruct (unreadMessageIds userId shown) eqn:E; simpl; [|done].
  by rewrite updateManyRead_nil.
Qed.

(** The update of one message by [updateMany]. *)
Lemma updateManyRead_keepsKey ids now :
  keepsKey (fun m => if existsb (oid_eqb (_id m)) ids then markRead now m else m).
Proof. intros m. by destruct (existsb _ ids). Qed.

Lemma length_sort d l : length (sort d l) = length l.
Proof. apply Permutation_length, MsgFacts.sort_perm. Qed.

Lemma foundMessages_map g u o d t limit c :
  keepsKey g ->
  foundMessages u o d t limit (List.map g c)
  = List.map g (foundMessages u o d t limit c).
Proof.
  intros Hg. unfold foundMessages.
  rewrite MsgFacts.filter_map_key, MsgFacts.sort_map, List.firstn_map; [done| |].
  - intros m. apply Hg.
  - intros m. destruct (Hg m) as (_ & Ht & Hs & Hr).
    unfold baseQuery, cursorQuery. rewrite Hs, Hr.
    destruct t; [|done]. by rewrite Ht.
Qed.

Lemma sortedMessages_map g u o d t limit c :
  keepsKey g ->
  sortedMessages u o d t limit (List.map g c)
  = List.map g (sortedMessages u o d t limit c).
Proof.
  intros Hg. unfold sortedMessages. rewrite (foundMessages_map g); [|done].
  rewrite List.length_map.
  destruct (limit <? _), d; rewrite ?List.firstn_map, ?List.map_rev; done.
Qed.

Lemma resolveCursor_map g cursor c :
  keepsKey g -> resolveCursor cursor (List.map g c) = resolveCursor cursor c.
Proof.
  intros Hg. unfold resolveCursor. destruct (truthy cursor) as [cur|]; [|done].
  destruct (negb (isValid cur)); [done|].
  rewrite MsgFacts.findById_map by (intros m; apply Hg).
  destruct (findById (newObjectId cur) c) as [m|]; simpl; [|done].
  destruct (Hg m) as (_ & -> & _). done.
Qed.

Lemma head_map_id (l : list Message) userId :
  option_map v_id (head (List.map (formatMessage userId) l)) = option_map _id (head l).
Proof. by destruct l. Qed.

Lemma last_map_id (l : list Message) userId :
  option_map v_id (last (List.map (formatMessage userId) l)) = option_map _id (last l).
Proof.
  induction l as [|x l IH]; [done|]. destruct l as [|y l]; [done|].
  exact IH.
Qed.

Lemma last_map_key g (l : list Message) :
  keepsKey g -> option_map _id (last (List.map g l)) = option_map _id (last l).
Proof.
  intros Hg. induction l as [|x l IH]; [done|]. destruct l as [|y l].
  - simpl. f_equal. apply Hg.
  - exact IH.
Qed.

(** X13.  A page that [getMessages] returns holds the first [limit]
    matches of the query, or all of them when there are fewer; [hasMore]
    is set exactly when more than [limit] messages match; with a cursor
    every message shown is strictly older (before) or strictly newer
    (after) than the cursor message; and the call neither adds nor removes
    a message nor changes any content. *)
Theorem getMessages_page_holds_at_most_limit_matches
    conns callTime elapsed userId otherUserId cursor limit direction
    (c : Collection) page c' :
  getMessages conns callTime elapsed userId otherUserId cursor limit direction c
  = (inr page, c') ->
  exists t,
    resolveCursor cursor c = inr t
    /\ length (messages page)
       = Nat.min (Z.to_nat limit)
           (length (List.filter (fun m =>
                      baseQuery (newObjectId userId) (newObjectId otherUserId) m
                      && cursorQuery direction t m) c))
    /\ (hasMore page = true
        <-> limit < Z.of_nat
              (length (List.filter (fun m =>
                         baseQuery (newObjectId userId) (newObjectId otherUserId) m
                         && cursorQuery direction t m) c)))
    /\ pageDirection page = direction
    /\ Forall (fun v =>
         match t, direction with
         | None, _ => True
         | Some time, before => vCreatedAt v < time
         | Some time, after => time < vCreatedAt v
         end) (messages page)
    /\ List.map _id c' = List.map _id c
    /\ List.map content c' = List.map content c
    /\ List.map createdAt c' = List.map createdAt c.
Proof.
  intros Hget.
  destruct (getMessages_success_pre _ _ _ _ _ _ _ _ _ _ _ Hget)
    as (_ & _ & Hlimit & Hconn).
  rewrite (MsgFacts.getMessages_unfold _ _ _ _ _ _ _ _ _ Hlimit Hconn) in Hget.
  destruct (resolveCursor cursor c) as [e|t]; [done|].
  injection Hget as <- <-. exists t. split; [done|]. simpl.
  set (matching := List.filter _ c).
  assert (Hfound : length (foundMessages (newObjectId userId)
                             (newObjectId otherUserId) direction t limit c)
                   = Nat.min (Z.to_nat (limit + 1)) (length matching)).
  { unfold foundMessages. by rewrite length_take, length_sort. }
  split; [|split; [|split; [done|split; [|split; [|split]]]]].
  - rewrite List.length_map. unfold sortedMessages. rewrite Hfound.
    set (found := foundMessages _ _ _ _ _ _) in *.
    destruct (limit <? _) eqn:E.
    + apply Z.ltb_lt in E.
      assert (length (take (Z.to_nat limit) found) = Z.to_nat limit)
        by (rewrite length_take; lia).
      destruct direction; rewrite ?List.length_rev; lia.
    + apply Z.ltb_ge in E.
      destruct direction; rewrite ?List.length_rev; lia.
  - rewrite Hfound, Z.ltb_lt. lia.
  - apply List.Forall_forall. intros v Hv.
    apply List.in_map_iff in Hv as (m & <- & Hm).
    apply MsgFacts.sortedMessages_In in Hm as (_ & _ & Hq). simpl.
    unfold cursorQuery in Hq. destruct t as [time|]; [|done].
    destruct direction; by apply Z.ltb_lt in Hq.
  - rewrite afterRead_eq. unfold updateManyRead. rewrite List.map_map.
    apply List.map_ext. intros m. by destruct (existsb _ _).
  - rewrite afterRead_eq. unfold updateManyRead. rewrite List.map_map.
    apply List.map_ext. intros m. by destruct (existsb _ _).
  - rewrite afterRead_eq. unfold updateManyRead. rewrite List.map_map.
    apply List.map_ext. intros m. by destruct (existsb _ _).
Qed.

Lemma getMessages_page_holds_at_most_limit_matches_witness :
  exists page c',
    getMessages Samples.aliceAccepted 1000 5 Samples.bob Samples.alice None 1
      before Samples.sampleLog = (inr page, c')
    /\ length (messages page) = 1%nat /\ hasMore page = true.
Proof.
  destruct (getMessages Samples.aliceAccepted 1000 5 Samples.bob Samples.alice
              None 1 before Samples.sampleLog) as [[e|page] c'] eqn:Hget;
    [vm_compute in Hget; discriminate|].
  destruct (getMessages_page_holds_at_most_limit_matches _ _ _ _ _ _ _ _ _ _ _ Hget)
    as (t & Ht & Hlen & Hmore & _).
  vm_compute in Ht. injection Ht as <-.
  exists page, c'. split; [reflexivity|]. split.
  - rewrite Hlen. reflexivity.
  - apply Hmore. vm_compute. reflexivity.
Defined.

Lemma filter_map_none {A} (P : A -> bool) (g : A -> A) l :
  (forall m, In m l -> P (g m) = false) -> List.filter P (List.map g l) = [].
Proof.
  induction l as [|m l IH]; simpl; intros H; [done|].
  rewrite (H m (or_introl eq_refl)). apply IH. intros m' Hm'. apply H. by right.
Qed.

(** X14.  Fetching the same page again marks nothing: after a successful
    [getMessages], the same call on the resulting log succeeds, shows the
    same messages with the same cursor and [hasMore], reports every one
    of them as read, and leaves the log unchanged. *)
Theorem getMessages_again_changes_nothing
    conns callTime elapsed callTime2 elapsed2 userId otherUserId cursor limit
    direction (c : Collection) page c' :
  getMessages conns callTime elapsed userId otherUserId cursor limit direction c
  = (inr page, c') ->
  exists page',
    getMessages conns callTime2 elapsed2 userId otherUserId cursor limit
      direction c' = (inr page', c')
    /\ List.map v_id (messages page') = List.map v_id (messages page)
    /\ Forall (fun v => vIsRead v = true) (messages page')
    /\ nextCursor page' = nextCursor page
    /\ hasMore page' = hasMore page.
Proof.
  intros Hget.
  destruct (getMessages_success_pre _ _ _ _ _ _ _ _ _ _ _ Hget)
    as (_ & _ & Hlimit & Hconn).
  rewrite (MsgFacts.getMessages_unfold _ _ _ _ _ _ _ _ _ Hlimit Hconn) in Hget.
  rewrite (MsgFacts.getMessages_unfold _ _ _ _ _ _ _ _ _ Hlimit Hconn).
  destruct (resolveCursor cursor c) as [e|t] eqn:Hcur; [done|].
  injection Hget as <- <-. simpl.
  set (shown := sortedMessages (newObjectId userId) (newObjectId otherUserId)
                  direction t limit c).
  set (now := callTime + Z.of_N elapsed).
  rewrite afterRead_eq. unfold updateManyRead.
  set (g := fun m : Message =>
              if existsb (oid_eqb (_id m)) (unreadMessageIds userId shown)
              then markRead now m else m).
  assert (Hg : keepsKey g) by apply updateManyRead_keepsKey.
  rewrite (resolveCursor_map g _ _ Hg), Hcur.
  rewrite (sortedMessages_map g _ _ _ _ _ _ Hg), (foundMessages_map g _ _ _ _ _ _ Hg).
  fold shown.
  assert (Hread : forall m, In m shown ->
            String.eqb (toHexString (receiverId (g m))) userId
            && negb (isRead (g m)) = false).
  { intros m Hm. unfold g.
    destruct (existsb _ (unreadMessageIds userId shown)) eqn:E;
      [simpl; apply andb_false_r|].
    destruct (String.eqb (toHexString (receiverId m)) userId) eqn:Er; [|done].
    destruct (isRead m) eqn:Ei; [done|]. exfalso.
    assert (existsb (oid_eqb (_id m)) (unreadMessageIds userId shown) = true);
      [|congruence].
    apply MsgFacts.unread_ids_spec. exists m. apply String.eqb_eq in Er. done. }
  assert (Hnone : unreadMessageIds userId (List.map g shown) = []).
  { unfold unreadMessageIds.
    by rewrite (filter_map_none _ g shown Hread). }
  eexists. split; [|split; [|split; [|split]]].
  - unfold afterRead at 1. rewrite Hnone. simpl. reflexivity.
  - simpl. rewrite !List.map_map. apply List.map_ext. intros m. apply Hg.
  - simpl. apply List.Forall_forall. intros v Hv.
    apply List.in_map_iff in Hv as (m' & <- & Hm').
    apply List.in_map_iff in Hm' as (m & <- & Hm). simpl.
    pose proof (Hread m Hm) as H.
    destruct (String.eqb (toHexString (receiverId (g m))) userId); [|done].
    simpl in H. by destruct (isRead (g m)).
  - simpl. destruct direction.
    + rewrite !head_map_id. destruct shown as [|m l]; [done|]. simpl.
      f_equal. apply Hg.
    + rewrite !last_map_id. by apply last_map_key.
  - simpl. by rewrite List.length_map.
Qed.

Lemma getMessages_again_changes_nothing_witness :
  exists page c' page',
    getMessages Samples.aliceAccepted 1000 5 Samples.bob Samples.alice None 50
      before Samples.sampleLog = (inr page, c')
    /\ getMessages Samples.aliceAccepted 2000 7 Samples.bob Samples.alice None 50
         before c' = (inr page', c')
    /\ List.map vIsRead (messages page) = [false; true]
    /\ Forall (fun v => vIsRead v = true) (messages page').
Proof.
  destruct (getMessages Samples.aliceAccepted 1000 5 Samples.bob Samples.alice
              None 50 before Samples.sampleLog) as [[e|page] c'] eqn:Hget;
    [vm_compute in Hget; discriminate|].
  destruct (getMessages_again_changes_nothing _ _ _ 2000 7%N _ _ _ _ _ _ _ _ Hget)
    as (page' & Hget' & _ & Hread & _).
  exists page, c', page'. split; [reflexivity|]. split; [exact Hget'|].
  split; [|exact Hread].
  vm_compute in Hget. by injection Hget as <- <-.
Defined.

(** *** Reading and the unread count *)

Lemma NoDup_of_map {A B} (f : A -> B) (l : list A) :
  NoDup (List.map f l) -> NoDup l.
Proof.
  induction l as [|x l IH]; simpl; intros H; [constructor|].
  apply NoDup_cons in H as [Hx Hl]. apply NoDup_cons. split; [|by apply IH].
  intros Hin. apply Hx. apply list_elem_of_In. apply List.in_map.
  by apply list_elem_of_In.
Qed.

Lemma NoDup_list_filter {A} (P : A -> bool) (l : list A) :
  NoDup l -> NoDup (List.filter P l).
Proof.
  induction l as [|x l IH]; simpl; intros H; [constructor|].
  apply NoDup_cons in H as [Hx Hl]. destruct (P x); [|by apply IH].
  apply NoDup_cons. split; [|by apply IH].
  intros Hin. apply Hx. apply list_elem_of_In in Hin.
  apply List.filter_In in Hin as [Hin _]. by apply list_elem_of_In.
Qed.

Lemma NoDup_firstn {A} n (l : list A) : NoDup l -> NoDup (take n l).
Proof.
  intros H. rewrite <- (take_drop n l) in H. by apply NoDup_app in H as [H _].
Qed.

Lemma sortedMessages_NoDup u o d t limit c :
  NoDup c -> NoDup (sortedMessages u o d t limit c).
Proof.
  intros Hc. unfold sortedMessages, foundMessages.
  assert (Hs : NoDup (sort d (List.filter (fun m => baseQuery u o m
                                                   && cursorQuery d t m) c))).
  { rewrite MsgFacts.sort_perm. by apply NoDup_list_filter. }
  assert (Hm : NoDup (if limit <? Z.of_nat (length (take (Z.to_nat (limit + 1))
                        (sort d (List.filter (fun m => baseQuery u o m
                                                && cursorQuery d t m) c))))
                      then take (Z.to_nat limit) (take (Z.to_nat (limit + 1))
                        (sort d (List.filter (fun m => baseQuery u o m
                                                && cursorQuery d t m) c)))
                      else take (Z.to_nat (limit + 1))
                        (sort d (List.filter (fun m => baseQuery u o m
                                                && cursorQuery d t m) c)))).
  { destruct (limit <? _); repeat apply NoDup_firstn; done. }
  destruct d; [|done]. by rewrite <- Permutation_rev.
Qed.

Lemma filter_split_length {A} (P Q : A -> bool) l :
  length (List.filter P l)
  = (length (List.filter (fun x => P x && negb (Q x)) l)
     + length (List.filter (fun x => P x && Q x) l))%nat.
Proof.
  induction l as [|x l IH]; simpl; [done|].
  destruct (P x), (Q x); simpl; lia.
Qed.

Lemma filter_unread_updateManyRead u ids now (c : Collection) :
  List.filter (receivedUnread u)
    (List.map (fun m => if existsb (oid_eqb (_id m)) ids then markRead now m else m) c)
  = List.map (fun m => if existsb (oid_eqb (_id m)) ids then markRead now m else m)
      (List.filter (fun x => receivedUnread u x
                             && negb (existsb (oid_eqb (_id x)) ids)) c).
Proof.
  induction c as [|m c IH]; simpl; [done|].
  destruct (existsb (oid_eqb (_id m)) ids) eqn:E; simpl.
  - unfold receivedUnread at 1 3. simpl. rewrite !andb_false_r. exact IH.
  - destruct (receivedUnread u m); simpl; [rewrite E; f_equal|]; exact IH.
Qed.

Lemma unread_views_length userId u (l : list Message) :
  (forall m, (String.eqb (toHexString (receiverId m)) userId && negb (isRead m))
             = receivedUnread u m) ->
  length (List.filter (receivedUnread u) l)
  = length (List.filter (fun v => negb (vIsRead v))
              (List.map (formatMessage userId) l)).
Proof.
  intros Hru. induction l as [|m l IH]; simpl; [done|].
  rewrite <- Hru.
  destruct (String.eqb (toHexString (receiverId m)) userId); simpl;
    [destruct (isRead m); simpl; by rewrite IH | exact IH].
Qed.

(** X15.  Reading lowers the unread count by what was shown as unread: for
    a canonical user id and a log with unique message ids, after a
    successful [getMessages] the caller's [getUnreadCount] has dropped by
    the number of messages of the page reported with [isRead] false. *)
Theorem getMessages_lowers_unread_count_by_unread_shown
    conns callTime elapsed userId otherUserId cursor limit direction
    (c : Collection) page c' :
  ConnReqLists.canonicalString userId ->
  NoDup (List.map _id c) ->
  getMessages conns callTime elapsed userId otherUserId cursor limit direction c
  = (inr page, c') ->
  exists n n',
    getUnreadCount userId c = inr n
    /\ getUnreadCount userId c' = inr n'
    /\ n = (n' + length (List.filter (fun v => negb (vIsRead v)) (messages page)))%nat.
Proof.
  intros Hu Hnd Hget. pose proof Hu as [Hv _].
  destruct (getMessages_success_pre _ _ _ _ _ _ _ _ _ _ _ Hget)
    as (_ & _ & Hlimit & Hconn).
  rewrite (MsgFacts.getMessages_unfold _ _ _ _ _ _ _ _ _ Hlimit Hconn) in Hget.
  destruct (resolveCursor cursor c) as [e|t] eqn:Hcur; [done|].
  injection Hget as <- <-. simpl.
  set (shown := sortedMessages (newObjectId userId) (newObjectId otherUserId)
                  direction t limit c).
  set (now := callTime + Z.of_N elapsed).
  unfold getUnreadCount. rewrite Hv. simpl.
  do 2 eexists. split; [reflexivity|]. split; [reflexivity|].
  set (u := newObjectId userId).
  set (ids := unreadMessageIds userId shown).
  rewrite afterRead_eq. fold ids. unfold updateManyRead.
  rewrite (filter_split_length (receivedUnread u)
             (fun m => existsb (oid_eqb (_id m)) ids) c).
  assert (Hru : forall m, (String.eqb (toHexString (receiverId m)) userId
                           && negb (isRead m)) = receivedUnread u m).
  { intros m. unfold receivedUnread, u.
    by rewrite (ConnReqListsFacts.canonicalString_eqb _ _ Hu). }
  f_equal.
  - (* the messages left unread *)
    rewrite <- (List.length_map
                  (fun m => if existsb (oid_eqb (_id m)) ids then markRead now m else m)
                  (List.filter (fun x => receivedUnread u x
                                         && negb (existsb (oid_eqb (_id x)) ids)) c)).
    f_equal. symmetry. apply filter_unread_updateManyRead.
  - (* the messages marked are the unread ones of the page *)
    transitivity (length (List.filter (receivedUnread u) shown)).
    + apply Permutation_length. apply NoDup_Permutation.
      * apply NoDup_list_filter. by apply NoDup_of_map in Hnd.
      * apply NoDup_list_filter, sortedMessages_NoDup. by apply NoDup_of_map in Hnd.
      * intros m. rewrite !list_elem_of_In, !List.filter_In. split.
        -- intros [Hm Hq]. apply andb_true_iff in Hq as [Hr Hin].
           apply MsgFacts.unread_ids_spec in Hin as (m' & Hm' & Hid & _).
           assert (m' = m) as <-; [|done].
           apply (MsgFacts.NoDup_id_inj c); try done.
           by apply MsgFacts.sortedMessages_In in Hm' as [? _].
        -- intros [Hm Hr]. pose proof Hm as Hmc.
           apply MsgFacts.sortedMessages_In in Hmc as [Hmc _].
           split; [done|]. rewrite Hr. simpl.
           apply MsgFacts.unread_ids_spec. exists m.
           rewrite <- Hru in Hr. apply andb_true_iff in Hr as [Hr1 Hr2].
           apply String.eqb_eq in Hr1. by destruct (isRead m).
    + by apply unread_views_length.
Qed.

Lemma getMessages_lowers_unread_count_by_unread_shown_witness :
  exists page c',
    getMessages Samples.aliceAccepted 1000 5 Samples.bob Samples.alice None 50
      before Samples.sampleLog = (inr page, c')
    /\ getUnreadCount Samples.bob Samples.sampleLog = inr 1%nat
    /\ getUnreadCount Samples.bob c' = inr 0%nat.
Proof.
  assert (Hu : ConnReqLists.canonicalString Samples.bob) by (split; reflexivity).
  assert (Hnd : NoDup (List.map _id Samples.sampleLog)).
  { apply NoDup_cons. split; [|apply NoDup_singleton].
    intros H. apply list_elem_of_singleton in H. discriminate. }
  destruct (getMessages Samples.aliceAccepted 1000 5 Samples.bob Samples.alice
              None 50 before Samples.sampleLog) as [[e|page] c'] eqn:Hget;
    [vm_compute in Hget; discriminate|].
  destruct (getMessages_lowers_unread_count_by_unread_shown _ _ _ _ _ _ _ _ _ _ _
              Hu Hnd Hget) as (n & n' & Hn & Hn' & Hsum).
  exists page, c'. split; [reflexivity|]. split; [reflexivity|].
  rewrite Hn'. vm_compute in Hn. injection Hn as <-.
  vm_compute in Hget. injection Hget as <- <-. simpl in Hsum.
  f_equal. lia.
Defined.

End MsgPageFacts.

(** ** Task consumers: the retry budget carried by the message *)

Module QueueRetryFacts.
Import Queue.

Section Budget.

Variables queue dlq : string.
Hypothesis distinct_queues : queue <> dlq.

Lemma queueOf_insert_eq q l qs ts n :
  queueOf q (mkBroker (<[q := l]> qs) ts n) = l.
Proof. unfold queueOf. simpl. by rewrite lookup_insert_eq. Qed.

Lemma queueOf_insert_ne q q' l qs ts n ts' n' :
  q <> q' ->
  queueOf q' (mkBroker (<[q := l]> qs) ts n) = queueOf q' (mkBroker qs ts' n').
Proof. intros H. unfold queueOf. simpl. by rewrite lookup_insert_ne. Qed.

Lemma consume_after_timers o os b :
  consume queue dlq (o :: os) b = consume queue dlq (o :: os) (fireTimers b).
Proof.
  simpl. by rewrite (QueueFacts.fireTimers_idle (fireTimers b))
              by apply QueueFacts.fireTimers_timers.
Qed.

(** One failed delivery of a message that may still be retried, followed
    by the timer: the message is back in the queue with its count raised. *)
Lemma failure_then_timer msg b o os :
  timers b = [] -> queueOf queue b = [msg] -> retryCountOf msg < maxRetries ->
  exists msg' b',
    consume queue dlq (false :: o :: os) b = consume queue dlq (o :: os) b'
    /\ timers b' = [] /\ queueOf queue b' = [msg']
    /\ content msg' = content msg
    /\ persistent (properties msg') = persistent (properties msg)
    /\ retryCountOf msg' = retryCountOf msg + 1
    /\ attempts b' = S (attempts b)
    /\ queueOf dlq b' = queueOf dlq b.
Proof.
  intros Ht Hq Hr. destruct b as [qs ts n]. simpl in Ht. subst ts.
  set (msg' := mkConsumeMessage (content msg)
                 (mkProperties (persistent (properties msg))
                    (<["x-retry-count" := retryCountOf msg + 1]>
                       (headers (properties msg))))).
  exists msg',
    (mkBroker (<[queue := [msg']]> (<[queue := []]> qs)) [] (S n)).
  split; [|split; [done|split; [apply queueOf_insert_eq|]]].
  - change (consume queue dlq (false :: o :: os) (mkBroker qs [] n))
      with (match queueOf queue (mkBroker qs [] n) with
            | [] => mkBroker qs [] n
            | m :: rest =>
                consume queue dlq (o :: os)
                  (onMessage queue dlq false m
                     (mkBroker (<[queue := rest]> qs) [] n))
            end).
    rewrite Hq. unfold onMessage.
    apply Z.ltb_lt in Hr. rewrite Hr. fold msg'.
    rewrite consume_after_timers. f_equal.
    unfold setTimeout, fireTimers, publish. simpl.
    by rewrite queueOf_insert_eq.
  - split; [done|]. split; [done|]. split.
    + unfold retryCountOf, msg'. simpl. by rewrite lookup_insert_eq.
    + split; [done|].
      rewrite (queueOf_insert_ne queue dlq _ _ _ _ [] n distinct_queues).
      by rewrite (queueOf_insert_ne queue dlq _ _ _ _ [] n distinct_queues).
Qed.

Lemma failures_within_budget k : forall msg b o os,
  timers b = [] -> queueOf queue b = [msg] ->
  retryCountOf msg + Z.of_nat k <= maxRetries ->
  exists msg' b',
    consume queue dlq (repeat false k ++ o :: os) b
    = consume queue dlq (o :: os) b'
    /\ timers b' = [] /\ queueOf queue b' = [msg']
    /\ content msg' = content msg
    /\ retryCountOf msg' = retryCountOf msg + Z.of_nat k
    /\ attempts b' = (attempts b + k)%nat
    /\ queueOf dlq b' = queueOf dlq b.
Proof.
  induction k as [|k IH]; intros msg b o os Ht Hq Hr.
  - exists msg, b. simpl. repeat split; try done; lia.
  - assert (Hlt : retryCountOf msg < maxRetries) by lia.
    assert (Hnext : exists o' os', repeat false k ++ o :: os = o' :: os').
    { destruct k; simpl; eauto. }
    destruct Hnext as (o' & os' & Hnext).
    destruct (failure_then_timer msg b o' os' Ht Hq Hlt)
      as (msg1 & b1 & Hstep & Ht1 & Hq1 & Hc1 & _ & Hr1 & Ha1 & Hd1).
    destruct (IH msg1 b1 o os Ht1 Hq1 ltac:(lia))
      as (msg' & b' & Hrun & Ht' & Hq' & Hc' & Hr' & Ha' & Hd').
    exists msg', b'. split.
    + change (repeat false (S k) ++ o :: os)
        with (false :: (repeat false k ++ o :: os)).
      rewrite Hnext, Hstep, <- Hnext. exact Hrun.
    + repeat split; try done; try congruence; lia.
Qed.

(** X16.  The retry budget travels in the message header.  A message that
    arrives alone in its queue with retry count [r >= 0] and keeps failing
    is attempted [4 - r] times (once when [r >= 3]) and then stands on
    the dead-letter queue, once, with its payload, as a persistent message
    without headers; nothing is left in the queue or the timers, and no
    later delivery happens. *)
Theorem failing_message_is_dead_lettered_when_budget_ends
    (msg : ConsumeMessage) (b : Broker) (later : list bool) :
  timers b = [] -> queueOf queue b = [msg] -> 0 <= retryCountOf msg ->
  let n := Z.to_nat (Z.max 1 (4 - retryCountOf msg)) in
  let b' := consume queue dlq (repeat false n ++ later) b in
  attempts b' = (attempts b + n)%nat
  /\ queueOf queue b' = []
  /\ timers b' = []
  /\ queueOf dlq b'
     = queueOf dlq b ++ [mkConsumeMessage (content msg) (mkProperties true ∅)].
Proof.
  intros Ht Hq Hr0. cbv zeta.
  set (k := Z.to_nat (Z.max 0 (3 - retryCountOf msg))).
  assert (Hn : Z.to_nat (Z.max 1 (4 - retryCountOf msg)) = (k + 1)%nat)
    by (unfold k; lia).
  rewrite Hn, List.repeat_app, <- List.app_assoc. simpl.
  assert (Hk : retryCountOf msg + Z.of_nat k <= maxRetries
               \/ (k = 0%nat /\ maxRetries <= retryCountOf msg)).
  { unfold k, maxRetries. lia. }
  assert (Hlast : exists msg' b0,
            consume queue dlq (repeat false k ++ false :: later) b
            = consume queue dlq (false :: later) b0
            /\ timers b0 = [] /\ queueOf queue b0 = [msg']
            /\ content msg' = content msg
            /\ maxRetries <= retryCountOf msg'
            /\ attempts b0 = (attempts b + k)%nat
            /\ queueOf dlq b0 = queueOf dlq b).
  { destruct Hk as [Hk|[Hk Hge]].
    - destruct (failures_within_budget k msg b false later Ht Hq Hk)
        as (msg' & b0 & H1 & H2 & H3 & H4 & H5 & H6 & H7).
      exists msg', b0. repeat split; try done; unfold k, maxRetries in *; lia.
    - exists msg, b. rewrite Hk. simpl. repeat split; try done; lia. }
  destruct Hlast as (msg' & b0 & -> & Ht0 & Hq0 & Hc0 & Hr0' & Ha0 & Hd0).
  destruct b0 as [qs ts n0]. simpl in Ht0. subst ts.
  change (consume queue dlq (false :: later) (mkBroker qs [] n0))
    with (match queueOf queue (mkBroker qs [] n0) with
          | [] => mkBroker qs [] n0
          | m :: rest =>
              consume queue dlq later
                (onMessage queue dlq false m
                   (mkBroker (<[queue := rest]> qs) [] n0))
          end).
  rewrite Hq0. unfold onMessage.
  assert ((retryCountOf msg' <? maxRetries) = false) as -> by (apply Z.ltb_ge; lia).
  rewrite QueueFacts.consume_idle.
  - unfold publish. simpl. split; [simpl in Ha0; lia|]. split; [|split; [done|]].
    + rewrite (queueOf_insert_ne dlq queue _ _ _ _ [] n0) by done.
      apply queueOf_insert_eq.
    + rewrite queueOf_insert_eq.
      rewrite (queueOf_insert_ne queue dlq _ _ _ _ [] n0 distinct_queues).
      by rewrite Hd0, Hc0.
  - done.
  - unfold publish. simpl.
    rewrite (queueOf_insert_ne dlq queue _ _ _ _ [] n0) by done.
    apply queueOf_insert_eq.
Qed.

(** X17.  A message that is processed within its budget is never
    dead-lettered: after [k] failures with [r + k <= 3] and then a success
    the message is gone from queue and timers after [k + 1] attempts, and
    the dead-letter queue is what it was. *)
Theorem message_processed_within_budget_is_not_dead_lettered
    (msg : ConsumeMessage) (b : Broker) (k : nat) (later : list bool) :
  timers b = [] -> queueOf queue b = [msg] ->
  retryCountOf msg + Z.of_nat k <= maxRetries ->
  let b' := consume queue dlq (repeat false k ++ true :: later) b in
  attempts b' = (attempts b + k + 1)%nat
  /\ queueOf queue b' = []
  /\ timers b' = []
  /\ queueOf dlq b' = queueOf dlq b.
Proof.
  intros Ht Hq Hk. cbv zeta.
  destruct (failures_within_budget k msg b true later Ht Hq Hk)
    as (msg' & b0 & -> & Ht0 & Hq0 & _ & _ & Ha0 & Hd0).
  destruct b0 as [qs ts n0]. simpl in Ht0. subst ts.
  change (consume queue dlq (true :: later) (mkBroker qs [] n0))
    with (match queueOf queue (mkBroker qs [] n0) with
          | [] => mkBroker qs [] n0
          | m :: rest =>
              consume queue dlq later
                (onMessage queue dlq true m
                   (mkBroker (<[queue := rest]> qs) [] n0))
          end).
  rewrite Hq0. unfold onMessage.
  rewrite QueueFacts.consume_idle; [|done|apply queueOf_insert_eq].
  simpl. split; [simpl in Ha0; lia|]. split; [apply queueOf_insert_eq|].
  split; [done|].
  by rewrite (queueOf_insert_ne queue dlq _ _ _ _ [] n0 distinct_queues).
Qed.

End Budget.

Lemma failing_message_is_dead_lettered_when_budget_ends_witness :
  let msg := mkConsumeMessage Samples.emptyTask
               (mkProperties true (<["x-retry-count" := 2]> ∅)) in
  let b' := consume fileUploadQueue fileUploadDlq [false; false; true]
              (publish fileUploadQueue msg declared) in
  attempts b' = 2%nat
  /\ queueOf fileUploadDlq b'
     = [mkConsumeMessage Samples.emptyTask (mkProperties true ∅)].
Proof.
  intros msg.
  assert (Hne : fileUploadQueue <> fileUploadDlq) by discriminate.
  assert (Hr : 0 <= retryCountOf msg) by (vm_compute; congruence).
  pose proof (failing_message_is_dead_lettered_when_budget_ends
                fileUploadQueue fileUploadDlq Hne msg
                (publish fileUploadQueue msg declared) [true]
                eq_refl eq_refl Hr) as (Ha & _ & _ & Hd).
  split; [exact Ha | exact Hd].
Defined.

Lemma message_processed_within_budget_is_not_dead_lettered_witness :
  let b' := startConsuming NotificationConsumer [false; false; true; false]
              (publishTask NotificationConsumer Samples.emptyTask declared) in
  attempts b' = 3%nat /\ queueOf notificationDlq b' = [].
Proof.
  assert (Hne : notificationQueue <> notificationDlq) by discriminate.
  set (msg := mkConsumeMessage Samples.emptyTask (mkProperties true ∅)).
  assert (Hr : retryCountOf msg + Z.of_nat 2 <= maxRetries)
    by (vm_compute; congruence).
  pose proof (message_processed_within_budget_is_not_dead_lettered
                notificationQueue notificationDlq Hne msg
                (publishTask NotificationConsumer Samples.emptyTask declared)
                2 [false] eq_refl eq_refl Hr) as (Ha & _ & _ & Hd).
  split; [exact Ha | exact Hd].
Defined.

End QueueRetryFacts.

(** ** Eligibility engine: what eligibility amounts to *)

Module TrailMoreFacts.
Import Trail TrailViews.

Lemma nonempty_length {A} (l : list A) :
  Nat.eqb (length l) 0 = false <-> exists x, In x l.
Proof.
  destruct l as [|x l]; simpl; split; try done.
  - by intros (x & []).
  - intros _. exists x. by left.
Qed.

Lemma favoriteAlbumIds_In db u x :
  In x (favoriteAlbumIds db u) <-> favourited db u x.
Proof.
  unfold favoriteAlbumIds, favourited. rewrite List.in_map_iff. split.
  - intros (f & <- & Hf). apply List.filter_In in Hf as [Hf Hu].
    apply oid_eqb_eq in Hu. by eauto.
  - intros (f & Hf & Hu & <-). exists f. split; [done|].
    apply List.filter_In. split; [done | by apply oid_eqb_eq].
Qed.

Lemma owned_shared_nonempty db A B owner :
  ConnReqLists.canonicalString owner ->
  Nat.eqb (length
    (List.filter (fun a => String.eqb (toHexString (albumUserId a)) owner)
       (List.filter
          (fun a => inIds (mutualFavoriteAlbumIds db (newObjectId A) (newObjectId B))
                      (album_id a) && negb (albumIsDeleted a))
          (albums db)))) 0 = false
  <-> exists a, sharedAlbumOf db (newObjectId A) (newObjectId B)
                  (newObjectId owner) a.
Proof.
  intros Hcan. rewrite nonempty_length. unfold sharedAlbumOf. split.
  - intros (a & Ha). apply List.filter_In in Ha as [Ha Ho].
    apply List.filter_In in Ha as [Ha Hm]. apply andb_true_iff in Hm as [Hm Hd].
    rewrite TrailFacts.mutual_inIds in Hm. apply andb_true_iff in Hm as [H1 H2].
    apply TrailFacts.inIds_In, favoriteAlbumIds_In in H1, H2.
    rewrite (ConnReqListsFacts.canonicalString_eqb _ _ Hcan) in Ho.
    apply oid_eqb_eq in Ho.
    exists a. repeat split; try done. by destruct (albumIsDeleted a).
  - intros (a & Ha & Hd & Ho & H1 & H2). exists a.
    apply List.filter_In. split.
    2:{ rewrite (ConnReqListsFacts.canonicalString_eqb _ _ Hcan).
        by apply oid_eqb_eq. }
    apply List.filter_In. split; [done|].
    rewrite TrailFacts.mutual_inIds, Hd.
    apply favoriteAlbumIds_In, TrailFacts.inIds_In in H1, H2. by rewrite H1, H2.
Qed.

Lemma canonicalString_inj A B :
  ConnReqLists.canonicalString A -> ConnReqLists.canonicalString B ->
  newObjectId A = newObjectId B -> A = B.
Proof. intros [_ HA] [_ HB] Heq. by rewrite <- HA, <- HB, Heq. Qed.

(** X18.  What eligibility amounts to.  For canonical ids the check
    returns a verdict, and the verdict is [eligible] exactly when the two
    users differ, each of them owns a stored, undeleted album that both
    have favourited, and each has reflected on media of the other.  An
    eligible verdict carries no reason and the sum of the two reflection
    counts; an ineligible one carries exactly one reason. *)
Theorem eligible_iff_shared_albums_and_reflections_both_ways
    (db : DB) (A B : string) :
  ConnReqLists.canonicalString A -> ConnReqLists.canonicalString B ->
  exists e,
    checkConnectionEligibility db A B = inr e
    /\ (eligible e = true
        <-> newObjectId A <> newObjectId B
            /\ (exists a, sharedAlbumOf db (newObjectId A) (newObjectId B)
                            (newObjectId A) a)
            /\ (exists a, sharedAlbumOf db (newObjectId A) (newObjectId B)
                            (newObjectId B) a)
            /\ getMediaReflectionsByUser db A B <> []
            /\ getMediaReflectionsByUser db B A <> [])
    /\ (eligible e = true ->
        reasons e = []
        /\ eligReflectionCount e
           = Z.of_nat (length (getMediaReflectionsByUser db A B))
             + Z.of_nat (length (getMediaReflectionsByUser db B A))
        /\ 2 <= eligReflectionCount e)
    /\ (eligible e = false -> length (reasons e) = 1%nat).
Proof.
  intros HcA HcB. pose proof HcA as [HA _]. pose proof HcB as [HB _].
  rewrite TrailFacts.check_unfold, HA, HB. simpl.
  destruct (String.eqb_spec A B) as [Heq|Hne].
  { eexists. split; [reflexivity|]. simpl. split; [|done].
    split; [done|]. intros (Hd & _). by rewrite Heq in Hd. }
  assert (Hdiff : newObjectId A <> newObjectId B).
  { intros Heq. apply Hne. by apply canonicalString_inj. }
  destruct (Nat.eqb (length (favoriteAlbumIds db (newObjectId A))) 0) eqn:E1.
  { eexists. split; [reflexivity|]. simpl. split; [|done]. split; [done|].
    intros (_ & (a & _ & _ & _ & Hin & _) & _).
    apply favoriteAlbumIds_In in Hin.
    apply TrailFacts.length_zero_nil in E1. by rewrite E1 in Hin. }
  destruct (Nat.eqb (length (mutualFavoriteAlbumIds db (newObjectId A)
                               (newObjectId B))) 0) eqn:E2.
  { eexists. split; [reflexivity|]. simpl. split; [|done]. split; [done|].
    intros (_ & (a & _ & _ & _ & H1 & H2) & _).
    apply TrailFacts.length_zero_nil in E2.
    assert (In (album_id a) (mutualFavoriteAlbumIds db (newObjectId A)
                               (newObjectId B))) as Hin.
    { apply TrailFacts.inIds_In. rewrite TrailFacts.mutual_inIds.
      apply favoriteAlbumIds_In, TrailFacts.inIds_In in H1, H2.
      by rewrite H1, H2. }
    by rewrite E2 in Hin. }
  eexists. split; [reflexivity|]. unfold verdict.
  pose proof (owned_shared_nonempty db A B A HcA) as HoA.
  pose proof (owned_shared_nonempty db A B B HcB) as HoB.
  destruct (Nat.eqb (length (List.filter
              (fun a => String.eqb (toHexString (albumUserId a)) A) _)) 0) eqn:EA.
  { simpl. split; [|done]. split; [done|].
    intros (_ & Ha & _). apply HoA in Ha. congruence. }
  destruct (Nat.eqb (length (List.filter
              (fun a => String.eqb (toHexString (albumUserId a)) B) _)) 0) eqn:EB.
  { simpl. split; [|done]. split; [done|].
    intros (_ & _ & Hb & _). apply HoB in Hb. congruence. }
  simpl.
  destruct (getMediaReflectionsByUser db A B) as [|r1 l1] eqn:R1.
  { simpl. split; [|done]. split; [done | by intros (_ & _ & _ & ? & _)]. }
  destruct (getMediaReflectionsByUser db B A) as [|r2 l2] eqn:R2.
  { simpl. split; [|done]. split; [done | by intros (_ & _ & _ & _ & ?)]. }
  simpl. split; [|split; [|done]].
  - split; [|done]. intros _. split; [done|].
    split; [by apply HoA|]. split; [by apply HoB|]. done.
  - intros _. split; [done|]. split; [done|]. lia.
Qed.

Lemma eligible_iff_shared_albums_and_reflections_both_ways_witness :
  exists e,
    checkConnectionEligibility Samples.eligibleDb Samples.alice Samples.bob = inr e
    /\ eligible e = true /\ eligReflectionCount e = 2.
Proof.
  assert (HA : ConnReqLists.canonicalString Samples.alice) by (split; reflexivity).
  assert (HB : ConnReqLists.canonicalString Samples.bob) by (split; reflexivity).
  destruct (eligible_iff_shared_albums_and_reflections_both_ways
              Samples.eligibleDb Samples.alice Samples.bob HA HB)
    as (e & He & _ & _ & _).
  exists e. split; [exact He|].
  vm_compute in He. injection He as <-. split; reflexivity.
Defined.

(** *** Documents found and rewritten in place *)

Lemma find_split {A} (q : A -> bool) (c : list A) x :
  List.find q c = Some x ->
  exists l1 l2, c = l1 ++ x :: l2
    /\ (forall r, In r l1 -> q r = false) /\ q x = true.
Proof.
  induction c as [|y c IH]; simpl; [done|].
  destruct (q y) eqn:E.
  - intros [= <-]. exists [], c. by repeat split.
  - intros H. destruct (IH H) as (l1 & l2 & -> & Hl1 & Hx).
    exists (y :: l1), l2. repeat split; [|done].
    intros r [<-|Hr]; [done | by apply Hl1].
Qed.

Lemma find_first {A} (q : A -> bool) (l1 l2 : list A) x :
  (forall r, In r l1 -> q r = false) -> q x = true ->
  List.find q (l1 ++ x :: l2) = Some x.
Proof.
  intros Hl1 Hx. induction l1 as [|y l1 IH]; simpl; [by rewrite Hx|].
  rewrite (Hl1 y (or_introl eq_refl)). apply IH. intros r Hr. apply Hl1. by right.
Qed.

Lemma find_nowhere {A} (q : A -> bool) (c : list A) :
  (forall r, In r c -> q r = false) -> List.find q c = None.
Proof.
  induction c as [|y c IH]; simpl; intros H; [done|].
  rewrite (H y (or_introl eq_refl)). apply IH. intros r Hr. apply H. by right.
Qed.

Lemma updateOne_first q now f l1 x l2 :
  (forall r, In r l1 -> q r = false) -> q x = true ->
  updateOne q now f (l1 ++ x :: l2) = l1 ++ touched now (f x) :: l2.
Proof.
  intros Hl1 Hx. induction l1 as [|y l1 IH]; simpl; [by rewrite Hx|].
  rewrite (Hl1 y (or_introl eq_refl)). f_equal. apply IH.
  intros r Hr. apply Hl1. by right.
Qed.

Lemma updateOne_nowhere q now f c :
  (forall r, In r c -> q r = false) -> updateOne q now f c = c.
Proof.
  induction c as [|y c IH]; simpl; intros H; [done|].
  rewrite (H y (or_introl eq_refl)). f_equal. apply IH.
  intros r Hr. apply H. by right.
Qed.

Lemma existsb_find {A} (q : A -> bool) (c : list A) :
  existsb q c = match List.find q c with Some _ => true | None => false end.
Proof.
  induction c as [|y c IH]; simpl; [done|]. by destruct (q y).
Qed.

Lemma byPair_eq a b r : byPair a b r = true <-> (userA r, userB r) = (a, b).
Proof.
  unfold byPair. rewrite andb_true_iff, !oid_eqb_eq. split.
  - by intros [-> ->].
  - by intros [= -> ->].
Qed.

(** With one document per pair, a pair's document is the only one the
    pair query matches. *)
Lemma pair_unique a b l1 x l2 :
  pairInvariant (l1 ++ x :: l2) -> byPair a b x = true ->
  forall r, In r (l1 ++ l2) -> byPair a b r = false.
Proof.
  intros [_ Hnd] Hx r Hr.
  destruct (byPair a b r) eqn:E; [exfalso | done].
  apply byPair_eq in Hx, E.
  rewrite List.map_app in Hnd. simpl in Hnd.
  apply NoDup_app in Hnd as (Hn1 & Hcross & Hn2).
  apply NoDup_cons in Hn2 as [Hx2 Hn2].
  apply List.in_app_iff in Hr as [Hr|Hr].
  - apply (Hcross (userA r, userB r)).
    + apply list_elem_of_In, List.in_map_iff. by exists r.
    + rewrite E, <- Hx. by left.
  - apply Hx2. rewrite Hx, <- E.
    apply list_elem_of_In, List.in_map_iff. by exists r.
Qed.

Lemma id_unique l1 x l2 :
  NoDup (List.map _id (l1 ++ x :: l2)) ->
  forall r, In r l1 -> byId (_id x) r = false.
Proof.
  intros Hnd r Hr. destruct (byId (_id x) r) eqn:E; [exfalso | done].
  apply oid_eqb_eq in E. rewrite List.map_app in Hnd. simpl in Hnd.
  apply NoDup_app in Hnd as (_ & Hcross & _).
  apply (Hcross (_id r)).
  - apply list_elem_of_In, List.in_map_iff. by exists r.
  - rewrite E. by left.
Qed.

Lemma normalizeUserIds_comm u1 u2 : normalizeUserIds u1 u2 = normalizeUserIds u2 u1.
Proof.
  destruct (oid_eqb (newObjectId u1) (newObjectId u2)) eqn:E.
  - apply oid_eqb_eq in E. unfold normalizeUserIds. rewrite E.
    by destruct (String.ltb _ _).
  - apply oid_eqb_neq in E. by apply TrailFacts.normalizeUserIds_sym.
Qed.

Lemma check_withConnections db c A B :
  checkConnectionEligibility (withConnections db c) A B
  = checkConnectionEligibility db A B.
Proof. reflexivity. Qed.

(** What a successful [removeConnection] has done. *)
Lemma removeConnection_inv now u1 u2 db res db' :
  removeConnection now u1 u2 db = (inr res, db') ->
  isValid u1 = true /\ isValid u2 = true
  /\ res = mkRemoved true "Connection removed"
  /\ exists l1 x l2,
       connections db = l1 ++ x :: l2
       /\ (forall r, In r l1 ->
             byPair (fst (normalizeUserIds u1 u2)) (snd (normalizeUserIds u1 u2)) r
             = false)
       /\ byPair (fst (normalizeUserIds u1 u2)) (snd (normalizeUserIds u1 u2)) x
          = true
       /\ db' = withConnections db (l1 ++ touched now (setActive false x) :: l2).
Proof.
  unfold removeConnection.
  destruct (isValid u1); [|done]. destruct (isValid u2); [|done]. simpl.
  destruct (normalizeUserIds u1 u2) as [a b] eqn:Hn. simpl.
  unfold matchedCount. rewrite existsb_find.
  destruct (List.find (byPair a b) (connections db)) as [x|] eqn:Hf; [|done].
  simpl. intros [= <- <-]. split; [done|]. split; [done|]. split; [done|].
  destruct (find_split _ _ _ Hf) as (l1 & l2 & Hc & Hl1 & Hx).
  exists l1, x, l2. split; [done|]. split; [done|]. split; [done|].
  by rewrite Hc, (updateOne_first _ _ _ _ _ _ Hl1 Hx).
Qed.

Lemma removeConnection_comm now u1 u2 db :
  removeConnection now u1 u2 db = removeConnection now u2 u1 db.
Proof.
  unfold removeConnection. rewrite (normalizeUserIds_comm u2 u1).
  by destruct (isValid u1), (isValid u2).
Qed.

Lemma getConnectionDetails_inactive db u1 u2 :
  isValid u1 = true -> isValid u2 = true ->
  (forall r, In r (connections db) ->
     byPair (fst (normalizeUserIds u1 u2)) (snd (normalizeUserIds u1 u2)) r
     && isActive r = false) ->
  getConnectionDetails db u1 u2 = inl (NotFoundException "Connection not found").
Proof.
  intros H1 H2 Hnone. unfold getConnectionDetails. rewrite H1, H2. simpl.
  destruct (normalizeUserIds u1 u2) as [a b]. simpl in Hnone.
  unfold findOne. by rewrite (find_nowhere _ _ Hnone).
Qed.

Lemma getConnectionDetails_active db u1 u2 e l1 x l2 :
  isValid u1 = true -> isValid u2 = true ->
  checkConnectionEligibility db u1 u2 = inr e ->
  connections db = l1 ++ x :: l2 ->
  (forall r, In r l1 ->
     byPair (fst (normalizeUserIds u1 u2)) (snd (normalizeUserIds u1 u2)) r
     && isActive r = false) ->
  byPair (fst (normalizeUserIds u1 u2)) (snd (normalizeUserIds u1 u2)) x = true ->
  isActive x = true ->
  getConnectionDetails db u1 u2
  = inr (mkDetails (mkInfo (_id x) (mutualAlbums e) (eligReflectionCount e)
                      (createdAt x)) (eligible e)).
Proof.
  intros H1 H2 He Hc Hl1 Hx Ha. unfold getConnectionDetails.
  rewrite H1, H2, He, Hc. simpl.
  destruct (normalizeUserIds u1 u2) as [a b]. simpl in *.
  unfold findOne. rewrite (find_first _ l1 l2 x Hl1); [done|]. by rewrite Hx, Ha.
Qed.

(** X19.  [removeConnection] is a soft delete of the pair's document.  It
    succeeds exactly when both ids are valid and a document is stored for
    the normalized pair; afterwards [getConnectionDetails] finds no
    connection for the two users in either order, while every document is
    still stored under its id and pair; the order of the two ids makes no
    difference; and a failing call changes nothing. *)
Theorem removeConnection_deactivates_the_pair
    (now : Z) (u1 u2 : string) (db : DB) :
  pairInvariant (connections db) ->
  ((exists res db', removeConnection now u1 u2 db = (inr res, db'))
   <-> isValid u1 = true /\ isValid u2 = true
       /\ exists d, In d (connections db)
            /\ (userA d, userB d) = normalizeUserIds u1 u2)
  /\ (forall res db',
        removeConnection now u1 u2 db = (inr res, db') ->
        getConnectionDetails db' u1 u2
        = inl (NotFoundException "Connection not found")
        /\ getConnectionDetails db' u2 u1
           = inl (NotFoundException "Connection not found")
        /\ List.map skeleton (connections db') = List.map skeleton (connections db)
        /\ removeConnection now u2 u1 db = (inr res, db'))
  /\ (forall e db', removeConnection now u1 u2 db = (inl e, db') -> db' = db).
Proof.
  intros Hinv. split; [|split].
  - split.
    + intros (res & db' & Hrm).
      destruct (removeConnection_inv _ _ _ _ _ _ Hrm)
        as (H1 & H2 & _ & l1 & x & l2 & Hc & _ & Hx & _).
      split; [done|]. split; [done|]. exists x. split.
      * rewrite Hc. apply List.in_app_iff. right. by left.
      * apply byPair_eq in Hx. rewrite Hx. by destruct (normalizeUserIds u1 u2).
    + intros (H1 & H2 & d & Hd & Hpair). unfold removeConnection.
      rewrite H1, H2. simpl. rewrite <- Hpair. unfold matchedCount.
      assert (existsb (byPair (userA d) (userB d)) (connections db) = true) as ->.
      { apply List.existsb_exists. exists d. split; [done|]. by apply byPair_eq. }
      simpl. by eauto.
  - intros res db' Hrm.
    destruct (removeConnection_inv _ _ _ _ _ _ Hrm)
      as (H1 & H2 & _ & l1 & x & l2 & Hc & Hl1 & Hx & ->).
    rewrite Hc in Hinv.
    assert (Hgone : forall r,
              In r (connections
                      (withConnections db
                         (l1 ++ touched now (setActive false x) :: l2))) ->
              byPair (fst (normalizeUserIds u1 u2)) (snd (normalizeUserIds u1 u2)) r
              && isActive r = false).
    { simpl. intros r Hr. apply List.in_app_iff in Hr as [Hr|[<-|Hr]].
      - by rewrite (Hl1 r Hr).
      - apply andb_false_r.
      - rewrite (pair_unique _ _ _ _ _ Hinv Hx r); [done|].
        apply List.in_app_iff. by right. }
    split; [by apply getConnectionDetails_inactive|]. split; [|split].
    + apply getConnectionDetails_inactive; try done.
      by rewrite (normalizeUserIds_comm u2 u1).
    + simpl. rewrite Hc, !List.map_app. done.
    + by rewrite <- removeConnection_comm.
  - unfold removeConnection. intros e db'.
    destruct (negb (isValid u1) || negb (isValid u2)); [by intros [= _ <-]|].
    destruct (normalizeUserIds u1 u2) as [a b].
    destruct (matchedCount (byPair a b) (connections db) =? 0);
      [by intros [= _ <-] | done].
Qed.

Lemma pairInvariant_stored :
  pairInvariant [MoreSamples.storedConnection]
  /\ NoDup (List.map _id [MoreSamples.storedConnection]).
Proof.
  split; [split|].
  - repeat constructor.
  - apply NoDup_singleton.
  - apply NoDup_singleton.
Qed.

Lemma removeConnection_deactivates_the_pair_witness :
  exists res db',
    removeConnection 60 Samples.bob Samples.alice MoreSamples.connectedDb
    = (inr res, db')
    /\ getConnectionDetails db' Samples.alice Samples.bob
       = inl (NotFoundException "Connection not found")
    /\ List.map skeleton (connections db')
       = [(Samples.id3, newObjectId Samples.alice, newObjectId Samples.bob)].
Proof.
  destruct pairInvariant_stored as [Hinv _].
  destruct (removeConnection_deactivates_the_pair 60 Samples.bob Samples.alice
              MoreSamples.connectedDb Hinv) as (_ & Hafter & _).
  destruct (removeConnection 60 Samples.bob Samples.alice MoreSamples.connectedDb)
    as [[e|res] db'] eqn:Hrm; [vm_compute in Hrm; discriminate|].
  destruct (Hafter res db' eq_refl) as (_ & Hd & Hs & _).
  exists res, db'. split; [reflexivity|]. split; [exact Hd|].
  rewrite Hs. reflexivity.
Defined.

(** *** Creating a connection *)

Lemma eligible_distinct db u1 u2 e :
  isValid u1 = true -> isValid u2 = true ->
  checkConnectionEligibility db u1 u2 = inr e -> eligible e = true -> u1 <> u2.
Proof.
  intros H1 H2 He Hel ->. unfold checkConnectionEligibility in He.
  rewrite H2, String.eqb_refl in He. simpl in He. injection He as <-. done.
Qed.

Lemma create_normalized newId now u1 u2 l n c :
  List.find (byPair (fst (normalizeUserIds u1 u2)) (snd (normalizeUserIds u1 u2))) c
  = None ->
  create (mkConnection newId (fst (normalizeUserIds u1 u2))
            (snd (normalizeUserIds u1 u2)) l n true now now) c
  = if existsb (fun r => oid_eqb (_id r) newId) c then inl duplicateKey
    else inr (c ++ [mkConnection newId (fst (normalizeUserIds u1 u2))
                      (snd (normalizeUserIds u1 u2)) l n true now now]).
Proof.
  intros Hnone. unfold create.
  rewrite TrailFacts.preSave_id by apply TrailFacts.normalizeUserIds_ordered.
  simpl. destruct (existsb (fun r => oid_eqb (_id r) newId) c); [done|].
  change (existsb _ c)
    with (existsb (byPair (fst (normalizeUserIds u1 u2))
                     (snd (normalizeUserIds u1 u2))) c).
  by rewrite existsb_find, Hnone.
Qed.

(** [createConnection] for an eligible pair, by what is stored. *)
Lemma createConnection_eligible newId now u1 u2 db e :
  isValid u1 = true -> isValid u2 = true ->
  checkConnectionEligibility db u1 u2 = inr e -> eligible e = true ->
  createConnection newId now u1 u2 db
  = match findOne (byPair (fst (normalizeUserIds u1 u2))
                     (snd (normalizeUserIds u1 u2))) (connections db) with
    | Some existing =>
        if isActive existing
        then (inr (mkCreated true "Already connected" None), db)
        else (inr (mkCreated true "Connection reactivated" None),
              withConnections db
                (updateOne (byId (_id existing)) now
                   (setEligibility (Some true) e) (connections db)))
    | None =>
        if existsb (fun r => oid_eqb (_id r) newId) (connections db)
        then (inl (BadRequestException
                ("Failed to create connection: " +:+ errorMessage duplicateKey)),
              db)
        else (inr (mkCreated true "Connection created" (Some newId)),
              withConnections db
                (connections db
                 ++ [mkConnection newId (fst (normalizeUserIds u1 u2))
                       (snd (normalizeUserIds u1 u2))
                       (List.map summary_id (mutualAlbums e))
                       (eligReflectionCount e) true now now]))
    end.
Proof.
  intros H1 H2 He Hel. pose proof (eligible_distinct _ _ _ _ H1 H2 He Hel) as Hne.
  unfold createConnection. rewrite H1, H2, He, Hel. simpl.
  apply String.eqb_neq in Hne. rewrite Hne.
  destruct (normalizeUserIds u1 u2) as [a b] eqn:Hn. simpl.
  destruct (findOne (byPair a b) (connections db)) as [existing|] eqn:Hf; [done|].
  pose proof (create_normalized newId now u1 u2
                (List.map summary_id (mutualAlbums e)) (eligReflectionCount e)
                (connections db)) as Hcreate.
  rewrite Hn in Hcreate. simpl in Hcreate. rewrite (Hcreate Hf).
  by destruct (existsb _ (connections db)).
Qed.

Lemma createConnection_needs_eligibility newId now u1 u2 db res db' :
  createConnection newId now u1 u2 db = (inr res, db') ->
  isValid u1 = true /\ isValid u2 = true
  /\ exists e, checkConnectionEligibility db u1 u2 = inr e /\ eligible e = true.
Proof.
  unfold createConnection.
  destruct (isValid u1); [|done]. destruct (isValid u2); [|done]. simpl.
  destruct (String.eqb u1 u2); [done|].
  destruct (checkConnectionEligibility db u1 u2) as [err|e]; [done|].
  destruct (eligible e) eqn:Hel; [|done]. intros _. by eauto.
Qed.

Lemma existsb_id_fresh newId (c : list TrailConnection) :
  existsb (fun r => oid_eqb (_id r) newId) c = false
  <-> forall d, In d c -> _id d <> newId.
Proof.
  split.
  - intros H d Hd Heq.
    assert (existsb (fun r => oid_eqb (_id r) newId) c = true); [|congruence].
    apply List.existsb_exists. exists d. split; [done | by apply oid_eqb_eq].
  - intros H. destruct (existsb _ c) eqn:E; [|done].
    apply List.existsb_exists in E as (d & Hd & Heq).
    apply oid_eqb_eq in Heq. by destruct (H d Hd).
Qed.

(** X22.  [createConnection] succeeds exactly when both ids are valid, the
    pair is eligible, and either a document is already stored for the
    normalized pair or the new id is unused.  After a success
    [getConnectionDetails] finds the connection and reports the pair as
    eligible; a failing call changes nothing. *)
Theorem createConnection_succeeds_iff_eligible
    (newId : ObjectId) (now : Z) (u1 u2 : string) (db : DB) :
  NoDup (List.map _id (connections db)) ->
  ((exists res db', createConnection newId now u1 u2 db = (inr res, db'))
   <-> isValid u1 = true /\ isValid u2 = true
       /\ (exists e, checkConnectionEligibility db u1 u2 = inr e
                     /\ eligible e = true)
       /\ ((exists d, In d (connections db)
              /\ (userA d, userB d) = normalizeUserIds u1 u2)
           \/ forall d, In d (connections db) -> _id d <> newId))
  /\ (forall res db',
        createConnection newId now u1 u2 db = (inr res, db') ->
        exists d,
          getConnectionDetails db' u1 u2 = inr d /\ detailsEligible d = true
          /\ connected res = true)
  /\ (forall err db', createConnection newId now u1 u2 db = (inl err, db') ->
        db' = db).
Proof.
  intros Hids. split; [|split].
  - split.
    + intros (res & db' & Hcr).
      destruct (createConnection_needs_eligibility _ _ _ _ _ _ _ Hcr)
        as (H1 & H2 & e & He & Hel).
      split; [done|]. split; [done|]. split; [by eauto|].
      rewrite (createConnection_eligible _ _ _ _ _ _ H1 H2 He Hel) in Hcr.
      unfold findOne in Hcr.
      destruct (List.find _ (connections db)) as [x|] eqn:Hf.
      * left. apply List.find_some in Hf as [Hx Hp]. exists x. split; [done|].
        apply byPair_eq in Hp. rewrite Hp. by destruct (normalizeUserIds u1 u2).
      * right. destruct (existsb _ (connections db)) eqn:E; [done|].
        by apply existsb_id_fresh.
    + intros (H1 & H2 & (e & He & Hel) & Hstore).
      rewrite (createConnection_eligible _ _ _ _ _ _ H1 H2 He Hel).
      unfold findOne.
      destruct (List.find _ (connections db)) as [x|] eqn:Hf.
      * destruct (isActive x); by eauto.
      * destruct Hstore as [(d & Hd & Hp)|Hfresh].
        -- exfalso. pose proof (List.find_none _ _ Hf d Hd) as Hno.
           assert (byPair (fst (normalizeUserIds u1 u2))
                     (snd (normalizeUserIds u1 u2)) d = true); [|congruence].
           apply byPair_eq. rewrite Hp. by destruct (normalizeUserIds u1 u2).
        -- apply existsb_id_fresh in Hfresh. rewrite Hfresh. by eauto.
  - intros res db' Hcr.
    destruct (createConnection_needs_eligibility _ _ _ _ _ _ _ Hcr)
      as (H1 & H2 & e & He & Hel).
    rewrite (createConnection_eligible _ _ _ _ _ _ H1 H2 He Hel) in Hcr.
    unfold findOne in Hcr.
    destruct (List.find _ (connections db)) as [x|] eqn:Hf.
    + destruct (find_split _ _ _ Hf) as (l1 & l2 & Hc & Hl1 & Hx).
      assert (Hl1' : forall r, In r l1 ->
                byPair (fst (normalizeUserIds u1 u2))
                  (snd (normalizeUserIds u1 u2)) r && isActive r = false)
        by (intros r Hr; by rewrite (Hl1 r Hr)).
      destruct (isActive x) eqn:Ha; injection Hcr as <- <-.
      * eexists. split;
          [by apply (getConnectionDetails_active db u1 u2 e l1 x l2)|].
        simpl. by rewrite Hel.
      * eexists. split.
        { rewrite Hc in Hids |- *.
          rewrite (updateOne_first _ _ _ l1 x l2 (id_unique _ _ _ Hids)
                     (oid_eqb_refl _)).
          eapply (getConnectionDetails_active _ u1 u2 e l1 _ l2);
            [done | done | exact He | reflexivity | exact Hl1' | exact Hx | done]. }
        simpl. by rewrite Hel.
    + destruct (existsb _ (connections db)); [done|]. injection Hcr as <- <-.
      eexists. split.
      { eapply (getConnectionDetails_active _ u1 u2 e (connections db) _ []);
          [done | done | exact He | reflexivity | | by apply byPair_eq | done].
        intros r Hr. by rewrite (List.find_none _ _ Hf r Hr). }
      simpl. by rewrite Hel.
  - unfold createConnection. intros err db'.
    destruct (negb (isValid u1) || negb (isValid u2)); [by intros [= _ <-]|].
    destruct (String.eqb u1 u2); [by intros [= _ <-]|].
    destruct (checkConnectionEligibility db u1 u2) as [?|e]; [by intros [= _ <-]|].
    destruct (negb (eligible e)); [by intros [= _ <-]|].
    destruct (normalizeUserIds u1 u2) as [a b].
    destruct (findOne (byPair a b) (connections db)) as [x|].
    + by destruct (isActive x).
    + destruct (create _ (connections db)); [by intros [= _ <-] | done].
Qed.

Lemma createConnection_succeeds_iff_eligible_witness :
  exists res db' d,
    createConnection Samples.id3 50 Samples.bob Samples.alice Samples.eligibleDb
    = (inr res, db')
    /\ getConnectionDetails db' Samples.bob Samples.alice = inr d
    /\ detailsEligible d = true
    /\ info_id (detailsConnection d) = Samples.id3.
Proof.
  destruct (createConnection_succeeds_iff_eligible Samples.id3 50 Samples.bob
              Samples.alice Samples.eligibleDb (NoDup_nil_2)) as (_ & Hafter & _).
  destruct (createConnection Samples.id3 50 Samples.bob Samples.alice
              Samples.eligibleDb) as [[e|res] db'] eqn:Hcr;
    [vm_compute in Hcr; discriminate|].
  destruct (Hafter res db' eq_refl) as (d & Hd & Hel & _).
  exists res, db', d. split; [reflexivity|]. split; [exact Hd|].
  split; [exact Hel|].
  vm_compute in Hcr. injection Hcr as <- <-. vm_compute in Hd.
  by injection Hd as <-.
Defined.

(** X20.  Removing and creating again is a round trip on one document.
    When a connection has been removed and the pair is eligible, the next
    [createConnection], with the ids in either order, reports
    [Connection reactivated]: no document is added, the stored ids and
    pairs are what they were before the removal, and
    [getConnectionDetails] finds the pair's old document again. *)
Theorem removed_connection_is_reactivated_not_duplicated
    (newId : ObjectId) (t1 t2 : Z) (u1 u2 : string) (db : DB)
    (res : Removed) (db1 : DB) (e : Eligibility) :
  pairInvariant (connections db) ->
  NoDup (List.map _id (connections db)) ->
  removeConnection t1 u1 u2 db = (inr res, db1) ->
  checkConnectionEligibility db u1 u2 = inr e ->
  eligible e = true ->
  exists db2 doc d,
    createConnection newId t2 u1 u2 db1
    = (inr (mkCreated true "Connection reactivated" None), db2)
    /\ createConnection newId t2 u2 u1 db1
       = (inr (mkCreated true "Connection reactivated" None), db2)
    /\ List.map skeleton (connections db2) = List.map skeleton (connections db)
    /\ In doc (connections db)
    /\ (userA doc, userB doc) = normalizeUserIds u1 u2
    /\ getConnectionDetails db2 u1 u2 = inr d
    /\ info_id (detailsConnection d) = _id doc
    /\ infoConnectedAt (detailsConnection d) = createdAt doc
    /\ detailsEligible d = true.
Proof.
  intros Hinv Hids Hrm He Hel.
  destruct (removeConnection_inv _ _ _ _ _ _ Hrm)
    as (H1 & H2 & _ & l1 & x & l2 & Hc & Hl1 & Hx & ->).
  set (x1 := touched t1 (setActive false x)).
  set (x2 := touched t2 (setEligibility (Some true) e x1)).
  assert (Hfind : findOne (byPair (fst (normalizeUserIds u1 u2))
                             (snd (normalizeUserIds u1 u2)))
                    (connections (withConnections db (l1 ++ x1 :: l2)))
                  = Some x1).
  { simpl. apply find_first; done. }
  assert (Hupd : updateOne (byId (_id x1)) t2 (setEligibility (Some true) e)
                   (l1 ++ x1 :: l2) = l1 ++ x2 :: l2).
  { apply updateOne_first; [|apply oid_eqb_refl].
    rewrite Hc in Hids. apply (id_unique _ _ _ Hids). }
  assert (Hcreate : createConnection newId t2 u1 u2
                      (withConnections db (l1 ++ x1 :: l2))
                    = (inr (mkCreated true "Connection reactivated" None),
                       withConnections db (l1 ++ x2 :: l2))).
  { rewrite (createConnection_eligible newId t2 u1 u2
               (withConnections db (l1 ++ x1 :: l2)) e H1 H2 He Hel), Hfind.
    change (isActive x1) with false. cbv iota.
    change (connections (withConnections db (l1 ++ x1 :: l2)))
      with (l1 ++ x1 :: l2).
    by rewrite Hupd. }
  exists (withConnections db (l1 ++ x2 :: l2)), x. eexists.
  split; [exact Hcreate|]. split; [|split; [|split; [|split; [|split]]]].
  - rewrite TrailFacts.checkConnectionEligibility_comm in He.
    rewrite (createConnection_eligible newId t2 u2 u1
               (withConnections db (l1 ++ x1 :: l2)) e H2 H1 He Hel).
    rewrite (normalizeUserIds_comm u2 u1), Hfind.
    change (isActive x1) with false. cbv iota.
    change (connections (withConnections db (l1 ++ x1 :: l2)))
      with (l1 ++ x1 :: l2).
    by rewrite Hupd.
  - simpl. by rewrite Hc, !List.map_app.
  - rewrite Hc. apply List.in_app_iff. right. by left.
  - apply byPair_eq in Hx. rewrite Hx. by destruct (normalizeUserIds u1 u2).
  - eapply (getConnectionDetails_active _ u1 u2 e l1 x2 l2);
      [done | done | exact He | reflexivity | | exact Hx | done].
    intros r Hr. by rewrite (Hl1 r Hr).
  - simpl. by rewrite Hel.
Qed.

Lemma removed_connection_is_reactivated_not_duplicated_witness :
  exists res db1 db2,
    removeConnection 60 Samples.alice Samples.bob MoreSamples.connectedDb
    = (inr res, db1)
    /\ createConnection Samples.id4 70 Samples.bob Samples.alice db1
       = (inr (mkCreated true "Connection reactivated" None), db2)
    /\ List.map skeleton (connections db2)
       = [(Samples.id3, newObjectId Samples.alice, newObjectId Samples.bob)].
Proof.
  destruct pairInvariant_stored as [Hinv Hids].
  destruct (removeConnection 60 Samples.alice Samples.bob MoreSamples.connectedDb)
    as [[err|res] db1] eqn:Hrm; [vm_compute in Hrm; discriminate|].
  destruct (checkConnectionEligibility MoreSamples.connectedDb Samples.alice
              Samples.bob) as [err|e] eqn:He; [vm_compute in He; discriminate|].
  assert (Hel : eligible e = true)
    by (vm_compute in He; by injection He as <-).
  destruct (removed_connection_is_reactivated_not_duplicated Samples.id4 60 70
              Samples.alice Samples.bob MoreSamples.connectedDb res db1 e
              Hinv Hids Hrm He Hel)
    as (db2 & doc & d & _ & Hcr & Hs & _).
  exists res, db1, db2. split; [reflexivity|]. split; [exact Hcr|].
  rewrite Hs. reflexivity.
Defined.

(** X21.  [updateConnectionEligibility] stores the current verdict.  For
    valid ids, when no active document is stored for the pair it reports
    that and changes nothing; otherwise it rewrites that one document in
    place with the current mutual albums and reflection count, keeps it
    active exactly when the pair is still eligible, and afterwards
    [getConnectionDetails] finds the connection exactly in that case. *)
Theorem updateConnectionEligibility_stores_current_verdict
    (now : Z) (u1 u2 : string) (db : DB) :
  pairInvariant (connections db) ->
  NoDup (List.map _id (connections db)) ->
  isValid u1 = true -> isValid u2 = true ->
  exists e,
    checkConnectionEligibility db u1 u2 = inr e
    /\ match findOne (fun r => byPair (fst (normalizeUserIds u1 u2))
                                 (snd (normalizeUserIds u1 u2)) r && isActive r)
               (connections db) with
       | None =>
           updateConnectionEligibility now u1 u2 db
           = (mkUpdated false (Some "No active connection found") None, db)
       | Some doc =>
           exists l1 l2 res,
             connections db = l1 ++ doc :: l2
             /\ updateConnectionEligibility now u1 u2 db
                = (res, withConnections db (l1 ++ reevaluated now e doc :: l2))
             /\ updated res = true
             /\ ((exists d, getConnectionDetails
                              (withConnections db
                                 (l1 ++ reevaluated now e doc :: l2)) u1 u2
                            = inr d)
                 <-> eligible e = true)
       end.
Proof.
  intros Hinv Hids H1 H2.
  destruct (checkConnectionEligibility db u1 u2) as [err|e] eqn:He.
  { unfold checkConnectionEligibility in He. rewrite H1, H2 in He. simpl in He.
    destruct (String.eqb u1 u2); [done|].
    destruct (Nat.eqb _ 0); [done|]. destruct (Nat.eqb _ 0); [done|].
    destruct (_ || _); [done|]. by destruct (_ || _). }
  exists e. split; [done|].
  unfold updateConnectionEligibility. rewrite H1, H2, He. simpl.
  destruct (normalizeUserIds u1 u2) as [a b] eqn:Hn. simpl.
  destruct (findOne _ (connections db)) as [doc|] eqn:Hf; [|done].
  destruct (find_split _ _ _ Hf) as (l1 & l2 & Hc & Hl1 & Hdoc).
  apply andb_true_iff in Hdoc as [Hpair Hact].
  assert (Hid1 : forall r, In r l1 -> byId (_id doc) r = false).
  { rewrite Hc in Hids. apply (id_unique _ _ _ Hids). }
  assert (Hrest : forall r, In r (l1 ++ l2) -> byPair a b r = false).
  { rewrite Hc in Hinv. apply (pair_unique _ _ _ _ _ Hinv Hpair). }
  assert (Hstep1 : updateOne (byId (_id doc)) now (setEligibility None e)
                     (connections db)
                   = l1 ++ touched now (setEligibility None e doc) :: l2).
  { rewrite Hc. apply updateOne_first; [done | apply oid_eqb_refl]. }
  exists l1, l2. rewrite Hstep1.
  assert (Hdetails : forall x,
            byPair a b x = true ->
            ((exists d, getConnectionDetails
                          (withConnections db (l1 ++ x :: l2)) u1 u2 = inr d)
             <-> isActive x = true)).
  { intros x Hx. destruct (isActive x) eqn:Hax.
    - split; [done|]. intros _. eexists.
      eapply (getConnectionDetails_active _ u1 u2 e l1 x l2);
        [done | done | exact He | reflexivity | | by rewrite Hn | done].
      intros r Hr. rewrite Hn. simpl.
      rewrite (Hrest r); [done|]. apply List.in_app_iff. by left.
    - split; [|done]. intros (d & Hd).
      rewrite getConnectionDetails_inactive in Hd; [done | done | done |].
      rewrite Hn. simpl. intros r Hr.
      apply List.in_app_iff in Hr as [Hr|[<-|Hr]].
      + rewrite (Hrest r); [done|]. apply List.in_app_iff. by left.
      + by rewrite Hax, andb_false_r.
      + rewrite (Hrest r); [done|]. apply List.in_app_iff. by right. }
  destruct (eligible e) eqn:Hel; simpl.
  - exists (mkUpdated true (Some "Connection updated") None).
    split; [done|]. split; [|split; [done|]].
    + do 3 f_equal. unfold reevaluated, touched, setEligibility. simpl.
      by rewrite Hel, Hact.
    + rewrite (Hdetails (reevaluated now e doc) Hpair). simpl. by rewrite Hel.
  - exists (mkUpdated true (Some "Connection deactivated (no longer eligible)")
              None).
    split; [done|]. split; [|split; [done|]].
    + rewrite updateOne_first; [|done|apply oid_eqb_refl].
      do 3 f_equal. unfold reevaluated, touched, setEligibility, setActive.
      simpl. by rewrite Hel.
    + rewrite (Hdetails (reevaluated now e doc) Hpair). simpl. by rewrite Hel.
Qed.

Lemma updateConnectionEligibility_stores_current_verdict_witness :
  exists res db',
    updateConnectionEligibility 90 Samples.alice Samples.bob MoreSamples.driftedDb
    = (res, db')
    /\ updated res = true
    /\ List.map (fun r => (_id r, isActive r, updatedAt r)) (connections db')
       = [(Samples.id3, false, 90)].
Proof.
  destruct pairInvariant_stored as [Hinv Hids].
  destruct (updateConnectionEligibility_stores_current_verdict 90 Samples.alice
              Samples.bob MoreSamples.driftedDb Hinv Hids eq_refl eq_refl)
    as (e & He & Hcase).
  vm_compute in He. injection He as <-.
  change (findOne _ (connections MoreSamples.driftedDb))
    with (Some MoreSamples.storedConnection) in Hcase.
  destruct Hcase as (l1 & l2 & res & Hc & Hupd & Hres & _).
  exists res. eexists. split; [exact Hupd|]. split; [exact Hres|].
  destruct l1 as [|y l1]; [|destruct l1; discriminate].
  injection Hc as <-. reflexivity.
Defined.

(** *** The list of connections *)

Lemma checkConnectionEligibility_valid db u1 u2 :
  isValid u1 = true -> isValid u2 = true ->
  exists e, checkConnectionEligibility db u1 u2 = inr e.
Proof.
  intros H1 H2. unfold checkConnectionEligibility. rewrite H1, H2. simpl.
  destruct (String.eqb u1 u2); [by eauto|].
  destruct (Nat.eqb _ 0); [by eauto|]. destruct (Nat.eqb _ 0); [by eauto|].
  destruct (_ || _); [by eauto|]. destruct (_ || _); by eauto.
Qed.

Lemma trail_insertNewest_perm x l : Permutation (insertNewest x l) (x :: l).
Proof.
  induction l as [|y l IH]; simpl; [done|].
  destruct (createdAt x <? createdAt y); [|done]. rewrite IH. apply perm_swap.
Qed.

Lemma trail_sortNewest_perm l : Permutation (sortNewest l) l.
Proof.
  induction l as [|x l IH]; simpl; [done|].
  rewrite trail_insertNewest_perm. by constructor.
Qed.

Lemma trail_sortNewest_In l r : In r (sortNewest l) <-> In r l.
Proof.
  split; intros H; eapply Permutation_in; try exact H;
    [apply trail_sortNewest_perm | symmetry; apply trail_sortNewest_perm].
Qed.

Lemma trail_sortNewest_sorted l :
  StronglySorted (fun a b => createdAt b <= createdAt a) (sortNewest l).
Proof.
  induction l as [|x l IH]; simpl; [constructor|].
  revert IH. generalize (sortNewest l) as s.
  induction s as [|y s IHs]; simpl; intros Hs; [repeat constructor|].
  apply StronglySorted_inv in Hs as [Hs Hy].
  destruct (createdAt x <? createdAt y) eqn:E.
  - apply Z.ltb_lt in E. constructor; [by apply IHs|].
    eapply Permutation_Forall; [symmetry; apply trail_insertNewest_perm|].
    constructor; [lia | exact Hy].
  - apply Z.ltb_ge in E. constructor; [by constructor|].
    constructor; [exact E|].
    eapply List.Forall_impl; [|exact Hy]. simpl. intros. lia.
Qed.

(** An active document joins [U] and [V], in either role. *)
Lemma listed_iff_active_document profiles u v db l :
  ConnReqLists.canonicalString u -> ConnReqLists.canonicalString v ->
  getConnections profiles u db = inr l ->
  (exists e, In e l /\ cvUserId e = v)
  <-> exists r, In r (connections db) /\ isActive r = true
        /\ ((userA r = newObjectId u /\ userB r = newObjectId v)
            \/ (userA r = newObjectId v /\ userB r = newObjectId u)).
Proof.
  intros Hu Hv. pose proof Hu as [Hvu Hru]. pose proof Hv as [_ Hrv].
  unfold getConnections. rewrite Hvu. simpl. intros [= <-]. split.
  - intros (e & He & Hid). apply List.in_map_iff in He as (r & <- & Hr).
    simpl in Hid. apply trail_sortNewest_In, List.filter_In in Hr as [Hr Hact].
    unfold activeOf in Hact. apply andb_true_iff in Hact as [Hinv Hact].
    exists r. split; [done|]. split; [done|].
    unfold otherUser in Hid.
    rewrite (ConnReqListsFacts.canonicalString_eqb _ _ Hu) in Hid.
    rewrite <- Hrv in Hid.
    destruct (oid_eqb (userA r) (newObjectId u)) eqn:E.
    + apply MsgFacts.toHexString_inj in Hid. apply oid_eqb_eq in E. by left.
    + simpl in Hinv. apply MsgFacts.toHexString_inj in Hid.
      apply oid_eqb_eq in Hinv. by right.
  - intros (r & Hr & Hact & Hpair).
    exists (mkConnectionView (_id r) (toHexString (otherUser u r))
              (buildCardMap
                 (if (0 <? length (List.map (otherUser u)
                        (sortNewest (List.filter (activeOf (newObjectId u))
                                       (connections db)))))%nat
                  then ConnReqLists.findProfiles
                         (List.map (otherUser u)
                            (sortNewest (List.filter (activeOf (newObjectId u))
                                           (connections db)))) profiles
                  else [])
               !! toHexString (otherUser u r))
              (omap (fun id =>
                       buildAlbumMap
                         (List.filter
                            (fun a => inIds
                               (List.concat
                                  (List.map mutualAlbumIds
                                     (sortNewest
                                        (List.filter (activeOf (newObjectId u))
                                           (connections db)))))
                               (album_id a)) (albums db))
                       !! toHexString id) (mutualAlbumIds r))
              (reflectionCount r) (createdAt r)).
    split.
    + apply List.in_map_iff. exists r. split; [reflexivity|].
      apply trail_sortNewest_In, List.filter_In. split; [done|].
      unfold activeOf. rewrite Hact, andb_true_r.
      destruct Hpair as [[-> _]|[_ ->]]; rewrite oid_eqb_refl; [done|].
      apply orb_true_r.
    + simpl. unfold otherUser.
      rewrite (ConnReqListsFacts.canonicalString_eqb _ _ Hu).
      destruct Hpair as [[HA HB]|[HA HB]].
      * by rewrite HA, oid_eqb_refl, HB.
      * destruct (oid_eqb (userA r) (newObjectId u)) eqn:E.
        -- apply oid_eqb_eq in E. rewrite HB, <- E, HA. done.
        -- by rewrite HA.
Qed.

Lemma getConnections_shape profiles u db l :
  getConnections profiles u db = inr l ->
  Permutation (List.map cv_id l)
    (List.map _id (List.filter (activeOf (newObjectId u)) (connections db)))
  /\ StronglySorted (fun e1 e2 => cvConnectedAt e2 <= cvConnectedAt e1) l.
Proof.
  unfold getConnections. destruct (isValid u); [|done]. simpl.
  intros [= <-]. split.
  - rewrite List.map_map. simpl. apply Permutation_map, trail_sortNewest_perm.
  - generalize (trail_sortNewest_sorted
                  (List.filter (activeOf (newObjectId u)) (connections db))).
    generalize (buildCardMap
                  (if (0 <? length (List.map (otherUser u)
                         (sortNewest (List.filter (activeOf (newObjectId u))
                                        (connections db)))))%nat
                   then ConnReqLists.findProfiles
                          (List.map (otherUser u)
                             (sortNewest (List.filter (activeOf (newObjectId u))
                                            (connections db)))) profiles
                   else [])) as cards.
    generalize (buildAlbumMap
                  (List.filter
                     (fun a => inIds
                        (List.concat
                           (List.map mutualAlbumIds
                              (sortNewest
                                 (List.filter (activeOf (newObjectId u))
                                    (connections db)))))
                        (album_id a)) (albums db))) as covers.
    generalize (sortNewest (List.filter (activeOf (newObjectId u))
                              (connections db))) as found.
    intros found covers cards.
    induction found as [|x found IH]; simpl; intros Hs; [constructor|].
    apply StronglySorted_inv in Hs as [Hs Hx].
    constructor; [by apply IH|].
    apply List.Forall_forall. intros e He.
    apply List.in_map_iff in He as (r & <- & Hr). simpl.
    rewrite List.Forall_forall in Hx. by apply Hx.
Qed.

(** X23.  The list view and the detail view agree.  For canonical ids and
    documents stored with their pair in order, [getConnections] of a user
    shows the active connections the user takes part in, each once,
    newest first; it lists another user exactly when that user's list
    shows the first one, and exactly when [getConnectionDetails] finds a
    connection for the two. *)
Theorem getConnections_agrees_with_getConnectionDetails
    (profiles : list ConnReqLists.UserProfile) (u v : string) (db : DB) :
  Forall ordered (connections db) ->
  ConnReqLists.canonicalString u -> ConnReqLists.canonicalString v ->
  exists lu lv,
    getConnections profiles u db = inr lu
    /\ getConnections profiles v db = inr lv
    /\ Permutation (List.map cv_id lu)
         (List.map _id (List.filter (activeOf (newObjectId u)) (connections db)))
    /\ StronglySorted (fun e1 e2 => cvConnectedAt e2 <= cvConnectedAt e1) lu
    /\ ((exists e, In e lu /\ cvUserId e = v)
        <-> (exists e, In e lv /\ cvUserId e = u))
    /\ ((exists e, In e lu /\ cvUserId e = v)
        <-> exists d, getConnectionDetails db u v = inr d).
Proof.
  intros Hord Hu Hv. pose proof Hu as [Hvu _]. pose proof Hv as [Hvv _].
  destruct (getConnections profiles u db) as [err|lu] eqn:Hlu;
    [unfold getConnections in Hlu; by rewrite Hvu in Hlu|].
  destruct (getConnections profiles v db) as [err|lv] eqn:Hlv;
    [unfold getConnections in Hlv; by rewrite Hvv in Hlv|].
  exists lu, lv. split; [done|]. split; [done|].
  pose proof (listed_iff_active_document profiles u v db lu Hu Hv Hlu) as Huv.
  pose proof (listed_iff_active_document profiles v u db lv Hv Hu Hlv) as Hvu'.
  destruct (getConnections_shape profiles u db lu Hlu) as [Hperm Hsorted].
  split; [exact Hperm|]. split; [exact Hsorted|]. split.
  - rewrite Huv, Hvu'. split; intros (r & Hr & Hact & Hpair);
      exists r; (split; [done|]); (split; [done|]); tauto.
  - rewrite Huv.
    destruct (checkConnectionEligibility_valid db u v Hvu Hvv) as (e & He).
    pose proof (TrailFacts.normalizeUserIds_ordered u v) as Hno.
    pose proof (TrailFacts.normalizeUserIds_pair u v) as Hnp.
    unfold getConnectionDetails. rewrite Hvu, Hvv, He. simpl.
    destruct (normalizeUserIds u v) as [a b]. simpl in Hno.
    unfold findOne. split.
    + intros (r & Hr & Hact & Hpair).
      assert (Hab : byPair a b r = true).
      { rewrite List.Forall_forall in Hord. pose proof (Hord r Hr) as Hor.
        unfold ordered in Hor. apply byPair_eq.
        destruct Hnp as [[= -> ->]|[= -> ->]];
          destruct Hpair as [[HA HB]|[HA HB]]; rewrite HA, HB in *; try done.
        - by rewrite (MsgFacts.toHexString_inj _ _
                        (TrailFacts.ltb_trichotomy _ _ Hor Hno)).
        - by rewrite (MsgFacts.toHexString_inj _ _
                        (TrailFacts.ltb_trichotomy _ _ Hor Hno)). }
      destruct (List.find _ (connections db)) as [x|] eqn:Hf; [by eauto|].
      pose proof (List.find_none _ _ Hf r Hr) as Hno'. simpl in Hno'.
      by rewrite Hab, Hact in Hno'.
    + intros (d & Hd).
      destruct (List.find _ (connections db)) as [x|] eqn:Hf; [|done].
      apply List.find_some in Hf as [Hx Hq].
      apply andb_true_iff in Hq as [Hq Hact]. apply byPair_eq in Hq.
      exists x. split; [done|]. split; [done|].
      destruct Hnp as [[= <- <-]|[= <- <-]]; injection Hq as -> ->; tauto.
Qed.

Lemma getConnections_agrees_with_getConnectionDetails_witness :
  getConnections [] Samples.alice MoreSamples.connectedDb
  = inr [mkConnectionView Samples.id3 Samples.bob None
           [mkSummary Samples.albumOfBob "Hills" None;
            mkSummary Samples.albumOfAlice "Lakes" None] 2 50]
  /\ exists d, getConnectionDetails MoreSamples.connectedDb Samples.alice
                 Samples.bob = inr d.
Proof.
  assert (Hu : ConnReqLists.canonicalString Samples.alice) by (split; reflexivity).
  assert (Hv : ConnReqLists.canonicalString Samples.bob) by (split; reflexivity).
  assert (Hord : Forall ordered (connections MoreSamples.connectedDb))
    by (repeat constructor).
  destruct (getConnections_agrees_with_getConnectionDetails [] Samples.alice
              Samples.bob MoreSamples.connectedDb Hord Hu Hv)
    as (lu & lv & Hlu & _ & _ & _ & _ & Hiff).
  vm_compute in Hlu. injection Hlu as <-. split; [reflexivity|].
  apply Hiff. eexists. split; [by left | reflexivity].
Defined.

End TrailMoreFacts.

(** ** File-upload consumer *)

Module UploadFacts.
Import Msg Upload.

Lemma findById_save id d c :
  _id d = id ->
  findById id (save d c)
  = match findById id c with Some _ => Some d | None => None end.
Proof.
  intros Hd. unfold findById. induction c as [|m c IH]; simpl; [done|].
  destruct (oid_eqb (_id m) (_id d)) eqn:E; simpl.
  - rewrite Hd in *. by rewrite E, oid_eqb_refl.
  - rewrite Hd in E. by rewrite E.
Qed.

Lemma save_besidesUpload d c message :
  findById (_id d) c = Some message ->
  besidesUpload d = besidesUpload message ->
  List.map besidesUpload (save d c) = List.map besidesUpload c.
Proof.
  unfold findById. intros Hf Hsame.
  induction c as [|m c IH]; simpl in *; [done|].
  destruct (oid_eqb (_id m) (_id d)); simpl.
  - injection Hf as ->. by rewrite Hsame.
  - f_equal. by apply IH.
Qed.

Lemma truthy_Some s t : truthy s = Some t -> s = Some t /\ t <> "".
Proof.
  destruct s as [s|]; simpl; [|done].
  destruct (String.eqb_spec s ""); [done|]. by intros [= <-].
Qed.

Lemma truthy_nonempty t : t <> "" -> truthy (Some t) = Some t.
Proof. intros H. simpl. by destruct (String.eqb_spec t ""). Qed.

Ltac throws :=
  split; [split; [by intros (? & ?) | ]
         |split; [done | split; [by intros ? ? [= _ <-] | done]]].

(** X25.  [processMessage] succeeds exactly when the task names a valid
    id of a stored message that either already has its file URL or can
    be given one because a bucket is configured.  After a success the
    message is marked uploaded and has a non-empty URL; a failure changes
    nothing; and no outcome touches any field of any message besides
    [fileUrl], [isFileUploaded] and [updatedAt]. *)
Theorem processMessage_writes_only_upload_fields
    (config : Config) (now : Z) (messageData : FileUploadMessage)
    (c : Collection) :
  ((exists c', processMessage config now messageData c = (inr tt, c'))
   <-> isValid (taskMessageId messageData) = true
       /\ exists message,
            findById (newObjectId (taskMessageId messageData)) c = Some message
            /\ ((isFileUploaded message = true
                 /\ exists url, fileUrl message = Some url /\ url <> "")
                \/ exists bucket, AWS_S3_BUCKET config = Some bucket
                                  /\ bucket <> ""))
  /\ (forall c', processMessage config now messageData c = (inr tt, c') ->
        exists m url,
          findById (newObjectId (taskMessageId messageData)) c' = Some m
          /\ isFileUploaded m = true /\ fileUrl m = Some url /\ url <> "")
  /\ (forall e c', processMessage config now messageData c = (inl e, c') ->
        c' = c)
  /\ List.map besidesUpload (snd (processMessage config now messageData c))
     = List.map besidesUpload c.
Proof.
  unfold processMessage.
  destruct (isValid (taskMessageId messageData)) eqn:Hv; simpl;
    [|throws; by intros (? & _)].
  destruct (findById (newObjectId (taskMessageId messageData)) c)
    as [message|] eqn:Hf; [|throws; by intros (_ & ? & ? & _)].
  pose proof (MsgFacts.message_findById_id _ _ _ Hf) as [Hid _].
  destruct (isFileUploaded message && isSome (truthy (fileUrl message)))
    eqn:Hdone.
  - apply andb_true_iff in Hdone as [Hup Hurl].
    destruct (truthy (fileUrl message)) as [url|] eqn:Ht; [|done].
    apply truthy_Some in Ht as [Ht Hne].
    split; [split; [intros _ | by eauto]|].
    { split; [done|]. exists message. split; [done|]. left. by eauto. }
    split; [|split; [done | done]].
    intros c' [= <-]. exists message, url. by rewrite Hf.
  - assert (Hnot : ~ (isFileUploaded message = true
                      /\ exists url, fileUrl message = Some url /\ url <> "")).
    { intros (Hup & url & Hu & Hne).
      by rewrite Hup, Hu, (truthy_nonempty _ Hne) in Hdone. }
    destruct (truthy (AWS_S3_BUCKET config)) as [bucket|] eqn:Hb.
    + apply truthy_Some in Hb as [Hb Hne].
      split; [split; [intros _ | by eauto]|].
      { split; [done|]. exists message. split; [done|]. right. by eauto. }
      split; [|split; [done|]].
      * intros c' [= <-]. eexists.
        exists (publicUrl config (taskFileKey messageData) bucket).
        rewrite findById_save, Hf by done. by repeat split.
      * simpl. apply (save_besidesUpload _ _ message); [|done].
        simpl. by rewrite Hid.
    + throws.
      intros (_ & m & [= <-] & [H|(bucket & Hbk & Hne)]); [done|].
      by rewrite Hbk, (truthy_nonempty _ Hne) in Hb.
Qed.

Lemma processMessage_settled config now messageData c m :
  isValid (taskMessageId messageData) = true ->
  findById (newObjectId (taskMessageId messageData)) c = Some m ->
  isFileUploaded m && isSome (truthy (fileUrl m)) = true ->
  processMessage config now messageData c = (inr tt, c).
Proof. intros Hv Hf Hdone. unfold processMessage. by rewrite Hv, Hf, Hdone. Qed.

Lemma processMessage_success_settles config now messageData c c1 :
  processMessage config now messageData c = (inr tt, c1) ->
  exists m,
    findById (newObjectId (taskMessageId messageData)) c1 = Some m
    /\ isFileUploaded m && isSome (truthy (fileUrl m)) = true.
Proof.
  unfold processMessage.
  destruct (isValid (taskMessageId messageData)); [|done]. simpl.
  destruct (findById (newObjectId (taskMessageId messageData)) c)
    as [message|] eqn:Hf; [|done].
  pose proof (MsgFacts.message_findById_id _ _ _ Hf) as [Hid _].
  destruct (isFileUploaded message && isSome (truthy (fileUrl message)))
    eqn:Hdone.
  - intros [= <-]. by eauto.
  - destruct (truthy (AWS_S3_BUCKET config)) as [bucket|]; [|done].
    intros [= <-]. eexists. by rewrite findById_save, Hf.
Qed.

(** X24.  The first upload wins.  Once [processMessage] has succeeded for
    a message, every later task for that message, under any
    configuration and whatever file it names, succeeds without changing
    anything; in particular a task that is delivered twice is applied
    once. *)
Theorem processMessage_first_upload_wins
    (config config' : Config) (now now' : Z)
    (messageData messageData' : FileUploadMessage) (c c1 : Collection) :
  processMessage config now messageData c = (inr tt, c1) ->
  isValid (taskMessageId messageData') = true ->
  newObjectId (taskMessageId messageData') = newObjectId (taskMessageId messageData) ->
  processMessage config' now' messageData' c1 = (inr tt, c1).
Proof.
  intros Hfirst Hv' Hsame.
  destruct (processMessage_success_settles _ _ _ _ _ Hfirst) as (m & Hm & Hdone).
  rewrite <- Hsame in Hm. by apply (processMessage_settled _ _ _ _ m).
Qed.

Lemma processMessage_first_upload_wins_witness :
  let c := [Samples.textMessage Samples.id1 (newObjectId Samples.alice)
              (newObjectId Samples.bob) "photo" false 100] in
  let task := mkFileUploadMessage "000000000000000000000001" "chat/a.png"
                "a.png" "image/png" 10 Samples.alice Samples.bob in
  let other := mkFileUploadMessage "000000000000000000000001" "chat/b.png"
                 "b.png" "image/png" 12 Samples.alice Samples.bob in
  exists c1,
    processMessage (mkConfig (Some "bucket") None) 150 task c = (inr tt, c1)
    /\ List.map fileUrl c1
       = [Some "https://bucket.s3.us-east-1.amazonaws.com/chat/a.png"]
    /\ processMessage (mkConfig None None) 160 other c1 = (inr tt, c1).
Proof.
  intros c task other.
  destruct (processMessage (mkConfig (Some "bucket") None) 150 task c)
    as [[[e]|[]] c1] eqn:Hfirst; [vm_compute in Hfirst; discriminate|].
  exists c1. split; [reflexivity|]. split.
  - vm_compute in Hfirst. by injection Hfirst as <-.
  - exact (processMessage_first_upload_wins _ (mkConfig None None) _ 160 _ other
             _ _ Hfirst eq_refl eq_refl).
Defined.

(** *** The loop around [processMessage] *)

Section Loop.

Variable parse : list Byte.byte -> option FileUploadMessage.
Variable config : Config.

Lemma run_idle clock b c :
  Queue.timers b = [] -> Queue.queueOf Queue.fileUploadQueue b = [] ->
  run parse config clock b c = (b, c).
Proof.
  intros Ht Hq. destruct clock as [|now clock]; simpl; [done|].
  by rewrite (QueueFacts.fireTimers_idle b Ht), Hq.
Qed.

Lemma run_step now clock b c msg rest :
  Queue.timers b = [] ->
  Queue.queueOf Queue.fileUploadQueue b = msg :: rest ->
  run parse config (now :: clock) b c
  = run parse config clock
      (Queue.onMessage Queue.fileUploadQueue Queue.fileUploadDlq
         (succeeded (fst (processDelivery parse config now msg c))) msg
         (Queue.mkBroker (<[Queue.fileUploadQueue := rest]> (Queue.queues b)) []
            (Queue.attempts b)))
      (snd (processDelivery parse config now msg c)).
Proof.
  intros Ht Hq. simpl. rewrite (QueueFacts.fireTimers_idle b Ht), Hq, Ht.
  by destruct (processDelivery parse config now msg c).
Qed.

Lemma queueOf_publish q q' m b :
  Queue.queueOf q (Queue.publish q' m b)
  = if decide (q' = q) then Queue.queueOf q b ++ [m] else Queue.queueOf q b.
Proof.
  unfold Queue.publish, Queue.queueOf at 1. simpl. rewrite lookup_insert.
  by destruct (decide (q' = q)) as [->|].
Qed.

Lemma carries_fireTimers payload b :
  carries payload b -> carries payload (Queue.fireTimers b).
Proof.
  intros [Hq Ht]. split; [|by rewrite QueueFacts.fireTimers_timers].
  unfold Queue.fireTimers.
  assert (Hacc : forall m,
            In m (Queue.queueOf Queue.fileUploadQueue
                    (Queue.mkBroker (Queue.queues b) [] (Queue.attempts b))) ->
            Queue.content m = payload) by exact Hq.
  revert Hacc Ht.
  generalize (Queue.mkBroker (Queue.queues b) [] (Queue.attempts b)) as acc.
  induction (Queue.timers b) as [|[[d q] m] ts IH]; intros acc Hacc Ht; simpl;
    [done|].
  apply IH.
  - intros m'. rewrite queueOf_publish. destruct (decide _) as [->|]; [|by auto].
    rewrite List.in_app_iff. intros [H|[<-|[]]]; [by auto|].
    apply (Ht d Queue.fileUploadQueue). by left.
  - intros d' q' m' H. apply (Ht d' q' m'). by right.
Qed.

Lemma carries_onMessage_failed payload msg rest b :
  carries payload b -> Queue.timers b = [] ->
  Queue.queueOf Queue.fileUploadQueue b = msg :: rest ->
  carries payload
    (Queue.onMessage Queue.fileUploadQueue Queue.fileUploadDlq false msg
       (Queue.mkBroker (<[Queue.fileUploadQueue := rest]> (Queue.queues b))
          (Queue.timers b) (Queue.attempts b))).
Proof.
  intros [Hq _] Ht Hmsg. rewrite Ht. unfold Queue.onMessage.
  assert (Hrest : forall m, In m rest -> Queue.content m = payload).
  { intros m Hm. apply Hq. rewrite Hmsg. by right. }
  destruct (Queue.retryCountOf msg <? Queue.maxRetries).
  - split.
    + intros m. unfold Queue.setTimeout, Queue.queueOf. simpl.
      rewrite lookup_insert_eq. simpl. apply Hrest.
    + intros d q m [H|[]]. injection H as _ _ <-. simpl.
      apply Hq. rewrite Hmsg. by left.
  - split; [|done]. intros m. rewrite queueOf_publish.
    destruct (decide _) as [Heq|_]; [discriminate Heq|].
    unfold Queue.queueOf. simpl. rewrite lookup_insert_eq. simpl. apply Hrest.
Qed.

(** A task that cannot succeed: the loop is the retry loop with every
    outcome a failure, and the log is not written. *)
Lemma run_failing payload c clock : forall b,
  (forall now msg, Queue.content msg = payload ->
     exists e, processDelivery parse config now msg c = (inl e, c)) ->
  carries payload b ->
  run parse config clock b c
  = (Queue.consume Queue.fileUploadQueue Queue.fileUploadDlq
       (repeat false (length clock)) b, c).
Proof.
  induction clock as [|now clock IH]; intros b Hfail Hcar; [done|].
  pose proof (carries_fireTimers _ _ Hcar) as Hcar1.
  simpl.
  destruct (Queue.queueOf Queue.fileUploadQueue (Queue.fireTimers b))
    as [|msg rest] eqn:Hq; [done|].
  destruct (Hfail now msg) as (e & He).
  { apply Hcar1. rewrite Hq. by left. }
  rewrite He. simpl. apply IH; [done|].
  apply carries_onMessage_failed; [done | apply QueueFacts.fireTimers_timers | done].
Qed.

(** X26.  An upload task that names no stored message can never succeed:
    the loop attempts it four times, leaves it once on the dead-letter
    queue with its payload, and never writes to the message log. *)
Theorem upload_for_missing_message_is_dead_lettered
    (payload : list Byte.byte) (messageData : FileUploadMessage)
    (clock : list Z) (c : Collection) :
  parse payload = Some messageData ->
  (isValid (taskMessageId messageData) = false
   \/ findById (newObjectId (taskMessageId messageData)) c = None) ->
  (4 <= length clock)%nat ->
  exists b',
    run parse config clock
      (Queue.publishTask Queue.FileUploadConsumer payload Queue.declared) c
    = (b', c)
    /\ Queue.attempts b' = 4%nat
    /\ Queue.queueOf Queue.fileUploadQueue b' = []
    /\ Queue.timers b' = []
    /\ Queue.queueOf Queue.fileUploadDlq b'
       = [Queue.mkConsumeMessage payload (Queue.mkProperties true ∅)].
Proof.
  intros Hparse Hmissing Hclock.
  rewrite (run_failing payload).
  - eexists. split; [reflexivity|].
    replace (length clock) with (4 + (length clock - 4))%nat by lia.
    rewrite List.repeat_app, QueueFacts.consume_app.
    change (Queue.consume Queue.fileUploadQueue Queue.fileUploadDlq
              (repeat false 4)
              (Queue.publishTask Queue.FileUploadConsumer payload Queue.declared))
      with (Queue.startConsuming Queue.FileUploadConsumer
              [false; false; false; false]
              (Queue.publishTask Queue.FileUploadConsumer payload Queue.declared)).
    rewrite QueueFacts.four_failures, QueueFacts.consume_idle by done.
    by vm_compute.
  - intros now msg Hmsg. unfold processDelivery. rewrite Hmsg, Hparse.
    unfold processMessage. destruct Hmissing as [Hv|Hf].
    + rewrite Hv. by eauto.
    + destruct (isValid (taskMessageId messageData)); simpl; [|by eauto].
      rewrite Hf. by eauto.
  - split; [|done]. intros m Hm. vm_compute in Hm.
    by destruct Hm as [<-|[]].
Qed.

(** X27.  An upload task that can succeed is settled at its first
    delivery: one attempt, nothing retried or dead-lettered, and the log
    is what [processMessage] makes of it.  A task published twice is
    attempted twice and applied once. *)
Theorem upload_is_applied_once
    (payload : list Byte.byte) (messageData : FileUploadMessage)
    (now now2 : Z) (clock : list Z) (c c1 : Collection) :
  parse payload = Some messageData ->
  processMessage config now messageData c = (inr tt, c1) ->
  (exists b',
     run parse config (now :: clock)
       (Queue.publishTask Queue.FileUploadConsumer payload Queue.declared) c
     = (b', c1)
     /\ Queue.attempts b' = 1%nat
     /\ Queue.queueOf Queue.fileUploadQueue b' = []
     /\ Queue.timers b' = []
     /\ Queue.queueOf Queue.fileUploadDlq b' = [])
  /\ (exists b',
        run parse config (now :: now2 :: clock)
          (Queue.publishTask Queue.FileUploadConsumer payload
             (Queue.publishTask Queue.FileUploadConsumer payload Queue.declared))
          c
        = (b', c1)
        /\ Queue.attempts b' = 2%nat
        /\ Queue.queueOf Queue.fileUploadQueue b' = []
        /\ Queue.timers b' = []
        /\ Queue.queueOf Queue.fileUploadDlq b' = []).
Proof.
  intros Hparse Hfirst.
  set (msg := Queue.mkConsumeMessage payload (Queue.mkProperties true ∅)).
  assert (Hd1 : forall t, processDelivery parse config t msg c1 = (inr tt, c1)).
  { intros t. unfold processDelivery. simpl. rewrite Hparse.
    destruct (processMessage_success_settles _ _ _ _ _ Hfirst) as (m & Hm & Hdone).
    apply (processMessage_settled _ _ _ _ m); [|done|done].
    unfold processMessage in Hfirst.
    by destruct (isValid (taskMessageId messageData)). }
  assert (Hd0 : processDelivery parse config now msg c = (inr tt, c1)).
  { unfold processDelivery. simpl. by rewrite Hparse. }
  split.
  - rewrite (run_step now clock _ c msg []) by done.
    rewrite Hd0. simpl. rewrite run_idle by done.
    eexists. split; [reflexivity|]. by vm_compute.
  - rewrite (run_step now (now2 :: clock) _ c msg [msg]) by done.
    rewrite Hd0. cbn [fst snd succeeded].
    rewrite (run_step now2 clock _ c1 msg []) by reflexivity.
    rewrite Hd1. cbn [fst snd succeeded]. rewrite run_idle by reflexivity.
    eexists. split; [reflexivity|]. by vm_compute.
Qed.

End Loop.

Lemma upload_for_missing_message_is_dead_lettered_witness :
  exists b',
    run (MoreSamples.readAs MoreSamples.strayTask) MoreSamples.bucketConfig
      [1; 2; 3; 4; 5]
      (Queue.publishTask Queue.FileUploadConsumer Samples.emptyTask Queue.declared)
      Samples.sampleLog
    = (b', Samples.sampleLog)
    /\ Queue.attempts b' = 4%nat
    /\ Queue.queueOf Queue.fileUploadDlq b'
       = [Queue.mkConsumeMessage Samples.emptyTask (Queue.mkProperties true ∅)].
Proof.
  destruct (upload_for_missing_message_is_dead_lettered
              (MoreSamples.readAs MoreSamples.strayTask) MoreSamples.bucketConfig
              Samples.emptyTask MoreSamples.strayTask [1; 2; 3; 4; 5]
              Samples.sampleLog eq_refl (or_intror eq_refl) ltac:(simpl; lia))
    as (b' & Hrun & Ha & _ & _ & Hd).
  exists b'. split; [exact Hrun|]. split; [exact Ha | exact Hd].
Defined.

Lemma upload_is_applied_once_witness :
  exists b' c1,
    run (MoreSamples.readAs MoreSamples.uploadTask) MoreSamples.bucketConfig
      [150; 160]
      (Queue.publishTask Queue.FileUploadConsumer Samples.emptyTask
         (Queue.publishTask Queue.FileUploadConsumer Samples.emptyTask
            Queue.declared))
      Samples.sampleLog
    = (b', c1)
    /\ Queue.attempts b' = 2%nat
    /\ List.map (fun m => (fileUrl m, updatedAt m)) c1
       = [(Some "https://bucket.s3.us-east-1.amazonaws.com/chat/a.png", 150);
          (None, 200)].
Proof.
  destruct (processMessage MoreSamples.bucketConfig 150 MoreSamples.uploadTask
              Samples.sampleLog) as [[[e]|[]] c1] eqn:Hfirst;
    [vm_compute in Hfirst; discriminate|].
  destruct (upload_is_applied_once
              (MoreSamples.readAs MoreSamples.uploadTask) MoreSamples.bucketConfig
              Samples.emptyTask MoreSamples.uploadTask 150 160 []
              Samples.sampleLog c1 eq_refl Hfirst)
    as (_ & b' & Hrun & Ha & _).
  exists b', c1. split; [exact Hrun|]. split; [exact Ha|].
  vm_compute in Hfirst. by injection Hfirst as <-.
Defined.

End UploadFacts.

(** ** Chat gateway *)

Module GatewayFacts.
Import Gateway.

Section Registry.

Variable verify : string -> option JwtPayload.

Lemma handleConnection_cases client st :
  (snd (handleConnection verify client st) = st
   /\ forall userId, fst (handleConnection verify client st)
                     <> [ConnectedTo (socketId client) userId])
  \/ exists user userId,
       Msg.truthy (sub user) = Some userId
       /\ handleConnection verify client st
          = ([ConnectedTo (socketId client) userId],
             mkState (<[userId := socketId client]> (connectedUsers st))
               (<[socketId client :=
                    mkSocket (socketId client) (handshake client) (Some user)]>
                  (openSockets st))).
Proof.
  unfold handleConnection.
  destruct (tokenOf (handshake client)) as [token|]; [|by left].
  destruct (verify token) as [user|]; [|by left].
  destruct (Msg.truthy (sub user)) as [userId|] eqn:Hsub; [|by left].
  right. by exists user, userId.
Qed.

Lemma step_invariant st ev :
  registrySound st -> socketsKeyed st ->
  registrySound (step verify st ev) /\ socketsKeyed (step verify st ev).
Proof.
  intros Hsound Hkeyed. destruct ev as [client|clientId]; simpl.
  - destruct (openSockets st !! socketId client) eqn:Hfresh; [done|].
    destruct (handleConnection_cases client st)
      as [[-> _]|(user & userId & Hsub & ->)]; [done|]. simpl. split.
    + intros u s. simpl. rewrite lookup_insert.
      destruct (decide (userId = u)) as [->|Hne].
      * intros [= <-]. eexists. rewrite lookup_insert_eq. split; [done|].
        split; [done|]. unfold socketUserId. simpl. done.
      * intros Hreg. destruct (Hsound u s Hreg) as (c & Hc & Hid & Hu).
        exists c. rewrite lookup_insert_ne; [done|]. intros <-. congruence.
    + intros id c. simpl. rewrite lookup_insert.
      destruct (decide (socketId client = id)) as [<-|Hne]; [by intros [= <-]|].
      apply Hkeyed.
  - destruct (openSockets st !! clientId) as [client|] eqn:Hopen; [|done].
    pose proof (Hkeyed _ _ Hopen) as Hid.
    assert (Hreg : forall u s,
              connectedUsers (handleDisconnect client st) !! u = Some s ->
              connectedUsers st !! u = Some s /\ s <> clientId).
    { intros u s. unfold handleDisconnect.
      destruct (socketUserId client) as [userId|] eqn:Huser.
      - destruct (decide (connectedUsers st !! userId = Some (socketId client)))
          as [Hcur|Hcur]; simpl.
        + rewrite lookup_delete_Some. intros [Hne Hs]. split; [done|].
          intros ->. destruct (Hsound u clientId Hs) as (c & Hc & _ & Hu).
          rewrite Hopen in Hc. injection Hc as <-. congruence.
        + intros Hs. split; [done|]. intros ->.
          destruct (Hsound u clientId Hs) as (c & Hc & _ & Hu).
          rewrite Hopen in Hc. injection Hc as <-.
          rewrite Huser in Hu. injection Hu as ->. congruence.
      - intros Hs. split; [done|]. intros ->.
        destruct (Hsound u clientId Hs) as (c & Hc & _ & Hu).
        rewrite Hopen in Hc. injection Hc as <-. congruence. }
    assert (Hsame : openSockets (handleDisconnect client st) = openSockets st).
    { unfold handleDisconnect. destruct (socketUserId client); [|done].
      by destruct (decide _). }
    split.
    + intros u s Hs. simpl in Hs. destruct (Hreg u s Hs) as [Hs' Hne].
      destruct (Hsound u s Hs') as (c & Hc & Hcid & Hu).
      exists c. simpl. rewrite Hsame, lookup_delete_ne; done.
    + intros id c. simpl. rewrite Hsame, lookup_delete_Some.
      intros [_ Hc]. by apply Hkeyed.
Qed.

Lemma steps_invariant evs : forall st,
  registrySound st -> socketsKeyed st ->
  registrySound (steps verify evs st) /\ socketsKeyed (steps verify evs st).
Proof.
  induction evs as [|ev evs IH]; intros st Hs Hk; [done|].
  destruct (step_invariant st ev Hs Hk) as [Hs' Hk'].
  by apply (IH (step verify st ev)).
Qed.

(** X28.  The registry never names a socket that is gone.  Whatever
    sockets arrive and leave, a user that [isUserOnline] reports online
    has an open, authenticated socket of their own, and it is the one
    [getSocketId] returns. *)
Theorem online_user_has_an_open_socket (evs : list Event) (userId : string) :
  isUserOnline userId (steps verify evs initial) = true ->
  exists client,
    getSocketId userId (steps verify evs initial) = Some (socketId client)
    /\ openSockets (steps verify evs initial) !! socketId client = Some client
    /\ socketUserId client = Some userId.
Proof.
  intros Honline. unfold isUserOnline in Honline.
  apply bool_decide_eq_true in Honline as [s Hs].
  destruct (steps_invariant evs initial) as [Hsound _]; [done | done |].
  destruct (Hsound userId s Hs) as (c & Hc & Hid & Hu).
  exists c. unfold getSocketId. rewrite Hid. done.
Qed.

(** X29.  The registry follows the latest socket of a user only.  When a
    user holds two sockets, the older one leaving changes nothing, but
    the newer one leaving makes [isUserOnline] report the user offline
    although the older socket is still open. *)
Theorem online_status_follows_latest_socket
    (evs : list Event) (older newer : Socket) (user : JwtPayload)
    (userId : string) :
  let st := steps verify evs initial in
  openSockets st !! socketId older = None ->
  openSockets st !! socketId newer = None ->
  socketId older <> socketId newer ->
  (exists t, tokenOf (handshake older) = Some t /\ verify t = Some user) ->
  (exists t, tokenOf (handshake newer) = Some t /\ verify t = Some user) ->
  Msg.truthy (sub user) = Some userId ->
  let both := steps verify [Arrives older; Arrives newer] st in
  isUserOnline userId both = true
  /\ isUserOnline userId (step verify both (Leaves (socketId older))) = true
  /\ getSocketId userId (step verify both (Leaves (socketId older)))
     = Some (socketId newer)
  /\ isUserOnline userId (step verify both (Leaves (socketId newer))) = false
  /\ is_Some (openSockets (step verify both (Leaves (socketId newer)))
              !! socketId older).
Proof.
  intros st Ho Hn Hne (t1 & Ht1 & Hv1) (t2 & Ht2 & Hv2) Hsub both.
  assert (Hc1 : handleConnection verify older st
                = ([ConnectedTo (socketId older) userId],
                   mkState (<[userId := socketId older]> (connectedUsers st))
                     (<[socketId older :=
                          mkSocket (socketId older) (handshake older) (Some user)]>
                        (openSockets st)))).
  { unfold handleConnection. by rewrite Ht1, Hv1, Hsub. }
  assert (Hboth : both
                  = mkState (<[userId := socketId newer]>
                               (<[userId := socketId older]> (connectedUsers st)))
                      (<[socketId newer :=
                           mkSocket (socketId newer) (handshake newer) (Some user)]>
                         (<[socketId older :=
                              mkSocket (socketId older) (handshake older)
                                (Some user)]> (openSockets st)))).
  { unfold both. simpl. rewrite Ho, Hc1. simpl.
    rewrite lookup_insert_ne by done. rewrite Hn.
    unfold handleConnection. by rewrite Ht2, Hv2, Hsub. }
  rewrite Hboth. unfold isUserOnline, getSocketId, step, handleDisconnect.
  simpl. split; [|split; [|split; [|split]]].
  - apply bool_decide_eq_true. rewrite lookup_insert_eq. by eexists.
  - rewrite lookup_insert_ne, lookup_insert_eq by done.
    unfold socketUserId. simpl. rewrite Hsub, lookup_insert_eq.
    destruct (decide _) as [Heq|_]; [congruence|]. simpl.
    apply bool_decide_eq_true. rewrite lookup_insert_eq. by eexists.
  - rewrite lookup_insert_ne, lookup_insert_eq by done.
    unfold socketUserId. simpl. rewrite Hsub, lookup_insert_eq.
    destruct (decide _) as [Heq|_]; [congruence|]. simpl.
    by rewrite lookup_insert_eq.
  - rewrite lookup_insert_eq. unfold socketUserId. simpl.
    rewrite Hsub, lookup_insert_eq.
    destruct (decide _) as [_|Hno]; [|done]. simpl.
    apply bool_decide_eq_false. rewrite lookup_delete_eq. by intros [? ?].
  - rewrite lookup_insert_eq. unfold socketUserId. simpl.
    rewrite Hsub, lookup_insert_eq.
    destruct (decide _) as [_|Hno]; [|done]. simpl.
    rewrite lookup_delete_ne, lookup_insert_ne, lookup_insert_eq by done.
    by eexists.
Qed.

End Registry.

Lemma online_user_has_an_open_socket_witness :
  exists client,
    getSocketId Samples.alice
      (steps MoreSamples.tokenIsUser
         [Arrives MoreSamples.phone; Arrives MoreSamples.laptop;
          Leaves "s1"] initial)
    = Some (socketId client)
    /\ socketId client = "s2"
    /\ socketUserId client = Some Samples.alice.
Proof.
  destruct (online_user_has_an_open_socket MoreSamples.tokenIsUser
              [Arrives MoreSamples.phone; Arrives MoreSamples.laptop; Leaves "s1"]
              Samples.alice) as (client & Hget & _ & Huser).
  - by vm_compute.
  - exists client. split; [exact Hget|]. split; [|exact Huser].
    vm_compute in Hget. injection Hget as Hid. symmetry. exact Hid.
Defined.

Lemma online_status_follows_latest_socket_witness :
  let both := steps MoreSamples.tokenIsUser
                [Arrives MoreSamples.phone; Arrives MoreSamples.laptop] initial in
  isUserOnline Samples.alice both = true
  /\ isUserOnline Samples.alice
       (step MoreSamples.tokenIsUser both (Leaves "s2")) = false
  /\ is_Some (openSockets (step MoreSamples.tokenIsUser both (Leaves "s2"))
              !! "s1").
Proof.
  assert (H1 : exists t, tokenOf (handshake MoreSamples.phone) = Some t
                         /\ MoreSamples.tokenIsUser t
                            = Some (mkJwtPayload (Some Samples.alice)))
    by (eexists; split; reflexivity).
  assert (H2 : exists t, tokenOf (handshake MoreSamples.laptop) = Some t
                         /\ MoreSamples.tokenIsUser t
                            = Some (mkJwtPayload (Some Samples.alice)))
    by (eexists; split; reflexivity).
  destruct (online_status_follows_latest_socket MoreSamples.tokenIsUser []
              MoreSamples.phone MoreSamples.laptop
              (mkJwtPayload (Some Samples.alice)) Samples.alice
              eq_refl eq_refl ltac:(discriminate) H1 H2 eq_refl)
    as (Hon & _ & _ & Hoff & Hopen).
  split; [exact Hon|]. split; [exact Hoff | exact Hopen].
Defined.

(** *** Sending through the gateway *)

Lemma sendMessage_stores conns newId now sender receiver text fileData c sent c' :
  Msg.sendMessage conns newId now sender receiver text fileData c = (inr sent, c') ->
  c' = c ++ [Msg.mkMessage newId (newObjectId sender) (newObjectId receiver) text
               (Msg.isSome fileData) (option_map Msg.fdFileKey fileData) None
               (option_map Msg.fdFileName fileData)
               (option_map Msg.fdContentType fileData)
               (option_map Msg.fdSize fileData) false false None now now]
  /\ sent = Msg.mkSent newId sender receiver text (Msg.isSome fileData)
              (option_map Msg.fdFileKey fileData)
              (option_map Msg.fdFileName fileData)
              (option_map Msg.fdContentType fileData)
              (option_map Msg.fdSize fileData) now.
Proof.
  unfold Msg.sendMessage, Msg.create.
  destruct (negb (isValid sender) || negb (isValid receiver)); [done|].
  destruct (String.eqb sender receiver); [done|].
  destruct (negb (ConnReq.areConnected sender receiver conns)); [done|]. simpl.
  destruct (String.eqb text ""); [done|].
  destruct (existsb _ c); [done|].
  by intros [= <- <-].
Qed.

Lemma fileDataOf_Some data :
  Msg.isSome (fileDataOf data) = true
  <-> (exists k, dFileKey data = Some k /\ k <> "")
      /\ (exists n, dFileName data = Some n /\ n <> "")
      /\ (exists t, dContentType data = Some t /\ t <> "")
      /\ (exists z, dFileSize data = Some z /\ z <> 0).
Proof.
  unfold fileDataOf. split.
  - destruct (Msg.truthy (dFileKey data)) as [k|] eqn:Hk; [|done].
    destruct (Msg.truthy (dFileName data)) as [n|] eqn:Hn; [|done].
    destruct (Msg.truthy (dContentType data)) as [t|] eqn:Ht; [|done].
    destruct (truthyNumber (dFileSize data)) as [z|] eqn:Hz; [|done].
    intros _. apply UploadFacts.truthy_Some in Hk, Hn, Ht.
    unfold truthyNumber in Hz. destruct (dFileSize data) as [z'|]; [|done].
    destruct (Z.eqb_spec z' 0); [done|]. by eauto 10.
  - intros ((k & -> & Hk) & (n & -> & Hn) & (t & -> & Ht) & (z & -> & Hz)).
    rewrite !UploadFacts.truthy_nonempty by done. simpl.
    by destruct (Z.eqb_spec z 0).
Qed.

Section Sending.

Variable stringifyUpload : Upload.FileUploadMessage -> list Byte.byte.
Variable stringifyNotification : NotificationMessage -> list Byte.byte.


End Sending.

End GatewayFacts.
